(** * AudioEmotion: the capture -> ring buffer -> windowed inference -> smoothing pipeline

    A shallow embedding of the JavaScript sources

      - utils/RingBuffer.js          (RingBufferWriter, RingBufferReader, createRingBuffer)
      - audio-processor worklet      (AudioProcessor: writeToBuffer, resetBuffer, resample,
                                      downmixChannels, calculateRMS, process)
      - src/utils/audio.js           (resampleAudio, normalizeAudio, standardizeAudio, calculateRMS)
      - src/utils/inference.js       (EmaSmoother, softmax, getDominant, buildSilenceResult,
                                      runInference, resetInference)
      - src/workers/inference.js     (initializeModel, initializeBuffer, readFromBuffer,
                                      getAvailableSamples, inferenceLoop, onmessage)
      - src/stores/emotionStore.js   (addAudioSamples, processAudio, handlePrediction,
                                      resetSession)

    Conventions.
      - The two cursors live in an Int32Array and are accessed with
        Atomics.load / Atomics.store: they are integers (Z), and a store
        wraps its argument to 32 bits (toInt32).
      - JavaScript's [%] is the truncated remainder: [Z.rem].
      - The ring buffer only copies samples, so it is generic in the
        sample type.
      - JavaScript numbers are idealised as exact numbers: rationals (Q)
        in the resamplers, which use only field operations, floor and
        round, so that they run inside Rocq; reals (R) where the code
        needs exp or sqrt (softmax, RMS, standardisation) and in the
        smoother that consumes their results.  Rounding error of IEEE
        doubles is outside the model.
      - A JavaScript object used as a record with string keys is an
        association list in insertion order (Object.entries order matters
        to getDominant). *)

From Stdlib Require Import ZArith List Lia Bool QArith Qround Reals Lra.
From Stdlib Require Lqa.
From stdpp Require Import base list strings.

Local Open Scope Z_scope.

(** ** Typed arrays and Int32 cursors *)

Definition toInt32 (z : Z) : Z := (z + 2 ^ 31) mod 2 ^ 32 - 2 ^ 31.

Section TypedArray.
Context {A : Type}.
(** what a float typed array holds after [a[i] = undefined] *)
Variable NaN : A.

(** [a[i]] on a typed array: [None] is JavaScript's [undefined]. *)
Definition ta_get (a : list A) (i : Z) : option A :=
  if i <? 0 then None else a !! Z.to_nat i.

(** [a[i] = x] on a typed array: out-of-range writes are ignored. *)
Definition ta_set (a : list A) (i : Z) (x : A) : list A :=
  if i <? 0 then a else <[Z.to_nat i := x]> a.

(** [dst[i] = src[j]]: [undefined] is converted to NaN by the store. *)
Definition ta_copy (dst : list A) (i : nat) (src : list A) (j : Z) : list A :=
  <[i := default NaN (ta_get src j)]> dst.
End TypedArray.

(** [a.slice(start)] of an Array or typed array; a negative [start]
    counts from the end. *)
Definition slice_from {A : Type} (a : list A) (start : Z) : list A :=
  if start <? 0 then drop (length a - Z.to_nat (- start)) a
  else drop (Z.to_nat start) a.

(** ** RingBuffer.js *)

(** The SharedArrayBuffer of a session seen through its two views: the
    Int32 control words [0] (write pointer) and [1] (read pointer), and
    the Float32 data area.  Control word [2] holds the capacity and is
    never read back by any code; every party uses the [capacity] number
    it was handed together with the buffer ([this.capacity]), which is
    the first argument of the operations below. *)
Record SharedBuffer (A : Type) : Type := mkShared
  { writePtr : Z;
    readPtr : Z;
    sharedData : list A }.
Arguments mkShared {A}.
Arguments writePtr {A}.
Arguments readPtr {A}.
Arguments sharedData {A}.

(** Atomics.store(controlBuffer, 0, v) and Atomics.store(controlBuffer, 1, v) *)
Definition store_writePtr {A} (b : SharedBuffer A) (v : Z) : SharedBuffer A :=
  mkShared (toInt32 v) (readPtr b) (sharedData b).
Definition store_readPtr {A} (b : SharedBuffer A) (v : Z) : SharedBuffer A :=
  mkShared (writePtr b) (toInt32 v) (sharedData b).

(** the copy loop of [write] and [writeToBuffer]; [samples] are the
    [toWrite] first samples, still to be written *)
Fixpoint write_loop {A} (capacity : Z) (data : list A) (writeIndex : Z)
    (samples : list A) : list A * Z :=
  match samples with
  | [] => (data, writeIndex)
  | x :: rest =>
      write_loop capacity (ta_set data writeIndex x)
        (Z.rem (writeIndex + 1) capacity) rest
  end.

(** the copy loop of [read], [peek] and [readFromBuffer]: [n] iterations
    left, [i] the loop counter *)
Fixpoint read_loop {A} (NaN : A) (capacity : Z) (data : list A) (n i : nat)
    (readIndex : Z) (destination : list A) : list A * Z :=
  match n with
  | O => (destination, readIndex)
  | S n' =>
      read_loop NaN capacity data n' (S i) (Z.rem (readIndex + 1) capacity)
        (ta_copy NaN destination i data readIndex)
  end.

Module RingBuffer.
Section Ops.
Context {A : Type}.
Variable NaN : A.
(** the value of a fresh Float32Array cell *)
Variable zero : A.
(** [this.capacity] *)
Variable capacity : Z.

(** createRingBuffer(capacity) *)
Definition createRingBuffer : SharedBuffer A :=
  mkShared 0 0 (replicate (Z.to_nat capacity) zero).

(** RingBufferWriter.availableWrite(writePtr, readPtr) *)
Definition availableWrite_at (writePtr readPtr : Z) : Z :=
  if readPtr <=? writePtr
  then capacity - writePtr + readPtr - 1
  else readPtr - writePtr - 1.

Definition availableWrite (b : SharedBuffer A) : Z :=
  availableWrite_at (writePtr b) (readPtr b).

(** RingBufferWriter.availableRead and RingBufferReader.availableRead
    (the same text in both classes) *)
Definition availableRead (b : SharedBuffer A) : Z :=
  if writePtr b >=? readPtr b
  then writePtr b - readPtr b
  else capacity - readPtr b + writePtr b.

Definition isFull (b : SharedBuffer A) : bool := availableWrite b =? 0.
Definition isEmpty (b : SharedBuffer A) : bool := availableRead b =? 0.

(** RingBufferWriter.write(samples): the count written and the buffer *)
Definition write (b : SharedBuffer A) (samples : list A)
    : Z * SharedBuffer A :=
  let available := availableWrite_at (writePtr b) (readPtr b) in
  let toWrite := Z.min (Z.of_nat (length samples)) available in
  if toWrite =? 0 then (0, b)
  else
    let '(data, writeIndex) :=
      write_loop capacity (sharedData b) (writePtr b)
        (take (Z.to_nat toWrite) samples) in
    (toWrite,
     store_writePtr (mkShared (writePtr b) (readPtr b) data) writeIndex).

(** RingBufferReader.read(destination): the count read, the
    destination array afterwards, and the buffer *)
Definition read (b : SharedBuffer A) (destination : list A)
    : Z * list A * SharedBuffer A :=
  let available := availableRead b in
  let toRead := Z.min (Z.of_nat (length destination)) available in
  if toRead =? 0 then (0, destination, b)
  else
    let '(dest, readIndex) :=
      read_loop NaN capacity (sharedData b) (Z.to_nat toRead) 0
        (readPtr b) destination in
    (toRead, dest, store_readPtr b readIndex).

(** RingBufferReader.peek(destination) *)
Definition peek (b : SharedBuffer A) (destination : list A)
    : Z * list A :=
  let available := availableRead b in
  let toPeek := Z.min (Z.of_nat (length destination)) available in
  if toPeek =? 0 then (0, destination)
  else
    let '(dest, _) :=
      read_loop NaN capacity (sharedData b) (Z.to_nat toPeek) 0
        (readPtr b) destination in
    (toPeek, dest).

(** RingBufferWriter.reset() *)
Definition writer_reset (b : SharedBuffer A) : SharedBuffer A :=
  store_readPtr (store_writePtr b 0) 0.

(** RingBufferReader.reset(): the read pointer jumps to the write
    pointer *)
Definition reader_reset (b : SharedBuffer A) : SharedBuffer A :=
  store_readPtr b (writePtr b).

(** One call on the buffer by its producer or its consumer. *)
Inductive op : Type :=
| Write (samples : list A)
| Read (destination : list A)
| Peek (destination : list A)
| WriterReset
| ReaderReset.

Definition run_op (b : SharedBuffer A) (o : op) : SharedBuffer A :=
  match o with
  | Write samples => snd (write b samples)
  | Read destination => snd (read b destination)
  | Peek _ => b
  | WriterReset => writer_reset b
  | ReaderReset => reader_reset b
  end.

Definition run_ops (b : SharedBuffer A) (os : list op) : SharedBuffer A :=
  foldl run_op b os.

(** The producer pushes the chunks one after the other and adds up
    what each [write] returned and what it could not place
    ([samples.length - written], the count the worklet reports as
    dropped). *)
Fixpoint push_chunks (b : SharedBuffer A) (chunks : list (list A))
    : Z * Z * SharedBuffer A :=
  match chunks with
  | [] => (0, 0, b)
  | samples :: rest =>
      let '(written, b1) := write b samples in
      let '(total_written, total_dropped, b2) := push_chunks b1 rest in
      (written + total_written,
       (Z.of_nat (length samples) - written) + total_dropped,
       b2)
  end.

(** What a buffer created by createRingBuffer(capacity) and used
    through views of that capacity satisfies at all times. *)
Definition wf (b : SharedBuffer A) : Prop :=
  0 < capacity < 2 ^ 31 /\
  0 <= writePtr b < capacity /\
  0 <= readPtr b < capacity /\
  Z.of_nat (length (sharedData b)) = capacity.

(** the [n] cells from index [r] on, wrapping at [capacity] *)
Definition cells (data : list A) (r : Z) (n : nat) : list A :=
  map (fun j => default NaN (ta_get data ((r + Z.of_nat j) mod capacity)))
    (seq 0 n).

(** The unread samples, oldest first: the [availableRead] cells from
    the read pointer on. *)
Definition contents (b : SharedBuffer A) : list A :=
  cells (sharedData b) (readPtr b) (Z.to_nat (availableRead b)).

(** one turn of the copy loop of [write], seen on the whole buffer *)
Definition push1 (b : SharedBuffer A) (x : A) : SharedBuffer A :=
  mkShared ((writePtr b + 1) mod capacity) (readPtr b)
    (ta_set (sharedData b) (writePtr b) x).

(** A sequence of calls together with two logs: the samples that the
    writes accepted (the [written] first samples of each call) and the
    samples that the reads delivered (the [read] first cells of each
    destination), both in call order. *)
Fixpoint run_logged (b : SharedBuffer A) (os : list op)
    (accepted delivered : list A) : SharedBuffer A * list A * list A :=
  match os with
  | [] => (b, accepted, delivered)
  | Write samples :: rest =>
      let '(written, b') := write b samples in
      run_logged b' rest (accepted ++ take (Z.to_nat written) samples)
        delivered
  | Read destination :: rest =>
      let '(count, destination', b') := read b destination in
      run_logged b' rest accepted
        (delivered ++ take (Z.to_nat count) destination')
  | o :: rest => run_logged (run_op b o) rest accepted delivered
  end.

Definition is_reset (o : op) : bool :=
  match o with
  | WriterReset | ReaderReset => true
  | _ => false
  end.

End Ops.
End RingBuffer.

(** ** The capture worklet: AudioProcessor *)

(** A typed-array view ([Int32Array] or [Float32Array]) on the session's
    SharedArrayBuffer; a field that is [null] in the source is [None]. *)
Inductive view : Type := SharedView.

(** [a * (1 - t) + b * t] where [a] and [b] were read from an array:
    an operand that is [undefined] makes the result NaN ([None]). *)
Definition lerp (a b : option Q) (t : Q) : option Q :=
  match a, b with
  | Some x, Some y => Some (x * (1 - t) + y * t)%Q
  | _, _ => None
  end.

(** The interpolation loop, the same text in AudioProcessor.resample and
    in resampleAudio: [n] outputs still to produce, [phase] the running
    source position. *)
Fixpoint resample_loop (buffer : list Q) (ratio : Q) (n : nat) (phase : Q)
    : list (option Q) :=
  match n with
  | O => []
  | S n' =>
      let srcIndex := phase in
      let srcIndexFloor := Qfloor srcIndex in
      let srcIndexCeil :=
        Z.min (srcIndexFloor + 1) (Z.of_nat (length buffer) - 1) in
      let t := (srcIndex - inject_Z srcIndexFloor)%Q in
      lerp (ta_get buffer srcIndexFloor) (ta_get buffer srcIndexCeil) t
        :: resample_loop buffer ratio n' (phase + ratio)%Q
  end.

(** Math.round: the nearest integer, halves rounded up *)
Definition Math_round (x : Q) : Z := Qfloor (x + (1 # 2))%Q.

Module AudioProcessor.

Record t : Type := mk
  { isInitialized : bool;
    controlBuffer : option view;
    dataBuffer : option view;
    capacity : Z;
    (** inputSampleRate / targetSampleRate, a positive number *)
    resampleRatio : Q;
    resampleBuffer : list Q }.

(** the fields set by the constructor, for a given [sampleRate] *)
Definition constructor (sampleRate : Q) : t :=
  mk false None None 0 (sampleRate / 16000)%Q [].

(** initializeBuffer(sharedBuffer, capacity), when the two views can be
    built *)
Definition initializeBuffer (p : t) (cap : Z) : t :=
  mk true (Some SharedView) (Some SharedView) cap
    (resampleRatio p) (resampleBuffer p).

(** resetBuffer() *)
Definition resetBuffer {A} (p : t) (b : SharedBuffer A) : t * SharedBuffer A :=
  (mk (isInitialized p) (controlBuffer p) (dataBuffer p) (capacity p)
      (resampleRatio p) [],
   match controlBuffer p with
   | Some _ => store_readPtr (store_writePtr b 0) 0
   | None => b
   end).

(** writeToBuffer(samples): the count written and the shared memory *)
Definition writeToBuffer {A} (p : t) (b : SharedBuffer A) (samples : list A)
    : Z * SharedBuffer A :=
  match isInitialized p, controlBuffer p, dataBuffer p with
  | true, Some _, Some _ =>
      let writePtr := writePtr b in
      let readPtr := readPtr b in
      let available :=
        if readPtr <=? writePtr
        then capacity p - writePtr + readPtr - 1
        else readPtr - writePtr - 1 in
      let toWrite := Z.min (Z.of_nat (length samples)) available in
      if toWrite =? 0 then (0, b)
      else
        let '(data, writeIndex) :=
          write_loop (capacity p) (sharedData b) writePtr
            (take (Z.to_nat toWrite) samples) in
        (toWrite, store_writePtr (mkShared writePtr readPtr data) writeIndex)
  | _, _, _ => (0, b)
  end.

(** resample(inputSamples): the output block and the processor with its
    carry-over buffer updated *)
Definition resample (p : t) (inputSamples : list Q) : list (option Q) * t :=
  let buffer := resampleBuffer p ++ inputSamples in
  let ratio := resampleRatio p in
  let keep (rest : list Q) :=
    mk (isInitialized p) (controlBuffer p) (dataBuffer p) (capacity p)
       ratio rest in
  if Qlt_le_dec (inject_Z (Z.of_nat (length buffer))) ratio
  then ([], keep buffer)
  else
    let outputSamples := Qfloor (inject_Z (Z.of_nat (length buffer)) / ratio) in
    let output := resample_loop buffer ratio (Z.to_nat outputSamples) 0 in
    let consumed := Qfloor (inject_Z outputSamples * ratio) in
    (output, keep (slice_from buffer consumed)).

(** the worklet called once per block on the pieces of a signal: the
    concatenation of what the calls return *)
Fixpoint resample_blocks (p : t) (blocks : list (list Q))
    : list (option Q) * t :=
  match blocks with
  | [] => ([], p)
  | block :: rest =>
      let '(out, p1) := resample p block in
      let '(outs, p2) := resample_blocks p1 rest in
      (out ++ outs, p2)
  end.

End AudioProcessor.

(** the sum of a list of numbers *)
Definition Qsum (xs : list Q) : Q := fold_right Qplus 0%Q xs.

(** frame [i] of a channel, 0 where the channel has no such frame *)
Definition frame (channel : list Q) (i : nat) : Q :=
  default 0%Q (channel !! i).

(** the mean over the channels of their frames [i] *)
Definition mean_frame (channelData : list (list Q)) (i : nat) : Q :=
  (Qsum (map (fun channel => frame channel i) channelData)
   / inject_Z (Z.of_nat (length channelData)))%Q.

(** ** The capture worklet: downmix, level, the process callback *)

Module AudioWorklet.

(** what [process] posts to the main thread *)
Inductive message : Type :=
| MsgRms (rms : R) (timestamp : R)
| MsgSamples (samples : list (option Q))
| MsgBufferOverflow (dropped : Z).

(** downmixChannels(channelData).  [channel[i] || 0]: a frame that a
    channel lacks counts as 0.  With no channel at all the read of
    [channelData[0].length] throws: [None]. *)
Definition downmixChannels (channelData : list (list Q)) : option (list Q) :=
  match channelData with
  | [] => None
  | [channel] => Some channel
  | first :: _ =>
      let channelCount := inject_Z (Z.of_nat (length channelData)) in
      let frameCount := length first in
      Some
        (map (fun i =>
                (fold_left
                   (fun sum channel => sum + default 0 (channel !! i))
                   channelData 0 / channelCount)%Q)
           (seq 0 frameCount))
  end.

(** calculateRMS(samples) of the processor *)
Definition calculateRMS (samples : list Q) : R :=
  if (length samples =? 0)%nat then 0%R
  else
    sqrt (fold_left (fun sumSquares x => (sumSquares + Q2R x * Q2R x)%R)
            samples 0%R
          / INR (length samples)).

(** process(inputs, outputs, parameters) at time [currentTime]: the
    messages posted, in order, the processor and the shared memory.  The
    test [inputSampleRate !== targetSampleRate] is the test that
    [resampleRatio], their quotient, is not 1. *)
Definition process (p : AudioProcessor.t) (b : SharedBuffer (option Q))
    (inputs : list (list (list Q))) (currentTime : R)
    : list message * AudioProcessor.t * SharedBuffer (option Q) :=
  match inputs with
  | ((first :: _) as input) :: _ =>
      if (length first =? 0)%nat then ([], p, b)
      else
        match downmixChannels input with
        | None => ([], p, b)
        | Some monoChannel =>
            let rms := calculateRMS monoChannel in
            let '(samples, p) :=
              if negb (Qeq_bool (AudioProcessor.resampleRatio p) 1)
              then AudioProcessor.resample p monoChannel
              else (map Some monoChannel, p) in
            let posted :=
              MsgRms rms currentTime
                :: (if (0 <? length samples)%nat then [MsgSamples samples]
                    else []) in
            if AudioProcessor.isInitialized p && (0 <? length samples)%nat
            then
              let '(written, b') := AudioProcessor.writeToBuffer p b samples in
              (posted ++
                 (if written <? Z.of_nat (length samples)
                  then [MsgBufferOverflow
                          (Z.of_nat (length samples) - written)]
                  else []),
               p, b')
            else (posted, p, b)
        end
  | _ => ([], p, b)
  end.

End AudioWorklet.

(** ** src/utils/audio.js: resampleAudio *)

(** Sample rates are finite, so the two [isFinite] tests of the source
    never fire; what is left of the guard is the empty input and the
    equal rates.  [slice()] copies the input. *)
Definition resampleAudio (inputBuffer : list Q)
    (inputSampleRate outputSampleRate : Q) : list (option Q) :=
  if (length inputBuffer =? 0)%nat || Qeq_bool inputSampleRate outputSampleRate
  then map Some inputBuffer
  else
    let ratio := (inputSampleRate / outputSampleRate)%Q in
    let outputLength :=
      Z.max 1 (Math_round (inject_Z (Z.of_nat (length inputBuffer)) / ratio)) in
    resample_loop inputBuffer ratio (Z.to_nat outputLength) 0.

(** two signals agree sample by sample on their common length
    (NaN equals nothing, as in JavaScript) *)
Definition same_sample (a b : option Q) : bool :=
  match a, b with
  | Some x, Some y => Qeq_bool x y
  | _, _ => false
  end.

Fixpoint agree_on_common_length (xs ys : list (option Q)) : bool :=
  match xs, ys with
  | x :: xs', y :: ys' => same_sample x y && agree_on_common_length xs' ys'
  | _, _ => true
  end.

(** a number between [lo] and [hi] (so not NaN) *)
Definition within (lo hi : Q) (o : option Q) : Prop :=
  exists q, o = Some q /\ (lo <= q <= hi)%Q.

(** every [step]-th sample of [buffer], [n] of them from [index] on *)
Fixpoint decimate (buffer : list Q) (step : Z) (n : nat) (index : Z) : list Q :=
  match n with
  | O => []
  | S n' =>
      default 0%Q (buffer !! Z.to_nat index)
        :: decimate buffer step n' (index + step)
  end.

(** an output that is the number [x] *)
Definition is_sample (o : option Q) (x : Q) : Prop :=
  exists q, o = Some q /\ (q == x)%Q.

(** the test signal x[i] = i *)
Definition ramp (n : nat) : list Q :=
  map (fun i => inject_Z (Z.of_nat i)) (seq 0 n).

(** ** src/utils/emotions.js *)

Definition EMOTION_LABELS : list string :=
  ["angry"; "disgust"; "fearful"; "happy";
   "neutral"; "sad"; "surprised"; "calm"]%string.

(** ** Probability vectors: objects keyed by label *)

(** An object whose values are numbers, as the list of its entries in
    insertion order. *)
Definition EmotionVector : Type := list (string * R).

(** [o[key]]; [None] is [undefined] *)
Fixpoint get_prop (o : EmotionVector) (key : string) : option R :=
  match o with
  | [] => None
  | (k, v) :: rest => if String.eqb k key then Some v else get_prop rest key
  end.

(** [o[key] ?? 0] *)
Definition prop_or_zero (o : EmotionVector) (key : string) : R :=
  default 0%R (get_prop o key).

(** NEUTRAL_VECTOR: the labels are distinct, so the [reduce] adds one
    entry per label, in order *)
Definition NEUTRAL_VECTOR : EmotionVector :=
  map (fun label => (label, if String.eqb label "neutral" then 1%R else 0%R))
    EMOTION_LABELS.

Definition EMA_ALPHA : R := (2 / 10)%R.
Definition NOISE_GATE_THRESHOLD : R := (1 / 100)%R.
Definition VOICE_HOLD_MS : Z := 800.
Definition TARGET_SAMPLE_RATE : Z := 16000.
Definition INFERENCE_WINDOW_SAMPLES : Z := 2376.
Definition HOP_DURATION_SECONDS : Q := 1 # 2.
Definition HOP_SIZE_SAMPLES : Z :=
  Z.min (INFERENCE_WINDOW_SAMPLES - 1)
    (Z.max 1 (Qfloor (inject_Z TARGET_SAMPLE_RATE * HOP_DURATION_SECONDS))).

(** ** EmaSmoother (the same class in utils/inference.js and in
    workers/inference.js) *)

Module EmaSmoother.

Record t : Type := mk
  { alpha : R;
    state : option EmotionVector }.

Definition constructor (alpha : R) : t := mk alpha None.

(** update(values): the returned copy of the new state, and the smoother *)
Definition update (sm : t) (values : EmotionVector) : EmotionVector * t :=
  match state sm with
  | None => (values, mk (alpha sm) (Some values))
  | Some prev_state =>
      let smoothed :=
        map (fun label =>
               let next := prop_or_zero values label in
               let prev := prop_or_zero prev_state label in
               (label, (alpha sm * next + (1 - alpha sm) * prev)%R))
          EMOTION_LABELS in
      (smoothed, mk (alpha sm) (Some smoothed))
  end.

Definition reset (sm : t) : t := mk (alpha sm) None.

Definition getState (sm : t) : option EmotionVector := state sm.

End EmaSmoother.

(** ** softmax, getDominant (the same functions in both files) *)

(** Math.max(...logits).  On an empty array JavaScript answers -Infinity;
    [softmax] then maps over no element and never uses the value. *)
Definition Math_max (logits : list R) : R :=
  match logits with
  | [] => 0%R
  | x :: rest => fold_left Rmax rest x
  end.

Definition sum_list (xs : list R) : R := fold_left Rplus xs 0%R.

Definition softmax (logits : list R) : list R :=
  let maxLogit := Math_max logits in
  let expScores := map (fun x => exp (x - maxLogit)) logits in
  let sumExp := sum_list expScores in
  map (fun x => (x / sumExp)%R) expScores.

(** getDominant(emotions): Object.entries in insertion order *)
Definition getDominant (emotions : EmotionVector) : string * R :=
  fold_left
    (fun '(dominant, confidence) '(label, value) =>
       if Rlt_dec confidence value then (label, value)
       else (dominant, confidence))
    emotions ("neutral"%string, 0%R).

(** the [forEach] that turns the probabilities into an object *)
Definition probabilitiesToMap (probabilities : list R) : EmotionVector :=
  imap (fun index label => (label, default 0%R (probabilities !! index)))
    EMOTION_LABELS.

(** ** src/utils/audio.js on real-valued samples *)

Definition calculateRMSInRange (samples : list R) (start end_ : Z) : R :=
  let clampedStart := Z.max 0 start in
  let clampedEnd := Z.min (Z.of_nat (length samples)) end_ in
  let length := clampedEnd - clampedStart in
  if length <=? 0 then 0%R
  else
    let sumSquares :=
      fold_left (fun acc value => (acc + value * value)%R)
        (take (Z.to_nat length) (drop (Z.to_nat clampedStart) samples)) 0%R in
    sqrt (sumSquares / IZR length).

Definition calculateRMS (samples : list R) : R :=
  calculateRMSInRange samples 0 (Z.of_nat (length samples)).

Definition normalizeAudio (samples : list R) : list R :=
  let maxAbs :=
    fold_left (fun maxAbs x =>
                 let value := Rabs x in
                 if Rlt_dec maxAbs value then value else maxAbs)
      samples 0%R in
  if Req_dec_T maxAbs 0 then samples
  else
    let inv := (1 / maxAbs)%R in
    map (fun x => (x * inv)%R) samples.

Definition standardizeAudio (samples : list R) : list R :=
  match samples with
  | [] => []
  | _ =>
      let n := INR (length samples) in
      let mean := (sum_list samples / n)%R in
      let variance :=
        (fold_left (fun acc x =>
                      let centered := (x - mean)%R in
                      (acc + centered * centered)%R) samples 0 / n)%R in
      let denom := sqrt (variance + 1 / 10000000) in
      map (fun x => ((x - mean) / denom)%R) samples
  end.

(** ** Prediction results *)

Record PredictionResult : Type := mkPrediction
  { emotions : EmotionVector;
    rawEmotions : EmotionVector;
    dominant : string;
    confidence : R;
    inferenceTime : R;
    timestamp : Z;
    isSilence : bool }.

(** buildSilenceResult(timestamp) of utils/inference.js and
    buildSilencePayload(timestamp) of workers/inference.js (the same
    body), on the module's [probabilitySmoother] and
    [lastVoicedTimestamp] *)
Definition buildSilenceResult (sm : EmaSmoother.t) (lastVoicedTimestamp : Z)
    (timestamp : Z) : PredictionResult * EmaSmoother.t :=
  let holdActive :=
    (timestamp - lastVoicedTimestamp <? VOICE_HOLD_MS)
    && (lastVoicedTimestamp >? 0) in
  let '(baselineState, sm') :=
    if holdActive
    then (default NEUTRAL_VECTOR (EmaSmoother.getState sm), sm)
    else EmaSmoother.update sm NEUTRAL_VECTOR in
  let '(dominant, confidence) := getDominant baselineState in
  (mkPrediction baselineState baselineState dominant confidence 0%R
     timestamp true,
   sm').

Definition buildSilencePayload := buildSilenceResult.

(** consecutive silence hops of the inference loop: [buildSilenceResult]
    at each timestamp in turn, each on the smoother the hop before it left,
    with no voiced hop in between (so [lastVoicedTimestamp] stays) *)
Fixpoint silence_hops (sm : EmaSmoother.t) (lastVoicedTimestamp : Z)
    (timestamps : list Z) : list PredictionResult * EmaSmoother.t :=
  match timestamps with
  | [] => ([], sm)
  | timestamp :: rest =>
      let '(result, sm1) :=
        buildSilenceResult sm lastVoicedTimestamp timestamp in
      let '(results, sm2) := silence_hops sm1 lastVoicedTimestamp rest in
      (result :: results, sm2)
  end.

(** how far a vector is from the neutral one: the sum over the labels
    of the absolute differences *)
Definition distance_to_neutral (v : EmotionVector) : R :=
  sum_list
    (map (fun label =>
            Rabs (prop_or_zero v label - prop_or_zero NEUTRAL_VECTOR label))
       EMOTION_LABELS).

(** a probability distribution over the eight labels *)
Definition is_distribution (v : EmotionVector) : Prop :=
  map fst v = EMOTION_LABELS /\
  (forall label, In label EMOTION_LABELS ->
     (0 <= prop_or_zero v label <= 1)%R) /\
  sum_list (map (prop_or_zero v) EMOTION_LABELS) = 1%R.

(** a smoother as the program builds and keeps it: a weight in [0, 1]
    and either no state or a distribution *)
Definition smoother_ok (sm : EmaSmoother.t) : Prop :=
  (0 <= EmaSmoother.alpha sm <= 1)%R /\
  match EmaSmoother.state sm with
  | None => True
  | Some v => is_distribution v
  end.

(** The loaded ONNX session.  What [await session.run(feeds)] followed
    by the read of the output tensor does is decided outside the program:
    it resolves with the logits, or something throws. *)
Inductive Session : Type := LoadedSession.

Inductive run_outcome : Type :=
| Resolved (logits : list R)
| Rejected (message : string).

(** the part of both [runInference] functions that follows a resolved
    [session.run]: softmax, smoothing, dominant label *)
Definition finish_inference (sm : EmaSmoother.t) (logits : list R)
    (inferenceTime : R) (timestamp : Z) : PredictionResult * EmaSmoother.t :=
  let probabilities := softmax logits in
  let rawEmotions := probabilitiesToMap probabilities in
  let '(emotions, sm') := EmaSmoother.update sm rawEmotions in
  let '(dominant, confidence) := getDominant emotions in
  (mkPrediction emotions rawEmotions dominant confidence inferenceTime
     timestamp false,
   sm').

(** ** src/workers/inference.js *)

Module Worker.

(** what the worker posts to the main thread *)
Inductive posted_message : Type :=
| MsgModelLoaded
| MsgBufferInitialized
| MsgStarted
| MsgStopped
| MsgError (error : string)
| MsgPrediction (payload : PredictionResult).

(** The module-level variables of the worker, and [posted], the messages
    it has sent so far, oldest first. *)
Record t : Type := mk
  { session : option Session;
    isRunning : bool;
    sharedBuffer : option view;
    controlBuffer : option view;
    dataBuffer : option view;
    capacity : Z;
    lastVoicedTimestamp : Z;
    probabilitySmoother : EmaSmoother.t;
    posted : list posted_message }.

(** the variables of the worker when its script has run ([session] is
    null then), or with a model in place *)
Definition initial (session : option Session) : t :=
  mk session false None None None 0 0 (EmaSmoother.constructor EMA_ALPHA) [].

Definition postMessage (w : t) (m : posted_message) : t :=
  mk (session w) (isRunning w) (sharedBuffer w) (controlBuffer w)
     (dataBuffer w) (capacity w) (lastVoicedTimestamp w)
     (probabilitySmoother w) (posted w ++ [m]).

Definition set_session (w : t) (v : option Session) : t :=
  mk v (isRunning w) (sharedBuffer w) (controlBuffer w)
     (dataBuffer w) (capacity w) (lastVoicedTimestamp w)
     (probabilitySmoother w) (posted w).

Definition set_isRunning (w : t) (v : bool) : t :=
  mk (session w) v (sharedBuffer w) (controlBuffer w)
     (dataBuffer w) (capacity w) (lastVoicedTimestamp w)
     (probabilitySmoother w) (posted w).

Definition set_lastVoicedTimestamp (w : t) (v : Z) : t :=
  mk (session w) (isRunning w) (sharedBuffer w) (controlBuffer w)
     (dataBuffer w) (capacity w) v (probabilitySmoother w) (posted w).

Definition set_probabilitySmoother (w : t) (sm : EmaSmoother.t) : t :=
  mk (session w) (isRunning w) (sharedBuffer w) (controlBuffer w)
     (dataBuffer w) (capacity w) (lastVoicedTimestamp w) sm (posted w).

(** initializeBuffer(buffer, bufferCapacity) *)
Definition initializeBuffer (w : t) (bufferCapacity : Z) : t :=
  postMessage
    (mk (session w) (isRunning w) (Some SharedView) (Some SharedView)
        (Some SharedView) bufferCapacity (lastVoicedTimestamp w)
        (probabilitySmoother w) (posted w))
    MsgBufferInitialized.

Section WithNaN.
(** the sample a Float32Array cell holds after [undefined] was stored
    into it *)
Variable NaN : R.

(** readFromBuffer(destination): the count, the destination afterwards,
    the shared memory *)
Definition readFromBuffer (w : t) (b : SharedBuffer R) (destination : list R)
    : Z * list R * SharedBuffer R :=
  match controlBuffer w, dataBuffer w with
  | Some _, Some _ =>
      let writePtr := writePtr b in
      let readPtr := readPtr b in
      let available :=
        if writePtr >=? readPtr then writePtr - readPtr
        else capacity w - readPtr + writePtr in
      let toRead := Z.min (Z.of_nat (length destination)) available in
      if toRead =? 0 then (0, destination, b)
      else
        let '(dest, readIndex) :=
          read_loop NaN (capacity w) (sharedData b) (Z.to_nat toRead) 0
            readPtr destination in
        (toRead, dest, store_readPtr b readIndex)
  | _, _ => (0, destination, b)
  end.

(** getAvailableSamples() *)
Definition getAvailableSamples (w : t) (b : SharedBuffer R) : Z :=
  match controlBuffer w with
  | Some _ =>
      let writePtr := writePtr b in
      let readPtr := readPtr b in
      if writePtr >=? readPtr then writePtr - readPtr
      else capacity w - readPtr + writePtr
  | None => 0
  end.

(** A suspended [inferenceLoop]: at [await runInference(windowData)]
    with [session.run] in flight, or at [await sleep(100)]; [sampleBuffer]
    is the loop's local accumulation buffer. *)
Inductive task : Type :=
| AwaitRun (sampleBuffer : list R)
| AwaitSleep (sampleBuffer : list R).

(** the first half of the loop body: move what the ring buffer holds to
    [sampleBuffer], bounded at twice the window *)
Definition drain (w : t) (b : SharedBuffer R) (sampleBuffer : list R)
    : list R * SharedBuffer R :=
  let available := getAvailableSamples w b in
  if available >? 0 then
    let tempBuffer := replicate (Z.to_nat available) 0%R in
    let '(read, tempBuffer, b) := readFromBuffer w b tempBuffer in
    if read >? 0 then
      let sampleBuffer := sampleBuffer ++ take (Z.to_nat read) tempBuffer in
      (if Z.of_nat (length sampleBuffer) >? INFERENCE_WINDOW_SAMPLES * 2
       then slice_from sampleBuffer (- INFERENCE_WINDOW_SAMPLES * 2)
       else sampleBuffer,
       b)
    else (sampleBuffer, b)
  else (sampleBuffer, b).

(** [sampleBuffer.slice(Math.min(HOP_SIZE_SAMPLES, sampleBuffer.length))] *)
Definition advance (sampleBuffer : list R) : list R :=
  slice_from sampleBuffer
    (Z.min HOP_SIZE_SAMPLES (Z.of_nat (length sampleBuffer))).

(** [inferenceLoop] from the test of its [while] to the next [await] or
    to its end ([None] as the task).  A silent window ends in [continue],
    which is one more turn of this function.  [now] is what Date.now()
    answers during this run.  When [session] is null, [runInference]
    returns null without suspending for longer than a microtask, and the
    loop goes on to its [sleep]. *)
Fixpoint loop_run (fuel : nat) (now : Z) (w : t) (b : SharedBuffer R)
    (sampleBuffer : list R) : option (t * SharedBuffer R * option task) :=
  match fuel with
  | O => None
  | S fuel' =>
      if negb (isRunning w) then Some (w, b, None)
      else
        let '(sampleBuffer, b) := drain w b sampleBuffer in
        if Z.of_nat (length sampleBuffer) >=? INFERENCE_WINDOW_SAMPLES then
          let windowData :=
            slice_from sampleBuffer (- INFERENCE_WINDOW_SAMPLES) in
          let rms := calculateRMS windowData in
          if Rlt_dec rms NOISE_GATE_THRESHOLD then
            let '(payload, sm) :=
              buildSilencePayload (probabilitySmoother w)
                (lastVoicedTimestamp w) now in
            let w := postMessage (set_probabilitySmoother w sm)
                       (MsgPrediction payload) in
            loop_run fuel' now w b (advance sampleBuffer)
          else
            let w := set_lastVoicedTimestamp w now in
            match session w with
            | None => Some (w, b, Some (AwaitSleep sampleBuffer))
            | Some _ => Some (w, b, Some (AwaitRun sampleBuffer))
            end
        else Some (w, b, Some (AwaitSleep sampleBuffer))
  end.

(** turns of the loop that a run can take: every [continue] follows an
    advance of the buffer by at least one sample *)
Definition loop_fuel (w : t) (b : SharedBuffer R) (sampleBuffer : list R)
    : nat :=
  S (S (length sampleBuffer + Z.to_nat (getAvailableSamples w b))).

(** The loop resumed when [session.run] has settled: the rest of
    [runInference] and of the loop body, up to [await sleep(100)].
    [inferenceTime] is the difference of the two performance.now(). *)
Definition resume_run (outcome : run_outcome) (inferenceTime : R) (now : Z)
    (w : t) (sampleBuffer : list R) : t * task :=
  match outcome with
  | Rejected message =>
      (postMessage w (MsgError ("Inference error: " +:+ message)),
       AwaitSleep sampleBuffer)
  | Resolved logits =>
      let '(result, sm) :=
        finish_inference (probabilitySmoother w) logits inferenceTime now in
      (postMessage (set_probabilitySmoother w sm) (MsgPrediction result),
       AwaitSleep (advance sampleBuffer))
  end.

(** how [ort.InferenceSession.create] settles *)
Inductive load_outcome : Type :=
| Loaded
| LoadFailed (message : string).

(** The [init] handler resumed when the model load has settled: the
    rest of [initializeModel], then [initializeBuffer] when the load
    succeeded and the message carried a buffer ([sharedBuffer] is the
    capacity that came with it). *)
Definition init_resume (outcome : load_outcome) (sharedBuffer : option Z)
    (w : t) : t :=
  match outcome with
  | Loaded =>
      let w := postMessage (set_session w (Some LoadedSession))
                 MsgModelLoaded in
      match sharedBuffer with
      | Some bufferCapacity => initializeBuffer w bufferCapacity
      | None => w
      end
  | LoadFailed message =>
      postMessage w (MsgError ("Failed to load model: " +:+ message))
  end.

(** messages from the main thread; [init] carries the model path and,
    when the main thread sends it along, the ring buffer with its
    capacity *)
Inductive message : Type :=
| Init (sharedBuffer : option Z)
| InitBuffer (capacity : Z)
| Start
| Stop
| Reset
| Other (type : string).

(** self.onmessage: the worker, the shared memory, and the loop that a
    [start] has launched, suspended at its first [await].  The [init]
    handler suspends at the model load before it has changed anything;
    [init_resume] is the rest of it. *)
Definition onmessage (now : Z) (m : message) (w : t) (b : SharedBuffer R)
    : option (t * SharedBuffer R * option task) :=
  match m with
  | Init _ => Some (w, b, None)
  | InitBuffer cap => Some (initializeBuffer w cap, b, None)
  | Start =>
      match session w, sharedBuffer w with
      | Some _, Some _ =>
          let w := set_isRunning w true in
          let w := set_probabilitySmoother w
                     (EmaSmoother.reset (probabilitySmoother w)) in
          let w := set_lastVoicedTimestamp w 0 in
          let w := postMessage w MsgStarted in
          loop_run (loop_fuel w b []) now w b []
      | _, _ =>
          Some (postMessage w
                  (MsgError "Cannot start: model or buffer not initialized"),
                b, None)
      end
  | Stop =>
      let w := set_isRunning w false in
      let w := set_probabilitySmoother w
                 (EmaSmoother.reset (probabilitySmoother w)) in
      let w := set_lastVoicedTimestamp w 0 in
      Some (postMessage w MsgStopped, b, None)
  | Reset =>
      let w := set_probabilitySmoother w
                 (EmaSmoother.reset (probabilitySmoother w)) in
      Some (set_lastVoicedTimestamp w 0, b, None)
  | Other type =>
      Some (postMessage w (MsgError ("Unknown message type: " +:+ type)),
            b, None)
  end.

(** The worker with the shared memory, its suspended loops, and the
    [init] handlers that wait for a model load, each with the capacity of
    the buffer its message carried. *)
Record world : Type := mkLoadingWorld
  { worker : t;
    shared : SharedBuffer R;
    loops : list task;
    loading : list (option Z) }.

(** a world in which no model load is pending *)
Definition mkWorld (w : t) (b : SharedBuffer R) (l : list task) : world :=
  mkLoadingWorld w b l [].

(** What the event loop of the worker runs next, and the producer, which
    writes from the audio thread. *)
Inductive event : Type :=
| Message (m : message) (now : Z)
| ModelSettled (i : nat) (outcome : load_outcome)
| RunSettled (i : nat) (outcome : run_outcome) (inferenceTime : R) (now : Z)
| SleepElapsed (i : nat) (now : Z)
| Produce (samples : list R).

Definition spawn (l : list task) (t : option task) : list task :=
  match t with
  | Some t => l ++ [t]
  | None => l
  end.

(** the model load that a message starts *)
Definition load_of (m : message) : list (option Z) :=
  match m with
  | Init sharedBuffer => [sharedBuffer]
  | _ => []
  end.

Definition step (s : world) (e : event) : option world :=
  match e with
  | Message m now =>
      match onmessage now m (worker s) (shared s) with
      | Some (w, b, t) =>
          Some (mkLoadingWorld w b (spawn (loops s) t)
                  (loading s ++ load_of m))
      | None => None
      end
  | ModelSettled i outcome =>
      match loading s !! i with
      | Some sharedBuffer =>
          Some (mkLoadingWorld (init_resume outcome sharedBuffer (worker s))
                  (shared s) (loops s) (delete i (loading s)))
      | None => None
      end
  | RunSettled i outcome inferenceTime now =>
      match loops s !! i with
      | Some (AwaitRun sampleBuffer) =>
          let '(w, t) :=
            resume_run outcome inferenceTime now (worker s) sampleBuffer in
          Some (mkLoadingWorld w (shared s) (<[i := t]> (loops s))
                  (loading s))
      | _ => None
      end
  | SleepElapsed i now =>
      match loops s !! i with
      | Some (AwaitSleep sampleBuffer) =>
          match loop_run (loop_fuel (worker s) (shared s) sampleBuffer) now
                  (worker s) (shared s) sampleBuffer with
          | Some (w, b, Some t) =>
              Some (mkLoadingWorld w b (<[i := t]> (loops s)) (loading s))
          | Some (w, b, None) =>
              Some (mkLoadingWorld w b (delete i (loops s)) (loading s))
          | None => None
          end
      | _ => None
      end
  | Produce samples =>
      Some (mkLoadingWorld (worker s)
              (snd (RingBuffer.write (capacity (worker s)) (shared s) samples))
              (loops s) (loading s))
  end.

Fixpoint run (s : world) (es : list event) : option world :=
  match es with
  | [] => Some s
  | e :: es' =>
      match step s e with
      | Some s' => run s' es'
      | None => None
      end
  end.

End WithNaN.

(** the accumulation buffer a suspended loop holds *)
Definition task_buffer (t : task) : list R :=
  match t with
  | AwaitRun sampleBuffer => sampleBuffer
  | AwaitSleep sampleBuffer => sampleBuffer
  end.

Definition is_sleeping (t : task) : bool :=
  match t with
  | AwaitSleep _ => true
  | AwaitRun _ => false
  end.

Definition is_start (e : event) : bool :=
  match e with
  | Message Start _ => true
  | _ => false
  end.

Definition is_initBuffer (e : event) : bool :=
  match e with
  | Message (InitBuffer _) _ => true
  | _ => false
  end.

(** a model load that succeeds *)
Definition is_loaded (e : event) : bool :=
  match e with
  | ModelSettled _ Loaded => true
  | _ => false
  end.

(** an [init] message that carries the ring buffer *)
Definition is_init_with_buffer (e : event) : bool :=
  match e with
  | Message (Init (Some _)) _ => true
  | _ => false
  end.

(** the predictions among the posted messages *)
Definition predictions (ms : list posted_message) : list PredictionResult :=
  omap (fun m => match m with MsgPrediction p => Some p | _ => None end) ms.

(** what a run of the loop may change in the worker: the voiced
    timestamp, the smoother, and the posted messages, to which it adds
    silence predictions only *)
Definition silent_extension (w w' : t) : Prop :=
  session w' = session w /\
  isRunning w' = isRunning w /\
  sharedBuffer w' = sharedBuffer w /\
  controlBuffer w' = controlBuffer w /\
  dataBuffer w' = dataBuffer w /\
  capacity w' = capacity w /\
  exists ps,
    posted w' = posted w ++ map MsgPrediction ps /\
    Forall (fun p => isSilence p = true) ps.

End Worker.

(** ** src/utils/inference.js: the main-thread inference service *)

Module InferenceService.

(** the module-level state *)
Record t : Type := mk
  { session : option Session;
    isInitialized : bool;
    lastVoicedTimestamp : Z;
    probabilitySmoother : EmaSmoother.t }.

Definition initial : t :=
  mk None false 0 (EmaSmoother.constructor EMA_ALPHA).

Definition isInferenceReady (s : t) : bool :=
  isInitialized s && bool_decide (is_Some (session s)).

Definition getWindowSize : Z := INFERENCE_WINDOW_SAMPLES.
Definition getHopSize : Z := HOP_SIZE_SAMPLES.

(** resetInference() *)
Definition resetInference (s : t) : t :=
  mk (session s) (isInitialized s) 0
     (EmaSmoother.reset (probabilitySmoother s)).

(** the window handed to the model: padded with zeros or cut to its
    last INFERENCE_WINDOW_SAMPLES samples, normalised, standardised *)
Definition prepare (samples : list R) : list R :=
  let samples :=
    if Z.of_nat (length samples) <? INFERENCE_WINDOW_SAMPLES
    then samples ++
         replicate (Z.to_nat INFERENCE_WINDOW_SAMPLES - length samples) 0%R
    else if Z.of_nat (length samples) >? INFERENCE_WINDOW_SAMPLES
    then slice_from samples (- INFERENCE_WINDOW_SAMPLES)
    else samples in
  standardizeAudio (normalizeAudio samples).

(** runInference(audioSamples, sourceSampleRate) at
    [sourceSampleRate = TARGET_SAMPLE_RATE], which is how the store calls
    it (no resampling then).  [now] and [finished] are the two
    Date.now(); [outcome] settles [session.run] when the call gets that
    far; [None] is the [null] result. *)
Definition runInference (outcome : run_outcome) (inferenceTime : R)
    (now finished : Z) (s : t) (audioSamples : list R)
    : option PredictionResult * t :=
  match session s with
  | None => (None, s)
  | Some _ =>
      let rms := calculateRMS audioSamples in
      if Rlt_dec rms NOISE_GATE_THRESHOLD then
        let '(result, sm) :=
          buildSilenceResult (probabilitySmoother s)
            (lastVoicedTimestamp s) now in
        (Some result, mk (session s) (isInitialized s)
                         (lastVoicedTimestamp s) sm)
      else
        let s := mk (session s) (isInitialized s) now
                    (probabilitySmoother s) in
        match outcome with
        | Rejected _ => (None, s)
        | Resolved logits =>
            let '(result, sm) :=
              finish_inference (probabilitySmoother s) logits inferenceTime
                finished in
            (Some result, mk (session s) (isInitialized s)
                             (lastVoicedTimestamp s) sm)
        end
  end.

End InferenceService.

(** ** src/stores/emotionStore.js *)

Module EmotionStore.

(** The fields of the store that the hop cycle uses; [handled] lists the
    results given to [handlePrediction], oldest first (what that function
    does with them is display state). *)
Record t : Type := mk
  { isInferenceRunning : bool;
    audioBuffer : list R;
    handled : list PredictionResult }.

(** addAudioSamples(samples) *)
Definition addAudioSamples (st : t) (samples : list R) : t :=
  if negb (isInferenceRunning st) then st
  else
    let newBuffer := audioBuffer st ++ samples in
    let maxSize := InferenceService.getWindowSize * 4 in
    let newBuffer :=
      if Z.of_nat (length newBuffer) >? maxSize
      then drop (Z.to_nat (Z.of_nat (length newBuffer) - maxSize)) newBuffer
      else newBuffer in
    mk (isInferenceRunning st) newBuffer (handled st).

(** processAudio(), one hop, with nothing else scheduled while it waits
    for [runInference] *)
Definition processAudio (outcome : run_outcome) (inferenceTime : R)
    (now finished : Z) (svc : InferenceService.t) (st : t)
    : InferenceService.t * t :=
  if negb (isInferenceRunning st)
     || negb (InferenceService.isInferenceReady svc)
  then (svc, st)
  else
    let windowSize := InferenceService.getWindowSize in
    let hopSize := InferenceService.getHopSize in
    if Z.of_nat (length (audioBuffer st)) <? windowSize then (svc, st)
    else
      let audioWindow := slice_from (audioBuffer st) (- windowSize) in
      let '(result, svc) :=
        InferenceService.runInference outcome inferenceTime now finished
          svc audioWindow in
      match result with
      | Some result =>
          let newBuffer :=
            slice_from (audioBuffer st)
              (Z.min hopSize (Z.of_nat (length (audioBuffer st)))) in
          (svc, mk (isInferenceRunning st) newBuffer (handled st ++ [result]))
      | None => (svc, st)
      end.

End EmotionStore.

(** ** src/stores/emotionStore.js: the session statistics *)

Module EmotionSession.

(** A JavaScript number that may be NaN ([None]); reading a missing
    property gives [undefined], which arithmetic turns into NaN. *)
Definition number : Type := option R.

(** [o[key]] as a number, on an object whose values are numbers *)
Fixpoint prop_number (o : list (string * number)) (key : string) : number :=
  match o with
  | [] => None
  | (k, v) :: rest => if String.eqb k key then v else prop_number rest key
  end.

(** [o[key] = v]: an existing property keeps its place, a new one is
    added at the end *)
Fixpoint set_prop (o : list (string * number)) (key : string) (v : number)
    : list (string * number) :=
  match o with
  | [] => [(key, v)]
  | (k, old) :: rest =>
      if String.eqb k key then (k, v) :: rest
      else (k, old) :: set_prop rest key v
  end.

Record HistoryEntry : Type := mkEntry
  { entry_timestamp : Z;
    entry_emotions : EmotionVector;
    entry_dominant : string;
    entry_confidence : R;
    entry_isSilence : bool }.

(** what handlePrediction stores in the history for a result *)
Definition history_entry (data : PredictionResult) : HistoryEntry :=
  mkEntry (timestamp data) (emotions data) (dominant data)
    (confidence data) (isSilence data).

(** the fields of the store that handlePrediction and resetSession set,
    and [maxHistoryLength], which nothing changes *)
Record t : Type := mk
  { emotions : EmotionVector;
    rawEmotions : EmotionVector;
    dominantEmotion : string;
    confidence : R;
    inferenceTime : R;
    lastPredictionTime : option Z;
    emotionHistory : list HistoryEntry;
    maxHistoryLength : Z;
    sessionEmotionSummary : list (string * number);
    predictionCount : nat }.

Definition initialEmotions : EmotionVector :=
  map (fun label => (label, 0%R)) EMOTION_LABELS.

(** [{ ...initialEmotions }] as the session summary *)
Definition initialSummary : list (string * number) :=
  map (fun label => (label, Some 0%R)) EMOTION_LABELS.

Definition initialState : t :=
  mk initialEmotions initialEmotions "neutral" 0 0 None [] 60
     initialSummary 0.

(** [(summary[label] * predictionCount + emotions[label]) / newCount] *)
Definition running_mean (previous : number) (predictionCount : nat)
    (value : number) (newCount : nat) : number :=
  match previous, value with
  | Some s, Some e => Some ((s * INR predictionCount + e) / INR newCount)%R
  | _, _ => None
  end.

(** handlePrediction(data) *)
Definition handlePrediction (state : t) (data : PredictionResult) : t :=
  let 'mkPrediction emotions rawEmotions dominant confidence inferenceTime
         timestamp isSilence := data in
  let historyEntry :=
    mkEntry timestamp emotions dominant confidence isSilence in
  let newHistory :=
    slice_from (emotionHistory state ++ [historyEntry])
      (- maxHistoryLength state) in
  let newCount := S (predictionCount state) in
  let newSummary :=
    fold_left
      (fun newSummary label =>
         set_prop newSummary label
           (running_mean (prop_number (sessionEmotionSummary state) label)
              (predictionCount state) (get_prop emotions label) newCount))
      EMOTION_LABELS (sessionEmotionSummary state) in
  mk emotions rawEmotions dominant confidence inferenceTime (Some timestamp)
     newHistory (maxHistoryLength state) newSummary newCount.

(** resetSession(), on these fields (it also calls resetInference and
    empties the audio buffer) *)
Definition resetSession (state : t) : t :=
  mk initialEmotions initialEmotions "neutral" 0 (inferenceTime state)
     (lastPredictionTime state) [] (maxHistoryLength state)
     initialSummary 0.

End EmotionSession.

(** * Theorems *)

(** ** Arithmetic of the cursors *)

Lemma toInt32_small (z : Z) : - 2 ^ 31 <= z < 2 ^ 31 -> toInt32 z = z.
Proof.
  intros Hz. unfold toInt32.
  rewrite Z.mod_small by lia. lia.
Qed.

Lemma mod_wrap (c x : Z) :
  0 < c -> 0 <= x < 2 * c -> x mod c = if x <? c then x else x - c.
Proof.
  intros Hc Hx. destruct (Z.ltb_spec x c) as [Hlt | Hge].
  - apply Z.mod_small; lia.
  - symmetry. apply (Z.mod_unique_pos x c 1); lia.
Qed.

Lemma rem_succ_mod (c w : Z) :
  0 < c -> 0 <= w -> Z.rem (w + 1) c = (w + 1) mod c.
Proof. intros Hc Hw. apply Z.rem_mod_nonneg; lia. Qed.

Module RingBufferFacts.
Import RingBuffer.

Section Facts.
Context {A : Type}.
Variable NaN : A.
Variable capacity : Z.

Abbreviation wf := (wf capacity).
Abbreviation availableRead := (availableRead capacity).
Abbreviation availableWrite := (availableWrite capacity).
Abbreviation contents := (contents NaN capacity).
Abbreviation cells := (cells NaN capacity).
Abbreviation push1 := (push1 capacity).

Lemma contents_cells (b : SharedBuffer A) :
  contents b = cells (sharedData b) (readPtr b) (Z.to_nat (availableRead b)).
Proof. reflexivity. Qed.

Lemma cells_S (data : list A) (r : Z) (n : nat) :
  cells data r (S n) =
  cells data r n ++
  [default NaN (ta_get data ((r + Z.of_nat n) mod capacity))].
Proof. unfold RingBuffer.cells. rewrite seq_S, map_app. reflexivity. Qed.

Lemma cells_cons (data : list A) (r : Z) (n : nat) :
  0 < capacity -> 0 <= r < capacity ->
  cells data r (S n) =
  default NaN (ta_get data r) :: cells data ((r + 1) mod capacity) n.
Proof.
  intros Hc Hr. unfold RingBuffer.cells. cbn [seq map]. f_equal.
  - rewrite Z.add_0_r, Z.mod_small by lia. reflexivity.
  - rewrite <- seq_shift, map_map. apply map_ext. intros j.
    rewrite Zplus_mod_idemp_l. do 3 f_equal. lia.
Qed.

Lemma availableRead_bounds (b : SharedBuffer A) :
  wf b -> 0 <= availableRead b < capacity.
Proof.
  unfold RingBuffer.wf, RingBuffer.availableRead. intros (Hc & Hw & Hr & _).
  destruct (Z.geb_spec (writePtr b) (readPtr b)); lia.
Qed.

Lemma available_sum (b : SharedBuffer A) :
  wf b -> availableRead b + availableWrite b = capacity - 1.
Proof.
  unfold RingBuffer.wf, RingBuffer.availableRead, RingBuffer.availableWrite,
    availableWrite_at.
  intros (Hc & Hw & Hr & _).
  destruct (Z.geb_spec (writePtr b) (readPtr b)),
    (Z.leb_spec (readPtr b) (writePtr b)); lia.
Qed.

Lemma writePtr_as_offset (b : SharedBuffer A) :
  wf b -> (readPtr b + availableRead b) mod capacity = writePtr b.
Proof.
  unfold RingBuffer.wf, RingBuffer.availableRead. intros (Hc & Hw & Hr & _).
  rewrite mod_wrap by (destruct (Z.geb_spec (writePtr b) (readPtr b)); lia).
  destruct (Z.geb_spec (writePtr b) (readPtr b)).
  - destruct (Z.ltb_spec (readPtr b + (writePtr b - readPtr b)) capacity); lia.
  - destruct (Z.ltb_spec (readPtr b + (capacity - readPtr b + writePtr b))
                capacity); lia.
Qed.

(** *** One sample pushed at the write cursor *)

Lemma push1_wf (b : SharedBuffer A) (x : A) :
  wf b -> wf (push1 b x).
Proof.
  unfold RingBuffer.wf, RingBuffer.push1, ta_set. cbn.
  intros (Hc & Hw & Hr & Hl).
  destruct (Z.ltb_spec (writePtr b) 0); [lia|].
  rewrite length_insert. repeat split; try lia.
  all: apply Z.mod_pos_bound; lia.
Qed.

Lemma push1_availableRead (b : SharedBuffer A) (x : A) :
  wf b -> 1 <= availableWrite b ->
  availableRead (push1 b x) = availableRead b + 1.
Proof.
  intros Hwf Hroom. pose proof (available_sum b Hwf) as Hsum.
  revert Hwf Hroom Hsum.
  unfold RingBuffer.wf, RingBuffer.availableRead, RingBuffer.availableWrite,
    availableWrite_at, RingBuffer.push1. cbn.
  intros (Hc & Hw & Hr & _) Hroom Hsum.
  rewrite (mod_wrap capacity (writePtr b + 1)) by lia.
  destruct (Z.ltb_spec (writePtr b + 1) capacity),
    (Z.leb_spec (readPtr b) (writePtr b)),
    (Z.geb_spec (writePtr b) (readPtr b));
  try lia.
  all: match goal with |- context [?a >=? ?c] => destruct (Z.geb_spec a c) end;
    lia.
Qed.

Lemma push1_contents (b : SharedBuffer A) (x : A) :
  wf b -> 1 <= availableWrite b ->
  contents (push1 b x) = contents b ++ [x].
Proof.
  intros Hwf Hroom.
  pose proof (available_sum b Hwf) as Hsum.
  pose proof (availableRead_bounds b Hwf) as Hbd.
  pose proof (writePtr_as_offset b Hwf) as Hoff.
  rewrite !contents_cells, push1_availableRead by assumption.
  replace (Z.to_nat (availableRead b + 1))
    with (S (Z.to_nat (availableRead b))) by lia.
  rewrite cells_S. cbn [RingBuffer.push1 readPtr sharedData].
  destruct Hwf as (Hc & Hw & Hr & Hl).
  f_equal.
  - unfold RingBuffer.cells. apply map_ext_in. intros j Hj%in_seq.
    f_equal. unfold ta_get, ta_set.
    destruct (Z.ltb_spec (writePtr b) 0); [lia|].
    destruct (Z.ltb_spec ((readPtr b + Z.of_nat j) mod capacity) 0);
      [reflexivity|].
    apply list_lookup_insert_ne.
    intros Heq. apply Z2Nat.inj in Heq; try lia.
    rewrite <- Hoff in Heq.
    rewrite !mod_wrap in Heq by lia.
    destruct (Z.ltb_spec (readPtr b + availableRead b) capacity),
      (Z.ltb_spec (readPtr b + Z.of_nat j) capacity); lia.
  - rewrite Z2Nat.id by lia. rewrite Hoff.
    unfold ta_get, ta_set.
    destruct (Z.ltb_spec (writePtr b) 0); [lia|].
    rewrite list_lookup_insert_eq by lia. reflexivity.
Qed.

Lemma push1_availableWrite (b : SharedBuffer A) (x : A) :
  wf b -> 1 <= availableWrite b ->
  availableWrite (push1 b x) = availableWrite b - 1.
Proof.
  intros Hwf Hroom.
  pose proof (available_sum b Hwf).
  pose proof (available_sum _ (push1_wf b x Hwf)).
  pose proof (push1_availableRead b x Hwf Hroom). lia.
Qed.

(** *** The copy loop of [write] is a sequence of single pushes *)

Lemma write_loop_push (xs : list A) (b : SharedBuffer A) :
  wf b ->
  write_loop capacity (sharedData b) (writePtr b) xs =
  (sharedData (foldl push1 b xs), writePtr (foldl push1 b xs)).
Proof.
  revert b. induction xs as [|x xs IH]; intros b Hwf; [reflexivity|].
  cbn [write_loop foldl].
  assert (Hrem : Z.rem (writePtr b + 1) capacity
                 = (writePtr b + 1) mod capacity).
  { destruct Hwf as (Hc & Hw & _). apply rem_succ_mod; lia. }
  rewrite Hrem. apply (IH (push1 b x)). apply push1_wf, Hwf.
Qed.

Lemma pushes_spec (xs : list A) (b : SharedBuffer A) :
  wf b -> Z.of_nat (length xs) <= availableWrite b ->
  let b' := foldl push1 b xs in
  wf b' /\ readPtr b' = readPtr b /\
  availableRead b' = availableRead b + Z.of_nat (length xs) /\
  contents b' = contents b ++ xs.
Proof.
  revert b. induction xs as [|x xs IH]; intros b Hwf Hroom; cbn [foldl].
  - cbn. rewrite app_nil_r. repeat split; try apply Hwf; lia.
  - cbn [length] in Hroom.
    destruct (IH (push1 b x)) as (Hwf' & Hr' & Ha' & Hc').
    + apply push1_wf, Hwf.
    + rewrite push1_availableWrite by (assumption || lia). lia.
    + cbn zeta. repeat split; try apply Hwf'.
      * rewrite Hr'. reflexivity.
      * rewrite Ha', push1_availableRead by (assumption || lia).
        cbn [length]. lia.
      * rewrite Hc', push1_contents by (assumption || lia).
        rewrite <- app_assoc. reflexivity.
Qed.

(** *** [write] *)

Lemma write_spec (b : SharedBuffer A) (samples : list A) :
  wf b ->
  let n := Z.min (Z.of_nat (length samples)) (availableWrite b) in
  exists b',
    write capacity b samples = (n, b') /\
    wf b' /\
    availableRead b' = availableRead b + n /\
    availableWrite b' = availableWrite b - n /\
    contents b' = contents b ++ take (Z.to_nat n) samples.
Proof.
  intros Hwf n.
  pose proof (available_sum b Hwf) as Hsum.
  pose proof (availableRead_bounds b Hwf) as Hbd.
  assert (Hn : 0 <= n) by lia.
  unfold write. fold (availableWrite b). fold n.
  destruct (Z.eqb_spec n 0) as [Hz | Hnz].
  - exists b. rewrite Hz. cbn. rewrite app_nil_r.
    repeat split; try apply Hwf; lia.
  - set (xs := take (Z.to_nat n) samples).
    assert (Hlen : Z.of_nat (length xs) = n).
    { unfold xs. rewrite length_take. lia. }
    rewrite write_loop_push by assumption.
    destruct (pushes_spec xs b Hwf ltac:(lia)) as (Hwf' & Hr' & Ha' & Hc').
    set (b1 := foldl push1 b xs) in *.
    assert (Hb1 : (store_writePtr
                     (mkShared (writePtr b) (readPtr b) (sharedData b1))
                     (writePtr b1)) = b1).
    { unfold store_writePtr. cbn.
      destruct Hwf' as (Hc & Hw & _).
      rewrite toInt32_small by lia. rewrite <- Hr'.
      destruct b1; reflexivity. }
    exists b1. rewrite Hb1. repeat split; try apply Hwf'.
    + rewrite Ha', Hlen. reflexivity.
    + pose proof (available_sum b1 Hwf'). lia.
    + exact Hc'.
Qed.

(** *** The copy loop of [read] *)

Lemma read_loop_spec (data : list A) (n : nat) :
  0 < capacity ->
  forall (i : nat) (r : Z) (dest : list A),
    0 <= r < capacity -> (i + n <= length dest)%nat ->
    read_loop NaN capacity data n i r dest =
    (take i dest ++ cells data r n ++ drop (i + n) dest,
     (r + Z.of_nat n) mod capacity).
Proof.
  intros Hc. induction n as [|n IH]; intros i r dest Hr Hlen.
  - cbn [read_loop]. rewrite Nat.add_0_r. cbn [RingBuffer.cells seq map app].
    rewrite take_drop, Z.add_0_r, Z.mod_small by lia. reflexivity.
  - cbn [read_loop]. rewrite rem_succ_mod by lia.
    rewrite IH.
    + unfold ta_copy. f_equal.
      * rewrite cells_cons by lia.
        rewrite take_insert_lt by lia.
        rewrite drop_insert_lt by lia.
        replace (S i + n)%nat with (i + S n)%nat by lia.
        assert (Hi : (i < length dest)%nat) by lia.
        rewrite (take_S_r dest i (default NaN (dest !! i))).
        2:{ destruct (lookup_lt_is_Some_2 dest i Hi) as [y Hy].
            rewrite Hy. reflexivity. }
        rewrite insert_app_r_alt by (rewrite length_take; lia).
        rewrite length_take.
        replace (i - i `min` length dest)%nat with 0%nat by lia.
        cbn [list_insert insert]. rewrite <- app_assoc. reflexivity.
      * rewrite Zplus_mod_idemp_l. f_equal. lia.
    + apply Z.mod_pos_bound; lia.
    + unfold ta_copy. rewrite length_insert. lia.
Qed.

Lemma cells_drop (data : list A) (k n : nat) :
  0 < capacity ->
  forall r : Z, 0 <= r < capacity ->
    drop k (cells data r (k + n)) =
    cells data ((r + Z.of_nat k) mod capacity) n.
Proof.
  intros Hc. induction k as [|k IH]; intros r Hr.
  - cbn [drop Nat.add]. rewrite Z.add_0_r, Z.mod_small by lia. reflexivity.
  - cbn [Nat.add]. rewrite cells_cons by lia. cbn [drop].
    rewrite IH by (apply Z.mod_pos_bound; lia).
    rewrite Zplus_mod_idemp_l. do 2 f_equal. lia.
Qed.

Lemma cells_take (data : list A) (r : Z) (k n : nat) :
  take k (cells data r (k + n)) = cells data r k.
Proof.
  unfold RingBuffer.cells. rewrite firstn_map, take_seq.
  f_equal. f_equal. lia.
Qed.

(** *** [read] *)

Lemma read_spec (b : SharedBuffer A) (destination : list A) :
  wf b ->
  let n := Z.min (Z.of_nat (length destination)) (availableRead b) in
  exists b',
    read NaN capacity b destination =
      (n, take (Z.to_nat n) (contents b) ++ drop (Z.to_nat n) destination, b') /\
    wf b' /\
    writePtr b' = writePtr b /\
    availableRead b' = availableRead b - n /\
    contents b' = drop (Z.to_nat n) (contents b).
Proof.
  intros Hwf n.
  pose proof (availableRead_bounds b Hwf) as Hbd.
  pose proof (writePtr_as_offset b Hwf) as Hoff.
  assert (Hn : 0 <= n <= availableRead b) by lia.
  unfold read. fold n.
  destruct (Z.eqb_spec n 0) as [Hz | Hnz].
  - exists b. rewrite Hz. cbn [Z.to_nat take drop app].
    repeat split; try apply Hwf; lia.
  - destruct Hwf as (Hc & Hw & Hr & Hl).
    rewrite read_loop_spec by lia.
    cbn [firstn app Nat.add].
    set (r' := (readPtr b + Z.of_nat (Z.to_nat n)) mod capacity).
    assert (Hr' : 0 <= r' < capacity) by (apply Z.mod_pos_bound; lia).
    assert (Havail : RingBuffer.availableRead capacity (store_readPtr b r')
                     = availableRead b - n).
    { unfold store_readPtr, RingBuffer.availableRead. cbn.
      rewrite toInt32_small by lia.
      unfold r'. rewrite Z2Nat.id by lia.
      revert Hn. unfold RingBuffer.availableRead.
      rewrite mod_wrap by
        (destruct (Z.geb_spec (writePtr b) (readPtr b)); lia).
      destruct (Z.geb_spec (writePtr b) (readPtr b)),
        (Z.ltb_spec (readPtr b + n) capacity); intros Hn;
      match goal with |- context [?a >=? ?c] => destruct (Z.geb_spec a c) end;
      lia. }
    assert (Hwf' : wf (store_readPtr b r')).
    { unfold RingBuffer.wf, store_readPtr. cbn.
      rewrite toInt32_small by lia. lia. }
    exists (store_readPtr b r').
    split; [|split; [exact Hwf'|split; [reflexivity|split; [exact Havail|]]]].
    + rewrite take_0, app_nil_l. do 3 f_equal.
      rewrite contents_cells.
      replace (Z.to_nat (availableRead b))
        with (Z.to_nat n + Z.to_nat (availableRead b - n))%nat by lia.
      rewrite cells_take. reflexivity.
    + rewrite !contents_cells, Havail.
      replace (Z.to_nat (availableRead b))
        with (Z.to_nat n + Z.to_nat (availableRead b - n))%nat by lia.
      rewrite cells_drop by lia.
      unfold store_readPtr. cbn [readPtr sharedData].
      rewrite toInt32_small by lia. reflexivity.
Qed.

Lemma contents_empty (b : SharedBuffer A) :
  availableRead b = 0 -> contents b = [].
Proof. intros H. rewrite contents_cells, H. reflexivity. Qed.

Lemma contents_length (b : SharedBuffer A) :
  length (contents b) = Z.to_nat (availableRead b).
Proof.
  rewrite contents_cells. unfold RingBuffer.cells.
  rewrite length_map, length_seq. reflexivity.
Qed.

(** *** Sequences of operations *)

Lemma writer_reset_wf (b : SharedBuffer A) : wf b -> wf (writer_reset b).
Proof.
  unfold RingBuffer.wf, writer_reset, store_readPtr, store_writePtr. cbn.
  rewrite toInt32_small by lia. lia.
Qed.

Lemma reader_reset_wf (b : SharedBuffer A) : wf b -> wf (reader_reset b).
Proof.
  unfold RingBuffer.wf, reader_reset, store_readPtr. cbn.
  intros (Hc & Hw & Hr & Hl). rewrite toInt32_small by lia. lia.
Qed.

Lemma run_op_wf (b : SharedBuffer A) (o : op) :
  wf b -> wf (run_op NaN capacity b o).
Proof.
  intros Hwf. destruct o as [samples | destination | destination | |];
    cbn [run_op].
  - destruct (write_spec b samples Hwf) as (b' & -> & Hwf' & _). exact Hwf'.
  - destruct (read_spec b destination Hwf) as (b' & -> & Hwf' & _). exact Hwf'.
  - exact Hwf.
  - apply writer_reset_wf, Hwf.
  - apply reader_reset_wf, Hwf.
Qed.

Lemma run_ops_wf (os : list op) (b : SharedBuffer A) :
  wf b -> wf (run_ops NaN capacity b os).
Proof.
  unfold run_ops. revert b. induction os as [|o os IH]; intros b Hwf.
  - exact Hwf.
  - cbn [foldl]. apply IH, run_op_wf, Hwf.
Qed.

Lemma createRingBuffer_wf (zero : A) :
  0 < capacity < 2 ^ 31 -> wf (createRingBuffer zero capacity).
Proof.
  intros Hc. unfold RingBuffer.wf, createRingBuffer. cbn.
  rewrite length_replicate. lia.
Qed.

Lemma push_chunks_spec (chunks : list (list A)) (b : SharedBuffer A) :
  wf b ->
  let total := Z.of_nat (length (concat chunks)) in
  let n := Z.min total (availableWrite b) in
  exists b',
    push_chunks capacity b chunks = (n, total - n, b') /\
    wf b' /\ availableRead b' = availableRead b + n.
Proof.
  revert b. induction chunks as [|samples rest IH]; intros b Hwf.
  - pose proof (available_sum b Hwf). pose proof (availableRead_bounds b Hwf).
    cbn. exists b. rewrite Z.min_l by lia.
    repeat split; try apply Hwf; lia.
  - cbn [push_chunks concat]. rewrite length_app, Nat2Z.inj_add.
    destruct (write_spec b samples Hwf) as (b1 & -> & Hwf1 & Hr1 & Hw1 & _).
    destruct (IH b1 Hwf1) as (b2 & -> & Hwf2 & Hr2).
    pose proof (available_sum b Hwf). pose proof (availableRead_bounds b Hwf).
    exists b2. split; [|split; [exact Hwf2|]].
    + cbv beta iota. f_equal. f_equal; lia.
    + lia.
Qed.

End Facts.
End RingBufferFacts.

(** ** The ring buffer claims *)

Section RingBufferClaims.
Import RingBuffer RingBufferFacts.
Context {A : Type}.
Variable NaN : A.
Variable capacity : Z.

(** C1, as amended.  On a buffer in a state that the code can reach,
    writing [k] samples with [k <= availableWrite()] returns [k] and
    raises [availableRead()] by exactly [k]; a following read into a
    destination of length [k] returns [k], restores [availableRead()] to
    its prior value, and delivers the [k] oldest unread samples in the
    order they were written: the first [k] of the samples that were
    unread before the write followed by the written ones.  When nothing
    was unread before the write these are the written samples
    themselves. *)
Theorem write_read_fifo_accounting
    (b : SharedBuffer A) (samples destination : list A) :
  wf capacity b ->
  Z.of_nat (length samples) <= availableWrite capacity b ->
  length destination = length samples ->
  let k := Z.of_nat (length samples) in
  let delivered := take (length samples) (contents NaN capacity b ++ samples) in
  exists b1 b2,
    write capacity b samples = (k, b1) /\
    availableRead capacity b1 = availableRead capacity b + k /\
    read NaN capacity b1 destination = (k, delivered, b2) /\
    availableRead capacity b2 = availableRead capacity b /\
    (availableRead capacity b = 0 -> delivered = samples).
Proof.
  intros Hwf Hroom Hdest k delivered.
  pose proof (availableRead_bounds capacity b Hwf) as Hbd.
  destruct (write_spec NaN capacity b samples Hwf)
    as (b1 & Hw & Hwf1 & Hr1 & _ & Hc1).
  rewrite Z.min_l in Hw, Hr1, Hc1 by lia.
  rewrite Nat2Z.id, firstn_all in Hc1.
  destruct (read_spec NaN capacity b1 destination Hwf1)
    as (b2 & Hrd & Hwf2 & _ & Hr2 & _).
  rewrite Hdest, Hr1 in Hrd, Hr2. fold k in Hrd, Hr2, Hw, Hr1.
  rewrite Z.min_l in Hrd, Hr2 by lia.
  exists b1, b2. split; [exact Hw|split; [exact Hr1|split; [|split]]].
  - rewrite Hrd. unfold k. rewrite Nat2Z.id, Hc1.
    rewrite <- Hdest, drop_all, app_nil_r, Hdest. reflexivity.
  - lia.
  - intros Hempty. unfold delivered.
    rewrite (contents_empty NaN capacity b Hempty). cbn [app].
    apply firstn_all.
Qed.

(** C2.  On a buffer of capacity C, after every sequence of write, read,
    peek and reset calls [availableWrite()] is at most C - 1; and when
    the buffer is empty at that point, pushing chunks whose total length
    reaches C - 1, without reading, leaves [availableRead()] at C - 1
    (so the buffer is full), with a total dropped count
    (requested minus written) of total pushed - (C - 1). *)
Theorem one_slot_always_reserved
    (zero : A) (ops : list (op (A:=A))) (chunks : list (list A)) :
  0 < capacity < 2 ^ 31 ->
  let b := run_ops NaN capacity (createRingBuffer zero capacity) ops in
  let pushed := Z.of_nat (length (concat chunks)) in
  availableWrite capacity b <= capacity - 1 /\
  (availableRead capacity b = 0 -> capacity - 1 <= pushed ->
   exists b',
     push_chunks capacity b chunks
       = (capacity - 1, pushed - (capacity - 1), b') /\
     availableRead capacity b' = capacity - 1 /\
     availableWrite capacity b' = 0 /\
     isFull capacity b' = true).
Proof.
  intros Hc b pushed.
  assert (Hwf : wf capacity b).
  { apply run_ops_wf, createRingBuffer_wf, Hc. }
  pose proof (available_sum capacity b Hwf) as Hsum.
  pose proof (availableRead_bounds capacity b Hwf) as Hbd.
  split; [lia|]. intros Hempty Hfill.
  destruct (push_chunks_spec NaN capacity chunks b Hwf)
    as (b' & Hp & Hwf' & Hr').
  fold pushed in Hp, Hr'.
  rewrite Z.min_r in Hp, Hr' by lia.
  replace (availableWrite capacity b) with (capacity - 1) in Hp, Hr' by lia.
  pose proof (available_sum capacity b' Hwf') as Hsum'.
  exists b'. split; [exact Hp|]. split; [lia|]. split; [lia|].
  unfold isFull. apply Z.eqb_eq. lia.
Qed.

(** C9, as amended.  The producer-side reset sets both cursors to zero;
    the consumer-side reset leaves the write cursor where it is and moves
    the read cursor onto it.  After either, [availableRead()] = 0 and
    [availableWrite()] = capacity - 1. *)
Theorem reset_postcondition (b : SharedBuffer A) :
  wf capacity b ->
  (writePtr (writer_reset b) = 0 /\ readPtr (writer_reset b) = 0 /\
   availableRead capacity (writer_reset b) = 0 /\
   availableWrite capacity (writer_reset b) = capacity - 1) /\
  (writePtr (reader_reset b) = writePtr b /\
   readPtr (reader_reset b) = writePtr b /\
   availableRead capacity (reader_reset b) = 0 /\
   availableWrite capacity (reader_reset b) = capacity - 1).
Proof.
  intros (Hc & Hw & Hr & Hl).
  unfold writer_reset, reader_reset, store_readPtr, store_writePtr,
    availableRead, availableWrite, availableWrite_at.
  cbn [writePtr readPtr sharedData].
  rewrite !toInt32_small by lia.
  rewrite !Z.leb_refl.
  replace (writePtr b >=? writePtr b) with true
    by (symmetry; apply Z.geb_le; lia).
  cbn. repeat split; lia.
Qed.

End RingBufferClaims.


(** ** Operations on a buffer that was never initialised *)

(** C10.  While the control or data view is missing (or, for the worklet,
    [isInitialized] is false), [writeToBuffer] returns 0 and leaves the
    shared memory as it is, [readFromBuffer] returns 0 and leaves the
    destination and the shared memory as they are, and
    [getAvailableSamples] returns 0.  All three are total functions:
    there is no exceptional result. *)
Theorem uninitialized_buffer_operations_are_noops
    {A : Type} (NaN : R)
    (p : AudioProcessor.t) (bp : SharedBuffer A) (samples : list A)
    (w : Worker.t) (bw : SharedBuffer R) (destination : list R) :
  AudioProcessor.isInitialized p = false \/
  AudioProcessor.controlBuffer p = None \/
  AudioProcessor.dataBuffer p = None ->
  Worker.controlBuffer w = None ->
  Worker.dataBuffer w = None ->
  AudioProcessor.writeToBuffer p bp samples = (0, bp) /\
  Worker.readFromBuffer NaN w bw destination = (0, destination, bw) /\
  Worker.getAvailableSamples w bw = 0.
Proof.
  intros Hp Hc Hd. split; [|split].
  - unfold AudioProcessor.writeToBuffer.
    destruct Hp as [-> | [-> | ->]]; [reflexivity| |].
    + destruct (AudioProcessor.isInitialized p); reflexivity.
    + destruct (AudioProcessor.isInitialized p),
        (AudioProcessor.controlBuffer p); reflexivity.
  - unfold Worker.readFromBuffer. rewrite Hc. reflexivity.
  - unfold Worker.getAvailableSamples. rewrite Hc. reflexivity.
Qed.

Lemma uninitialized_buffer_operations_witness :
  let p := AudioProcessor.constructor 48000 in
  let b := mkShared 3 1 [5; 6; 7; 8] in
  let w := Worker.initial None in
  let bw := mkShared 3 1 [5; 6; 7; 8]%R in
  AudioProcessor.writeToBuffer p b [9; 9] = (0, b) /\
  Worker.readFromBuffer 0%R w bw [0; 0]%R = (0, [0; 0]%R, bw) /\
  Worker.getAvailableSamples w bw = 0.
Proof.
  intros p b w bw.
  apply (uninitialized_buffer_operations_are_noops 0%R p b [9; 9] w bw).
  - left. reflexivity.
  - reflexivity.
  - reflexivity.
Defined.

(** a worker whose views are missing reads nothing even when only one of
    them is *)
Lemma readFromBuffer_without_data_view
    (NaN : R) (w : Worker.t) (b : SharedBuffer R) (destination : list R) :
  Worker.dataBuffer w = None ->
  Worker.readFromBuffer NaN w b destination = (0, destination, b).
Proof.
  intros Hd. unfold Worker.readFromBuffer. rewrite Hd.
  destruct (Worker.controlBuffer w); reflexivity.
Qed.

(** ** The EMA smoother *)

Section Smoother.
Local Open Scope R_scope.

Lemma get_prop_map (f : string -> R) (labels : list string) (label : string) :
  In label labels ->
  get_prop (map (fun l => (l, f l)) labels) label = Some (f label).
Proof.
  induction labels as [|l labels IH]; intros Hin; [destruct Hin|].
  cbn [map get_prop]. destruct (String.eqb_spec l label) as [-> | Hne].
  - reflexivity.
  - destruct Hin as [Heq | Hin]; [contradiction|]. apply IH, Hin.
Qed.

Lemma prop_or_zero_map (f : string -> R) (labels : list string) (label : string) :
  In label labels ->
  prop_or_zero (map (fun l => (l, f l)) labels) label = f label.
Proof.
  intros Hin. unfold prop_or_zero. rewrite get_prop_map by assumption.
  reflexivity.
Qed.

Lemma update_with_state (sm : EmaSmoother.t) (prev raw : EmotionVector) :
  EmaSmoother.state sm = Some prev ->
  EmaSmoother.update sm raw =
  (map (fun label =>
          (label,
           EmaSmoother.alpha sm * prop_or_zero raw label
           + (1 - EmaSmoother.alpha sm) * prop_or_zero prev label))
     EMOTION_LABELS,
   EmaSmoother.mk (EmaSmoother.alpha sm)
     (Some
        (map (fun label =>
                (label,
                 EmaSmoother.alpha sm * prop_or_zero raw label
                 + (1 - EmaSmoother.alpha sm) * prop_or_zero prev label))
           EMOTION_LABELS))).
Proof. intros H. unfold EmaSmoother.update. rewrite H. reflexivity. Qed.

(** C6.  With a prior state [prev], [update raw] returns an object with
    exactly the eight labels, holding for every label
    [alpha * raw[label] + (1 - alpha) * prev[label]], and that object is
    the new state; without a prior state, at the first update or at the
    first one after [reset], [update v] returns [v] and [v] becomes the
    state.  The smoothers of the program are built with alpha = 0.2. *)
Theorem ema_update_correct (sm : EmaSmoother.t) (raw : EmotionVector) :
  (forall prev, EmaSmoother.state sm = Some prev ->
     let '(smoothed, sm') := EmaSmoother.update sm raw in
     map fst smoothed = EMOTION_LABELS /\
     (forall label, In label EMOTION_LABELS ->
        get_prop smoothed label =
        Some (EmaSmoother.alpha sm * prop_or_zero raw label
              + (1 - EmaSmoother.alpha sm) * prop_or_zero prev label)) /\
     sm' = EmaSmoother.mk (EmaSmoother.alpha sm) (Some smoothed)) /\
  (EmaSmoother.state sm = None ->
     EmaSmoother.update sm raw
     = (raw, EmaSmoother.mk (EmaSmoother.alpha sm) (Some raw))) /\
  EmaSmoother.update (EmaSmoother.reset sm) raw
  = (raw, EmaSmoother.mk (EmaSmoother.alpha sm) (Some raw)) /\
  EmaSmoother.update (EmaSmoother.constructor EMA_ALPHA) raw
  = (raw, EmaSmoother.mk (2 / 10) (Some raw)).
Proof.
  split; [|split; [|split]].
  - intros prev Hprev. rewrite (update_with_state sm prev raw Hprev).
    split; [|split].
    + rewrite map_map. cbn [fst]. apply map_id.
    + intros label Hin.
      apply (get_prop_map
               (fun l => EmaSmoother.alpha sm * prop_or_zero raw l
                         + (1 - EmaSmoother.alpha sm) * prop_or_zero prev l)).
      exact Hin.
    + reflexivity.
  - intros Hnone. unfold EmaSmoother.update. rewrite Hnone. reflexivity.
  - reflexivity.
  - reflexivity.
Qed.

End Smoother.

(** ** Sums *)

Section Sums.
Local Open Scope R_scope.

Lemma fold_left_Rplus_acc (xs : list R) (a : R) :
  fold_left Rplus xs a = a + sum_list xs.
Proof.
  unfold sum_list. revert a. induction xs as [|x xs IH]; intros a; cbn [fold_left].
  - lra.
  - rewrite (IH (a + x)), (IH (0 + x)). lra.
Qed.

Lemma sum_list_nil : sum_list [] = 0.
Proof. reflexivity. Qed.

Lemma sum_list_cons (x : R) (xs : list R) :
  sum_list (x :: xs) = x + sum_list xs.
Proof.
  unfold sum_list at 1. cbn [fold_left]. rewrite fold_left_Rplus_acc. lra.
Qed.

Lemma sum_list_scale {B : Type} (c : R) (f : B -> R) (l : list B) :
  sum_list (map (fun x => c * f x) l) = c * sum_list (map f l).
Proof.
  induction l as [|x l IH]; cbn [map].
  - rewrite sum_list_nil. lra.
  - rewrite !sum_list_cons, IH. lra.
Qed.

Lemma sum_list_nonneg (xs : list R) :
  Forall (fun x => 0 <= x) xs -> 0 <= sum_list xs.
Proof.
  induction 1 as [|x xs Hx _ IH].
  - rewrite sum_list_nil. lra.
  - rewrite sum_list_cons. lra.
Qed.

Lemma sum_list_ge_member (xs : list R) (x : R) :
  Forall (fun x => 0 <= x) xs -> In x xs -> x <= sum_list xs.
Proof.
  induction 1 as [|y xs Hy Hxs IH]; intros Hin; [destruct Hin|].
  rewrite sum_list_cons. pose proof (sum_list_nonneg xs Hxs).
  destruct Hin as [-> | Hin]; [lra|]. specialize (IH Hin). lra.
Qed.

End Sums.

(** ** The silence gate *)

Section SilenceGate.
Local Open Scope R_scope.

Lemma hold_active_spec (lastVoiced now : Z) :
  ((now - lastVoiced <? VOICE_HOLD_MS) && (lastVoiced >? 0))%Z = true <->
  (0 < lastVoiced /\ now - lastVoiced < VOICE_HOLD_MS)%Z.
Proof.
  rewrite andb_true_iff, Z.ltb_lt, Z.gtb_lt. tauto.
Qed.

(** a silence hop inside the hold time *)
Lemma silence_hold (sm : EmaSmoother.t) (lastVoiced now : Z) :
  (0 < lastVoiced)%Z -> (now - lastVoiced < VOICE_HOLD_MS)%Z ->
  let v := default NEUTRAL_VECTOR (EmaSmoother.state sm) in
  buildSilenceResult sm lastVoiced now =
  (mkPrediction v v (fst (getDominant v)) (snd (getDominant v)) 0 now true,
   sm).
Proof.
  intros Hv Hh v. unfold buildSilenceResult.
  replace ((now - lastVoiced <? VOICE_HOLD_MS) && (lastVoiced >? 0))%Z
    with true by (symmetry; apply hold_active_spec; split; assumption).
  unfold EmaSmoother.getState. fold v.
  destruct (getDominant v); reflexivity.
Qed.

(** a silence hop outside the hold time *)
Lemma silence_decay (sm : EmaSmoother.t) (lastVoiced now : Z) :
  ~ (0 < lastVoiced /\ now - lastVoiced < VOICE_HOLD_MS)%Z ->
  let v := fst (EmaSmoother.update sm NEUTRAL_VECTOR) in
  buildSilenceResult sm lastVoiced now =
  (mkPrediction v v (fst (getDominant v)) (snd (getDominant v)) 0 now true,
   snd (EmaSmoother.update sm NEUTRAL_VECTOR)).
Proof.
  intros Hno v. unfold buildSilenceResult.
  replace ((now - lastVoiced <? VOICE_HOLD_MS) && (lastVoiced >? 0))%Z
    with false.
  2:{ symmetry. apply not_true_is_false. rewrite hold_active_spec. exact Hno. }
  subst v. destruct (EmaSmoother.update sm NEUTRAL_VECTOR) as [v sm'].
  cbn [fst snd]. destruct (getDominant v); reflexivity.
Qed.

(** one EMA step toward the neutral vector shrinks the distance to it by
    the factor [1 - alpha] *)
Lemma blend_toward_neutral_distance (alpha : R) (prev : EmotionVector) :
  0 <= alpha <= 1 ->
  distance_to_neutral
    (map (fun label =>
            (label,
             alpha * prop_or_zero NEUTRAL_VECTOR label
             + (1 - alpha) * prop_or_zero prev label))
       EMOTION_LABELS)
  = (1 - alpha) * distance_to_neutral prev.
Proof.
  intros Ha. unfold distance_to_neutral.
  rewrite <- sum_list_scale. f_equal. apply map_ext_in. intros label Hin.
  rewrite (prop_or_zero_map
             (fun l => alpha * prop_or_zero NEUTRAL_VECTOR l
                       + (1 - alpha) * prop_or_zero prev l)) by exact Hin.
  replace (alpha * prop_or_zero NEUTRAL_VECTOR label
           + (1 - alpha) * prop_or_zero prev label
           - prop_or_zero NEUTRAL_VECTOR label)
    with ((1 - alpha)
          * (prop_or_zero prev label - prop_or_zero NEUTRAL_VECTOR label))
    by lra.
  rewrite Rabs_mult, (Rabs_pos_eq (1 - alpha)) by lra. reflexivity.
Qed.

Lemma distance_to_neutral_nonneg (v : EmotionVector) :
  0 <= distance_to_neutral v.
Proof.
  unfold distance_to_neutral. apply sum_list_nonneg.
  apply Forall_forall. intros x Hx%list_elem_of_In.
  apply in_map_iff in Hx as (label & <- & _). apply Rabs_pos.
Qed.

Lemma distance_to_neutral_self : distance_to_neutral NEUTRAL_VECTOR = 0.
Proof.
  unfold distance_to_neutral.
  rewrite (map_ext _ (fun _ => 0 * 1)).
  - rewrite sum_list_scale. lra.
  - intros label. rewrite Rminus_diag, Rabs_R0. lra.
Qed.

(** C5, as amended.  On a silence hop with a voiced timestamp less than
    holdMs = 800 ms old, the emitted vector is the smoother's state,
    unchanged (the neutral vector when the smoother has no state), the
    smoother is left as it is, and a second such hop emits the same
    vector.  Otherwise the smoother is updated with the neutral vector:
    with a prior state the emitted vector is the EMA blend
    [alpha * neutral + (1 - alpha) * prev], whose distance to the neutral
    vector is [(1 - alpha)] times that of [prev], hence strictly smaller
    exactly when [prev] was not already the neutral vector; with no prior
    state the emitted vector is the neutral vector itself. *)
Theorem silence_gate_hold_then_decay
    (sm : EmaSmoother.t) (lastVoiced now : Z) :
  VOICE_HOLD_MS = 800%Z /\
  ((0 < lastVoiced)%Z -> (now - lastVoiced < VOICE_HOLD_MS)%Z ->
     let '(result, sm') := buildSilenceResult sm lastVoiced now in
     sm' = sm /\
     isSilence result = true /\
     emotions result = default NEUTRAL_VECTOR (EmaSmoother.state sm) /\
     forall now', (now' - lastVoiced < VOICE_HOLD_MS)%Z ->
       emotions (fst (buildSilenceResult sm' lastVoiced now'))
       = emotions result) /\
  (~ (0 < lastVoiced /\ now - lastVoiced < VOICE_HOLD_MS)%Z ->
     let '(result, sm') := buildSilenceResult sm lastVoiced now in
     isSilence result = true /\
     EmaSmoother.state sm' = Some (emotions result) /\
     (EmaSmoother.state sm = None -> emotions result = NEUTRAL_VECTOR) /\
     forall prev, EmaSmoother.state sm = Some prev ->
       emotions result =
         map (fun label =>
                (label,
                 EmaSmoother.alpha sm * prop_or_zero NEUTRAL_VECTOR label
                 + (1 - EmaSmoother.alpha sm) * prop_or_zero prev label))
           EMOTION_LABELS /\
       (0 < EmaSmoother.alpha sm <= 1 ->
        distance_to_neutral (emotions result)
          = (1 - EmaSmoother.alpha sm) * distance_to_neutral prev /\
        (0 < distance_to_neutral prev ->
         distance_to_neutral (emotions result) < distance_to_neutral prev))).
Proof.
  split; [reflexivity|]. split.
  - intros Hv Hh. rewrite (silence_hold sm lastVoiced now Hv Hh).
    cbn [emotions isSilence]. repeat split.
    intros now' Hh'. rewrite (silence_hold sm lastVoiced now' Hv Hh').
    reflexivity.
  - intros Hno. rewrite (silence_decay sm lastVoiced now Hno).
    cbn [emotions isSilence]. split; [reflexivity|].
    destruct (EmaSmoother.state sm) as [prev0|] eqn:Hst.
    + rewrite (update_with_state sm prev0 NEUTRAL_VECTOR Hst). cbn [fst snd].
      split; [reflexivity|]. split; [discriminate|].
      intros prev [= <-]. split; [reflexivity|]. intros Ha.
      rewrite blend_toward_neutral_distance by lra.
      split; [reflexivity|]. intros Hpos. nra.
    + unfold EmaSmoother.update. rewrite Hst. cbn.
      split; [reflexivity|]. split; [reflexivity|]. discriminate.
Qed.

End SilenceGate.

(** ** softmax *)

Section Softmax.
Local Open Scope R_scope.

Lemma fold_left_Rmax_ge (l : list R) (a : R) :
  a <= fold_left Rmax l a /\
  forall x, In x l -> x <= fold_left Rmax l a.
Proof.
  revert a. induction l as [|y l IH]; intros a; cbn [fold_left].
  - split; [lra|]. intros x [].
  - destruct (IH (Rmax a y)) as [Hacc Hall].
    pose proof (Rmax_l a y). pose proof (Rmax_r a y).
    split; [lra|]. intros x [-> | Hin]; [lra|]. apply Hall, Hin.
Qed.

Lemma fold_left_Rmax_in (l : list R) (a : R) :
  fold_left Rmax l a = a \/ In (fold_left Rmax l a) l.
Proof.
  revert a. induction l as [|y l IH]; intros a; cbn [fold_left].
  - left. reflexivity.
  - destruct (IH (Rmax a y)) as [Heq | Hin].
    + rewrite Heq. unfold Rmax. destruct (Rle_dec a y).
      * right. left. reflexivity.
      * left. reflexivity.
    + right. right. exact Hin.
Qed.

Lemma fold_left_Rmax_shift (c : R) (l : list R) (a : R) :
  fold_left Rmax (map (fun x => x + c) l) (a + c) = fold_left Rmax l a + c.
Proof.
  revert a. induction l as [|y l IH]; intros a; cbn [map fold_left].
  - reflexivity.
  - replace (Rmax (a + c) (y + c)) with (Rmax a y + c).
    + apply IH.
    + unfold Rmax. destruct (Rle_dec a y), (Rle_dec (a + c) (y + c)); lra.
Qed.

Lemma Math_max_is_max (x : list R) :
  x <> [] ->
  In (Math_max x) x /\ forall xi, In xi x -> xi <= Math_max x.
Proof.
  destruct x as [|a l]; [congruence|]. intros _. unfold Math_max.
  destruct (fold_left_Rmax_ge l a) as [Ha Hl]. split.
  - destruct (fold_left_Rmax_in l a) as [-> | Hin].
    + left. reflexivity.
    + right. exact Hin.
  - intros xi [<- | Hin]; [exact Ha|]. apply Hl, Hin.
Qed.

Lemma Math_max_shift (c : R) (x : list R) :
  x <> [] -> Math_max (map (fun xi => xi + c) x) = Math_max x + c.
Proof.
  destruct x as [|a l]; [congruence|]. intros _.
  unfold Math_max. cbn [map]. apply fold_left_Rmax_shift.
Qed.

Lemma sum_list_div (s : R) (e : list R) :
  sum_list (map (fun x => x / s) e) = sum_list e / s.
Proof.
  induction e as [|x e IH]; cbn [map].
  - rewrite sum_list_nil. unfold Rdiv. lra.
  - rewrite !sum_list_cons, IH. unfold Rdiv. lra.
Qed.

Lemma exp_scores_positive (m : R) (x : list R) :
  Forall (fun e => 0 < e) (map (fun xi => exp (xi - m)) x).
Proof.
  apply Forall_forall. intros e He%list_elem_of_In.
  apply in_map_iff in He as (xi & <- & _). apply exp_pos.
Qed.

Lemma sum_list_positive (e : list R) :
  e <> [] -> Forall (fun x => 0 < x) e -> 0 < sum_list e.
Proof.
  intros Hne Hpos. destruct Hpos as [|x e Hx He]; [congruence|].
  rewrite sum_list_cons.
  assert (0 <= sum_list e).
  { apply sum_list_nonneg. eapply Forall_impl; [exact He|].
    cbn. intros; lra. }
  lra.
Qed.

(** C7.  For a non-empty logit vector [x], [softmax x] has the
    components [exp (x_i - max x) / sum_j exp (x_j - max x)], where
    [max x] is the greatest component of [x]; each output lies in
    [0, 1], the outputs sum to 1, and adding one scalar [c] to every
    logit does not change the result. *)
Theorem softmax_properties (x : list R) (c : R) :
  x <> [] ->
  (In (Math_max x) x /\ forall xi, In xi x -> xi <= Math_max x) /\
  softmax x =
    map (fun xi =>
           exp (xi - Math_max x)
           / sum_list (map (fun xj => exp (xj - Math_max x)) x))
      x /\
  (forall p, In p (softmax x) -> 0 <= p <= 1) /\
  sum_list (softmax x) = 1 /\
  softmax (map (fun xi => xi + c) x) = softmax x.
Proof.
  intros Hne.
  set (e := map (fun xi => exp (xi - Math_max x)) x).
  assert (Hsm : softmax x = map (fun v => v / sum_list e) e) by reflexivity.
  assert (He : Forall (fun v => 0 < v) e) by apply exp_scores_positive.
  assert (Hene : e <> []).
  { unfold e. destruct x; [congruence|]. discriminate. }
  assert (Hs : 0 < sum_list e) by (apply sum_list_positive; assumption).
  split; [apply Math_max_is_max, Hne|]. split; [|split; [|split]].
  - rewrite Hsm. unfold e. rewrite map_map. reflexivity.
  - intros p Hp. rewrite Hsm in Hp.
    apply in_map_iff in Hp as (v & <- & Hv).
    assert (0 < v).
    { rewrite Forall_forall in He. apply He, list_elem_of_In, Hv. }
    assert (v <= sum_list e).
    { apply sum_list_ge_member; [|exact Hv].
      eapply Forall_impl; [exact He|]. cbn. intros; lra. }
    split.
    + apply Rlt_le, Rdiv_lt_0_compat; assumption.
    + apply (Rmult_le_reg_r (sum_list e)); [exact Hs|].
      unfold Rdiv. rewrite Rmult_assoc, Rinv_l by lra. lra.
  - rewrite Hsm, sum_list_div. unfold Rdiv. apply Rinv_r. lra.
  - set (x' := map (fun xi => xi + c) x).
    set (e' := map (fun xi => exp (xi - Math_max x')) x').
    assert (Hsm' : softmax x' = map (fun v => v / sum_list e') e')
      by reflexivity.
    assert (Heq : e' = e).
    { unfold e', x', e. rewrite (Math_max_shift c x Hne), map_map.
      apply map_ext. intros xi. f_equal. lra. }
    rewrite Hsm', Heq. symmetry. exact Hsm.
Qed.

Lemma softmax_properties_witness :
  sum_list (softmax [1; 2; 3]) = 1 /\
  softmax (map (fun xi => xi + 5) [1; 2; 3]) = softmax [1; 2; 3].
Proof.
  destruct (softmax_properties [1; 2; 3] 5 ltac:(discriminate))
    as (_ & _ & _ & Hsum & Hshift).
  split; [exact Hsum | exact Hshift].
Defined.

End Softmax.

(** ** The streaming resampler *)

(** C8 (the code departs from the claim).  At 44100 Hz the worklet's
    [resample], called on two consecutive blocks of 128 samples of the
    ramp x[i] = i, agrees with [resampleAudio] on the 256 samples for the
    46 outputs that come from inside the first block; the 47th output,
    the first of the second call, is taken at source position 126 and is
    126, where the one-call resampling takes it at 46 * 2.75625 =
    126.7875 and gives 126.7875: the second call starts again at phase
    0 on the carried-over samples, and the fractional part of the
    position is lost. *)
Theorem streaming_resample_restarts_phase :
  let p := AudioProcessor.constructor 44100 in
  let signal := ramp 256 in
  let streamed :=
    fst (AudioProcessor.resample_blocks p [take 128 signal; drop 128 signal]) in
  let batch := resampleAudio signal 44100 16000 in
  AudioProcessor.resampleBuffer (snd (AudioProcessor.resample p (take 128 signal)))
    = [inject_Z 126; inject_Z 127] /\
  length streamed = 93%nat /\ length batch = 93%nat /\
  agree_on_common_length (take 46 streamed) (take 46 batch) = true /\
  same_sample (nth 46 streamed None) (Some (inject_Z 126)) = true /\
  same_sample (nth 46 batch None) (Some (10143 # 80)) = true /\
  agree_on_common_length streamed batch = false.
Proof. vm_compute. repeat split. Qed.

(** ** Root mean square of a constant window *)

Section RMS.
Local Open Scope R_scope.

Lemma sumSquares_ones (n : nat) (a : R) :
  fold_left (fun acc value => acc + value * value) (replicate n 1) a
  = a + INR n.
Proof.
  revert a. induction n as [|n IH]; intros a.
  - cbn. lra.
  - cbn [replicate fold_left]. rewrite IH, S_INR. lra.
Qed.

Lemma calculateRMS_ones (n : nat) :
  (0 < n)%nat -> calculateRMS (replicate n 1) = 1.
Proof.
  intros Hn. unfold calculateRMS, calculateRMSInRange.
  rewrite length_replicate, Z.max_id, Z.min_id, Z.sub_0_r.
  destruct (Z.leb_spec (Z.of_nat n) 0) as [Hle | _]; [lia|].
  rewrite Nat2Z.id. change (Z.to_nat 0) with 0%nat. rewrite drop_0.
  rewrite take_ge by (rewrite length_replicate; lia).
  rewrite sumSquares_ones, <- INR_IZR_INZ, Rplus_0_l.
  unfold Rdiv. rewrite Rinv_r.
  - apply sqrt_1.
  - apply not_0_INR. lia.
Qed.

Lemma ones_are_voiced (n : nat) :
  (0 < n)%nat -> ~ calculateRMS (replicate n 1) < NOISE_GATE_THRESHOLD.
Proof.
  intros Hn. rewrite calculateRMS_ones by exact Hn.
  unfold NOISE_GATE_THRESHOLD. lra.
Qed.

End RMS.

(** ** The worker's loop *)

Section WorkerFacts.
Import RingBuffer RingBufferFacts.
Variable NaN : R.

Lemma readFromBuffer_is_read (w : Worker.t) (b : SharedBuffer R)
    (destination : list R) :
  Worker.controlBuffer w = Some SharedView ->
  Worker.dataBuffer w = Some SharedView ->
  Worker.readFromBuffer NaN w b destination
  = read NaN (Worker.capacity w) b destination.
Proof. intros Hc Hd. unfold Worker.readFromBuffer. rewrite Hc, Hd. reflexivity. Qed.

Lemma getAvailableSamples_is_availableRead (w : Worker.t) (b : SharedBuffer R) :
  Worker.controlBuffer w = Some SharedView ->
  Worker.getAvailableSamples w b = availableRead (Worker.capacity w) b.
Proof. intros Hc. unfold Worker.getAvailableSamples. rewrite Hc. reflexivity. Qed.

(** draining a buffer that holds at most two windows into an empty
    accumulation buffer moves its unread samples there *)
Lemma drain_into_empty (w : Worker.t) (b : SharedBuffer R) :
  Worker.controlBuffer w = Some SharedView ->
  Worker.dataBuffer w = Some SharedView ->
  wf (Worker.capacity w) b ->
  0 < availableRead (Worker.capacity w) b <= INFERENCE_WINDOW_SAMPLES * 2 ->
  exists b',
    Worker.drain NaN w b [] = (contents NaN (Worker.capacity w) b, b') /\
    wf (Worker.capacity w) b' /\
    availableRead (Worker.capacity w) b' = 0.
Proof.
  intros Hc Hd Hwf Ha. unfold Worker.drain.
  rewrite getAvailableSamples_is_availableRead by exact Hc.
  set (a := availableRead (Worker.capacity w) b) in *.
  destruct (Z.gtb_spec a 0) as [_ | Hle]; [|lia].
  rewrite readFromBuffer_is_read by assumption.
  destruct (read_spec NaN (Worker.capacity w) b
              (replicate (Z.to_nat a) 0%R) Hwf)
    as (b' & Hrd & Hwf' & _ & Ha' & _).
  rewrite length_replicate, Z2Nat.id in Hrd, Ha' by lia.
  fold a in Hrd, Ha'. rewrite Z.min_id in Hrd, Ha'.
  rewrite Hrd.
  destruct (Z.gtb_spec a 0) as [_ | Hle]; [|lia].
  assert (Hlen : length (contents NaN (Worker.capacity w) b) = Z.to_nat a).
  { apply contents_length. }
  rewrite (take_ge (contents NaN (Worker.capacity w) b)) by lia.
  rewrite drop_replicate, Nat.sub_diag. cbn [replicate].
  rewrite app_nil_r, app_nil_l.
  rewrite take_ge by lia.
  rewrite Hlen, Z2Nat.id by lia.
  destruct (Z.gtb_spec a (INFERENCE_WINDOW_SAMPLES * 2)) as [Hgt | _]; [lia|].
  exists b'. split; [reflexivity|]. split; [exact Hwf'|]. lia.
Qed.

(** a turn of the loop on a voiced window suspends at [session.run] *)
Lemma loop_run_voiced (fuel : nat) (now : Z) (w : Worker.t)
    (b b' : SharedBuffer R) (sampleBuffer sampleBuffer' : list R) :
  Worker.isRunning w = true ->
  Worker.session w = Some LoadedSession ->
  Worker.drain NaN w b sampleBuffer = (sampleBuffer', b') ->
  INFERENCE_WINDOW_SAMPLES <= Z.of_nat (length sampleBuffer') ->
  ~ (calculateRMS (slice_from sampleBuffer' (- INFERENCE_WINDOW_SAMPLES))
     < NOISE_GATE_THRESHOLD)%R ->
  Worker.loop_run NaN (S fuel) now w b sampleBuffer
  = Some (Worker.set_lastVoicedTimestamp w now, b',
          Some (Worker.AwaitRun sampleBuffer')).
Proof.
  intros Hrun Hs Hdrain Hlen Hvoiced. cbn [Worker.loop_run].
  rewrite Hrun, Hdrain. cbn [negb].
  destruct (Z.geb_spec (Z.of_nat (length sampleBuffer'))
              INFERENCE_WINDOW_SAMPLES) as [_ | Hlt]; [|lia].
  destruct (Rlt_dec _ _) as [Hsilent | _]; [contradiction|].
  cbn [Worker.set_lastVoicedTimestamp Worker.session]. rewrite Hs.
  reflexivity.
Qed.

(** a turn of the loop with too few samples goes to sleep *)
Lemma loop_run_short (fuel : nat) (now : Z) (w : Worker.t)
    (b b' : SharedBuffer R) (sampleBuffer sampleBuffer' : list R) :
  Worker.isRunning w = true ->
  Worker.drain NaN w b sampleBuffer = (sampleBuffer', b') ->
  Z.of_nat (length sampleBuffer') < INFERENCE_WINDOW_SAMPLES ->
  Worker.loop_run NaN (S fuel) now w b sampleBuffer
  = Some (w, b', Some (Worker.AwaitSleep sampleBuffer')).
Proof.
  intros Hrun Hdrain Hlen. cbn [Worker.loop_run].
  rewrite Hrun, Hdrain. cbn [negb].
  destruct (Z.geb_spec (Z.of_nat (length sampleBuffer'))
              INFERENCE_WINDOW_SAMPLES) as [Hge | _]; [lia|].
  reflexivity.
Qed.

Lemma drain_nothing (w : Worker.t) (b : SharedBuffer R) (sampleBuffer : list R) :
  Worker.getAvailableSamples w b = 0 ->
  Worker.drain NaN w b sampleBuffer = (sampleBuffer, b).
Proof. intros H. unfold Worker.drain. rewrite H. reflexivity. Qed.

Lemma advance_length (sampleBuffer : list R) :
  Z.of_nat (length (Worker.advance sampleBuffer)) =
  Z.of_nat (length sampleBuffer)
  - Z.min HOP_SIZE_SAMPLES (Z.of_nat (length sampleBuffer)).
Proof.
  unfold Worker.advance, slice_from.
  assert (HOP_SIZE_SAMPLES = 2375) as -> by reflexivity.
  destruct (Z.ltb_spec (Z.min 2375 (Z.of_nat (length sampleBuffer))) 0);
    [lia|].
  rewrite length_drop. lia.
Qed.

(** the first half of the loop body, for any accumulation buffer *)
Lemma drain_spec (w : Worker.t) (b : SharedBuffer R) (sampleBuffer : list R) :
  Worker.controlBuffer w = Some SharedView ->
  Worker.dataBuffer w = Some SharedView ->
  wf (Worker.capacity w) b ->
  let all := sampleBuffer ++ contents NaN (Worker.capacity w) b in
  exists b',
    Worker.drain NaN w b sampleBuffer =
      (if availableRead (Worker.capacity w) b >? 0
       then if Z.of_nat (length all) >? INFERENCE_WINDOW_SAMPLES * 2
            then slice_from all (- INFERENCE_WINDOW_SAMPLES * 2)
            else all
       else sampleBuffer,
       b') /\
    wf (Worker.capacity w) b' /\
    availableRead (Worker.capacity w) b' = 0 /\
    writePtr b' = writePtr b.
Proof.
  intros Hc Hd Hwf all. unfold Worker.drain.
  rewrite getAvailableSamples_is_availableRead by exact Hc.
  pose proof (availableRead_bounds (Worker.capacity w) b Hwf) as Hbd.
  set (a := availableRead (Worker.capacity w) b) in *.
  destruct (Z.gtb_spec a 0) as [Hpos | Hle].
  - rewrite readFromBuffer_is_read by assumption.
    destruct (read_spec NaN (Worker.capacity w) b
                (replicate (Z.to_nat a) 0%R) Hwf)
      as (b' & Hrd & Hwf' & Hwp & Ha' & _).
    rewrite length_replicate, Z2Nat.id in Hrd, Ha' by lia.
    fold a in Hrd, Ha'. rewrite Z.min_id in Hrd, Ha'.
    rewrite Hrd.
    destruct (Z.gtb_spec a 0) as [_ | Hle]; [|lia].
    assert (Hlen : length (contents NaN (Worker.capacity w) b) = Z.to_nat a)
      by apply contents_length.
    rewrite (take_ge (contents NaN (Worker.capacity w) b)) by lia.
    rewrite drop_replicate, Nat.sub_diag. cbn [replicate].
    rewrite app_nil_r. rewrite take_ge by lia.
    fold all.
    exists b'. split; [reflexivity|]. split; [exact Hwf'|].
    split; [lia | exact Hwp].
  - exists b. split; [reflexivity|]. split; [exact Hwf|]. split; [lia|].
    reflexivity.
Qed.

Lemma buildSilenceResult_isSilence (sm : EmaSmoother.t) (lv now : Z) :
  isSilence (fst (buildSilenceResult sm lv now)) = true.
Proof.
  unfold buildSilenceResult.
  destruct (_ && _); [|destruct (EmaSmoother.update _ _)];
    destruct (getDominant _); reflexivity.
Qed.

End WorkerFacts.

(** ** Stop while an inference is in flight *)

Section InFlight.
Import RingBuffer RingBufferFacts.
Variable NaN : R.

Lemma slice_from_whole {A : Type} (xs : list A) (n : Z) :
  0 < n -> Z.of_nat (length xs) = n -> slice_from xs (- n) = xs.
Proof.
  intros Hn Hlen. unfold slice_from.
  destruct (Z.ltb_spec (- n) 0) as [_ | Hge]; [|lia].
  rewrite Z.opp_involutive.
  replace (length xs - Z.to_nat n)%nat with 0%nat by lia.
  apply drop_0.
Qed.

Lemma finish_inference_fresh (a : R) (logits : list R) (it : R) (t : Z) :
  let raw := probabilitiesToMap (softmax logits) in
  finish_inference (EmaSmoother.mk a None) logits it t =
  (mkPrediction raw raw (fst (getDominant raw)) (snd (getDominant raw))
     it t false,
   EmaSmoother.mk a (Some raw)).
Proof.
  intros raw. unfold finish_inference. fold raw.
  unfold EmaSmoother.update. cbn [EmaSmoother.state EmaSmoother.alpha].
  destruct (getDominant raw). reflexivity.
Qed.

(** the worker after [initBuffer], a produced window and [start]: the
    loop has read the window and waits for [session.run] *)
Lemma start_on_voiced_window (cap : Z) (xs : list R) (t0 : Z) :
  0 < cap < 2 ^ 31 ->
  Z.of_nat (length xs) = INFERENCE_WINDOW_SAMPLES ->
  INFERENCE_WINDOW_SAMPLES < cap ->
  ~ (calculateRMS xs < NOISE_GATE_THRESHOLD)%R ->
  let s0 := Worker.mkWorld (Worker.initial (Some LoadedSession))
              (createRingBuffer 0%R cap) [] in
  exists b,
    Worker.run NaN s0
      [Worker.Message (Worker.InitBuffer cap) 0;
       Worker.Produce xs;
       Worker.Message Worker.Start t0]
    = Some
        (Worker.mkWorld
           (Worker.mk (Some LoadedSession) true (Some SharedView)
              (Some SharedView) (Some SharedView) cap t0
              (EmaSmoother.mk EMA_ALPHA None)
              [Worker.MsgBufferInitialized; Worker.MsgStarted])
           b [Worker.AwaitRun xs]) /\
    wf cap b /\ availableRead cap b = 0.
Proof.
  intros Hcap Hlen Hfit Hvoiced s0.
  assert (HW : INFERENCE_WINDOW_SAMPLES = 2376) by reflexivity.
  pose proof (createRingBuffer_wf cap 0%R Hcap) as Hwf0.
  destruct (write_spec NaN cap (createRingBuffer 0%R cap) xs Hwf0)
    as (b1 & Hwr & Hwf1 & Hr1 & _ & Hc1).
  assert (Hr0 : availableRead cap (createRingBuffer 0%R cap) = 0)
    by reflexivity.
  assert (Hw0 : availableWrite cap (createRingBuffer 0%R cap) = cap - 1).
  { pose proof (available_sum cap _ Hwf0). lia. }
  rewrite Hw0, Z.min_l in Hwr, Hr1, Hc1 by lia.
  rewrite Hr0 in Hr1.
  rewrite (contents_empty NaN cap _ Hr0), app_nil_l in Hc1.
  rewrite take_ge in Hc1 by lia.
  set (w1 := Worker.mk (Some LoadedSession) false (Some SharedView)
               (Some SharedView) (Some SharedView) cap 0
               (EmaSmoother.mk EMA_ALPHA None)
               [Worker.MsgBufferInitialized]).
  set (w2 := Worker.mk (Some LoadedSession) true (Some SharedView)
               (Some SharedView) (Some SharedView) cap 0
               (EmaSmoother.mk EMA_ALPHA None)
               [Worker.MsgBufferInitialized; Worker.MsgStarted]).
  destruct (drain_into_empty NaN w2 b1) as (b2 & Hdrain & Hwf2 & Hr2);
    try reflexivity.
  { exact Hwf1. }
  { cbn [Worker.capacity w2]. lia. }
  cbn [Worker.capacity w2] in Hdrain, Hwf2, Hr2. rewrite Hc1 in Hdrain.
  assert (H1 : Worker.step NaN s0 (Worker.Message (Worker.InitBuffer cap) 0)
               = Some (Worker.mkWorld w1 (createRingBuffer 0%R cap) []))
    by reflexivity.
  assert (H2 : Worker.step NaN
                 (Worker.mkWorld w1 (createRingBuffer 0%R cap) [])
                 (Worker.Produce xs)
               = Some (Worker.mkWorld w1 b1 [])).
  { unfold Worker.step, Worker.mkWorld.
    cbn [Worker.worker Worker.shared Worker.loops w1 Worker.capacity].
    rewrite Hwr. reflexivity. }
  assert (H3 : Worker.step NaN (Worker.mkWorld w1 b1 [])
                 (Worker.Message Worker.Start t0)
               = Some (Worker.mkWorld (Worker.set_lastVoicedTimestamp w2 t0)
                         b2 [Worker.AwaitRun xs])).
  { unfold Worker.step, Worker.onmessage, Worker.mkWorld.
    cbn [Worker.worker Worker.shared Worker.loops w1 Worker.session
         Worker.sharedBuffer].
    change (Worker.postMessage _ Worker.MsgStarted) with w2.
    unfold Worker.loop_fuel.
    rewrite (loop_run_voiced NaN _ t0 w2 b1 b2 [] xs); try reflexivity.
    - exact Hdrain.
    - lia.
    - rewrite slice_from_whole by (assumption || lia). exact Hvoiced. }
  exists b2. split; [|split; assumption].
  cbn [Worker.run]. rewrite H1, H2, H3. reflexivity.
Qed.

Lemma run_app (s : Worker.world) (es1 es2 : list Worker.event) :
  Worker.run NaN s (es1 ++ es2) =
  match Worker.run NaN s es1 with
  | Some s' => Worker.run NaN s' es2
  | None => None
  end.
Proof.
  revert s. induction es1 as [|e es1 IH]; intros s; [reflexivity|].
  cbn [app Worker.run]. destruct (Worker.step NaN s e); [apply IH|reflexivity].
Qed.

(** [stop] does not reach a loop that waits for [session.run]: when the
    call settles, the loop posts its prediction and updates the smoother
    that [stop] had just reset *)
Lemma stop_then_settle (s : Worker.world) (i : nat) (sampleBuffer : list R)
    (logits : list R) (it : R) (t1 t2 : Z) :
  Worker.loops s !! i = Some (Worker.AwaitRun sampleBuffer) ->
  let w := Worker.worker s in
  let raw := probabilitiesToMap (softmax logits) in
  let p := mkPrediction raw raw (fst (getDominant raw)) (snd (getDominant raw))
             it t2 false in
  Worker.run NaN s
    [Worker.Message Worker.Stop t1;
     Worker.RunSettled i (Resolved logits) it t2]
  = Some
      (Worker.mkLoadingWorld
         (Worker.mk (Worker.session w) false (Worker.sharedBuffer w)
            (Worker.controlBuffer w) (Worker.dataBuffer w)
            (Worker.capacity w) 0
            (EmaSmoother.mk
               (EmaSmoother.alpha (Worker.probabilitySmoother w)) (Some raw))
            (Worker.posted w ++ [Worker.MsgStopped; Worker.MsgPrediction p]))
         (Worker.shared s)
         (<[i := Worker.AwaitSleep (Worker.advance sampleBuffer)]>
            (Worker.loops s))
         (Worker.loading s)).
Proof.
  intros Hloop w raw p. destruct s as [w0 b l ld]. cbn in Hloop, w. subst w.
  cbn [Worker.run Worker.step Worker.onmessage Worker.worker Worker.shared
       Worker.loops Worker.spawn Worker.loading Worker.load_of].
  rewrite app_nil_r.
  rewrite Hloop.
  unfold Worker.resume_run, EmaSmoother.reset, Worker.postMessage,
    Worker.set_probabilitySmoother, Worker.set_lastVoicedTimestamp,
    Worker.set_isRunning.
  cbn [Worker.probabilitySmoother Worker.session
       Worker.isRunning Worker.sharedBuffer Worker.controlBuffer
       Worker.dataBuffer Worker.capacity Worker.lastVoicedTimestamp
       Worker.posted].
  rewrite finish_inference_fresh. fold raw. fold p.
  cbn [Worker.probabilitySmoother Worker.session
       Worker.isRunning Worker.sharedBuffer Worker.controlBuffer
       Worker.dataBuffer Worker.capacity Worker.lastVoicedTimestamp
       Worker.posted].
  rewrite <- app_assoc. reflexivity.
Qed.

(** the same with a [start] between the [stop] and the settlement: the
    stale loop survives next to the new one, its prediction is posted
    after [started], and the smoother that [start] had reset holds the
    stale vector before the new loop has produced anything *)
Lemma stop_restart_then_settle (s : Worker.world) (i : nat)
    (sampleBuffer : list R) (logits : list R) (it : R) (t1 t2 t3 : Z) :
  Worker.loops s !! i = Some (Worker.AwaitRun sampleBuffer) ->
  Worker.session (Worker.worker s) = Some LoadedSession ->
  Worker.sharedBuffer (Worker.worker s) = Some SharedView ->
  Worker.getAvailableSamples (Worker.worker s) (Worker.shared s) = 0 ->
  let w := Worker.worker s in
  let raw := probabilitiesToMap (softmax logits) in
  let p := mkPrediction raw raw (fst (getDominant raw)) (snd (getDominant raw))
             it t3 false in
  Worker.run NaN s
    [Worker.Message Worker.Stop t1;
     Worker.Message Worker.Start t2;
     Worker.RunSettled i (Resolved logits) it t3]
  = Some
      (Worker.mkLoadingWorld
         (Worker.mk (Worker.session w) true (Worker.sharedBuffer w)
            (Worker.controlBuffer w) (Worker.dataBuffer w)
            (Worker.capacity w) 0
            (EmaSmoother.mk
               (EmaSmoother.alpha (Worker.probabilitySmoother w)) (Some raw))
            (Worker.posted w ++
             [Worker.MsgStopped; Worker.MsgStarted; Worker.MsgPrediction p]))
         (Worker.shared s)
         (<[i := Worker.AwaitSleep (Worker.advance sampleBuffer)]>
            (Worker.loops s ++ [Worker.AwaitSleep []]))
         (Worker.loading s)).
Proof.
  intros Hloop Hs Hsb Hav w raw p. destruct s as [w0 b l ld].
  cbn in Hloop, Hs, Hsb, Hav, w. subst w.
  set (w2 := Worker.mk (Worker.session w0) true (Worker.sharedBuffer w0)
               (Worker.controlBuffer w0) (Worker.dataBuffer w0)
               (Worker.capacity w0) 0
               (EmaSmoother.mk
                  (EmaSmoother.alpha (Worker.probabilitySmoother w0)) None)
               ((Worker.posted w0 ++ [Worker.MsgStopped])
                ++ [Worker.MsgStarted])).
  set (wS := Worker.mk (Worker.session w0) false (Worker.sharedBuffer w0)
               (Worker.controlBuffer w0) (Worker.dataBuffer w0)
               (Worker.capacity w0) 0
               (EmaSmoother.mk
                  (EmaSmoother.alpha (Worker.probabilitySmoother w0)) None)
               (Worker.posted w0 ++ [Worker.MsgStopped])).
  assert (H1 : Worker.step NaN (Worker.mkLoadingWorld w0 b l ld)
                 (Worker.Message Worker.Stop t1)
               = Some (Worker.mkLoadingWorld wS b l ld)).
  { cbn [Worker.step Worker.onmessage Worker.worker Worker.shared
         Worker.loops Worker.spawn Worker.loading Worker.load_of].
    rewrite app_nil_r. reflexivity. }
  assert (H2 : Worker.step NaN (Worker.mkLoadingWorld wS b l ld)
                 (Worker.Message Worker.Start t2)
               = Some (Worker.mkLoadingWorld w2 b (l ++ [Worker.AwaitSleep []]) ld)).
  { cbn [Worker.step Worker.onmessage Worker.worker Worker.shared
         Worker.loops Worker.spawn wS Worker.session Worker.sharedBuffer
         Worker.loading Worker.load_of].
    rewrite Hs, Hsb, app_nil_r.
    change (Worker.postMessage _ Worker.MsgStarted) with w2.
    unfold Worker.loop_fuel.
    rewrite (loop_run_short NaN _ t2 w2 b b [] []).
    - reflexivity.
    - reflexivity.
    - apply drain_nothing. exact Hav.
    - cbn. reflexivity. }
  assert (H3 : Worker.step NaN
                 (Worker.mkLoadingWorld w2 b (l ++ [Worker.AwaitSleep []]) ld)
                 (Worker.RunSettled i (Resolved logits) it t3)
               = Some
                   (Worker.mkLoadingWorld
                      (Worker.mk (Worker.session w0) true
                         (Worker.sharedBuffer w0) (Worker.controlBuffer w0)
                         (Worker.dataBuffer w0) (Worker.capacity w0) 0
                         (EmaSmoother.mk
                            (EmaSmoother.alpha (Worker.probabilitySmoother w0))
                            (Some raw))
                         (Worker.posted w0 ++
                          [Worker.MsgStopped; Worker.MsgStarted;
                           Worker.MsgPrediction p]))
                      b
                      (<[i := Worker.AwaitSleep (Worker.advance sampleBuffer)]>
                         (l ++ [Worker.AwaitSleep []]))
                      ld)).
  { cbn [Worker.step Worker.worker Worker.shared Worker.loops
         Worker.loading].
    rewrite (lookup_app_l_Some _ _ _ _ Hloop).
    unfold Worker.resume_run, Worker.postMessage,
      Worker.set_probabilitySmoother.
    cbn [w2 Worker.probabilitySmoother Worker.session
         Worker.isRunning Worker.sharedBuffer Worker.controlBuffer
         Worker.dataBuffer Worker.capacity Worker.lastVoicedTimestamp
         Worker.posted].
    rewrite finish_inference_fresh. fold raw. fold p.
    rewrite <- !app_assoc. reflexivity. }
  cbn [Worker.run]. rewrite H1, H2, H3. reflexivity.
Qed.

End InFlight.

(** C3 (the code departs from the claim).  The worker is given its
    buffer, the producer writes one voiced window (2376 samples of value
    1), and [start] launches the loop, which reads the window and calls
    the model.  [stop] arrives while [session.run] is pending.  When the
    call resolves, the loop posts its prediction after ["stopped"] and
    stores the result in the smoother that [stop] had reset.  With a
    [start] between the [stop] and the resolution, the stale prediction
    is posted after the second ["started"], the smoother holds the stale
    vector before the new loop has produced anything, and two loops are
    alive. *)
Theorem stop_does_not_discard_in_flight_result :
  let xs := replicate 2376 1%R in
  let logits := [0; 0; 0; 2; 0; 0; 0; 0]%R in
  let raw := probabilitiesToMap (softmax logits) in
  let stale t := mkPrediction raw raw (fst (getDominant raw))
                   (snd (getDominant raw)) 25%R t false in
  let s0 := Worker.mkWorld (Worker.initial (Some LoadedSession))
              (RingBuffer.createRingBuffer 0%R 4096) [] in
  let until_in_flight :=
    [Worker.Message (Worker.InitBuffer 4096) 0;
     Worker.Produce xs;
     Worker.Message Worker.Start 1000] in
  (exists s,
     Worker.run 0%R s0
       (until_in_flight ++
        [Worker.Message Worker.Stop 1040;
         Worker.RunSettled 0 (Resolved logits) 25%R 1050]) = Some s /\
     Worker.posted (Worker.worker s) =
       [Worker.MsgBufferInitialized; Worker.MsgStarted; Worker.MsgStopped;
        Worker.MsgPrediction (stale 1050)] /\
     Worker.isRunning (Worker.worker s) = false /\
     EmaSmoother.state (Worker.probabilitySmoother (Worker.worker s))
       = Some raw) /\
  (exists s,
     Worker.run 0%R s0
       (until_in_flight ++
        [Worker.Message Worker.Stop 1040;
         Worker.Message Worker.Start 1045;
         Worker.RunSettled 0 (Resolved logits) 25%R 1050]) = Some s /\
     Worker.posted (Worker.worker s) =
       [Worker.MsgBufferInitialized; Worker.MsgStarted; Worker.MsgStopped;
        Worker.MsgStarted; Worker.MsgPrediction (stale 1050)] /\
     EmaSmoother.state (Worker.probabilitySmoother (Worker.worker s))
       = Some raw /\
     Worker.loops s =
       [Worker.AwaitSleep (Worker.advance xs); Worker.AwaitSleep []]).
Proof.
  intros xs logits raw stale s0 until_in_flight.
  destruct (start_on_voiced_window 0%R 4096 xs 1000) as (b & Hrun & Hwf & Hav).
  { lia. }
  { unfold xs. rewrite length_replicate. reflexivity. }
  { reflexivity. }
  { apply ones_are_voiced. lia. }
  fold s0 in Hrun. fold until_in_flight in Hrun.
  split.
  - eexists. rewrite run_app, Hrun.
    rewrite (stop_then_settle 0%R _ 0 xs) by reflexivity.
    cbn [Worker.worker Worker.posted Worker.isRunning
         Worker.probabilitySmoother EmaSmoother.state app].
    repeat split; reflexivity.
  - eexists. rewrite run_app, Hrun.
    rewrite (stop_restart_then_settle 0%R _ 0 xs); try reflexivity.
    + cbn [Worker.worker Worker.posted Worker.loops
           Worker.probabilitySmoother EmaSmoother.state app].
      repeat split; reflexivity.
    + cbn [Worker.worker Worker.shared].
      rewrite getAvailableSamples_is_availableRead by reflexivity.
      exact Hav.
Qed.

(** ** A hop whose model call fails *)

Section FailedHop.
Import RingBuffer RingBufferFacts.
Variable NaN : R.
Local Open Scope R_scope.

Lemma predictions_app (l1 l2 : list Worker.posted_message) :
  Worker.predictions (l1 ++ l2)
  = Worker.predictions l1 ++ Worker.predictions l2.
Proof. unfold Worker.predictions. apply omap_app. Qed.

(** the store's hop on a voiced window when the model call fails *)
Lemma processAudio_rejected_voiced (message : string) (inferenceTime : R)
    (now finished : Z) (svc : InferenceService.t) (st : EmotionStore.t) :
  ~ calculateRMS
      (slice_from (EmotionStore.audioBuffer st) (- INFERENCE_WINDOW_SAMPLES))
    < NOISE_GATE_THRESHOLD ->
  snd (EmotionStore.processAudio (Rejected message) inferenceTime now
         finished svc st) = st.
Proof.
  intros Hvoiced. unfold EmotionStore.processAudio.
  destruct (negb (EmotionStore.isInferenceRunning st)
            || negb (InferenceService.isInferenceReady svc)); [reflexivity|].
  unfold InferenceService.getWindowSize.
  destruct (Z.of_nat (length (EmotionStore.audioBuffer st))
            <? INFERENCE_WINDOW_SAMPLES)%Z; [reflexivity|].
  unfold InferenceService.runInference.
  destruct (InferenceService.session svc); [|reflexivity].
  destruct (Rlt_dec _ _) as [Hsilent | _]; [contradiction|].
  reflexivity.
Qed.

(** a turn of the loop on a silent window posts the silence result and
    goes on, through [continue], with the advanced buffer *)
Lemma loop_run_silent (fuel : nat) (now : Z) (w : Worker.t)
    (b b' : SharedBuffer R) (sampleBuffer sampleBuffer' : list R) :
  Worker.isRunning w = true ->
  Worker.drain NaN w b sampleBuffer = (sampleBuffer', b') ->
  (INFERENCE_WINDOW_SAMPLES <= Z.of_nat (length sampleBuffer'))%Z ->
  calculateRMS (slice_from sampleBuffer' (- INFERENCE_WINDOW_SAMPLES))
  < NOISE_GATE_THRESHOLD ->
  let silence :=
    buildSilencePayload (Worker.probabilitySmoother w)
      (Worker.lastVoicedTimestamp w) now in
  Worker.loop_run NaN (S fuel) now w b sampleBuffer
  = Worker.loop_run NaN fuel now
      (Worker.postMessage (Worker.set_probabilitySmoother w (snd silence))
         (Worker.MsgPrediction (fst silence)))
      b' (Worker.advance sampleBuffer').
Proof.
  intros Hrun Hdrain Hlen Hsilent silence. cbn [Worker.loop_run].
  rewrite Hrun, Hdrain. cbn [negb].
  destruct (Z.geb_spec (Z.of_nat (length sampleBuffer'))
              INFERENCE_WINDOW_SAMPLES) as [_ | Hlt]; [|lia].
  destruct (Rlt_dec _ _) as [_ | Hvoiced]; [|contradiction].
  subst silence. destruct (buildSilencePayload _ _ _) as [payload sm].
  reflexivity.
Qed.

(** the store's hop when runInference returns a result *)
Lemma processAudio_result_advances (outcome : run_outcome) (inferenceTime : R)
    (now finished : Z) (svc : InferenceService.t) (st : EmotionStore.t) :
  EmotionStore.isInferenceRunning st = true ->
  InferenceService.isInferenceReady svc = true ->
  (INFERENCE_WINDOW_SAMPLES <= Z.of_nat (length (EmotionStore.audioBuffer st)))%Z ->
  calculateRMS
    (slice_from (EmotionStore.audioBuffer st) (- INFERENCE_WINDOW_SAMPLES))
  < NOISE_GATE_THRESHOLD \/
  (exists logits, outcome = Resolved logits) ->
  exists result,
    snd (EmotionStore.processAudio outcome inferenceTime now finished svc st)
    = EmotionStore.mk true
        (slice_from (EmotionStore.audioBuffer st)
           (Z.min HOP_SIZE_SAMPLES
              (Z.of_nat (length (EmotionStore.audioBuffer st)))))
        (EmotionStore.handled st ++ [result]).
Proof.
  intros Hrun Hready Hlen Hresult.
  unfold EmotionStore.processAudio. rewrite Hrun, Hready. cbn [negb orb].
  unfold InferenceService.getWindowSize, InferenceService.getHopSize.
  destruct (Z.ltb_spec (Z.of_nat (length (EmotionStore.audioBuffer st)))
              INFERENCE_WINDOW_SAMPLES) as [Hlt | _]; [lia|].
  unfold InferenceService.runInference.
  unfold InferenceService.isInferenceReady in Hready.
  destruct (InferenceService.session svc) as [sess|].
  2:{ rewrite andb_comm in Hready. cbn in Hready. discriminate. }
  destruct (Rlt_dec _ NOISE_GATE_THRESHOLD) as [Hsilent | Hvoiced].
  - destruct (buildSilenceResult _ _ _) as [result sm].
    exists result. reflexivity.
  - destruct Hresult as [Hsilent | (logits & ->)]; [contradiction|].
    cbn [InferenceService.probabilitySmoother].
    destruct (finish_inference _ _ _ _) as [result sm].
    exists result. reflexivity.
Qed.

(** the store's hop when a guard stops it *)
Lemma processAudio_guarded (outcome : run_outcome) (inferenceTime : R)
    (now finished : Z) (svc : InferenceService.t) (st : EmotionStore.t) :
  EmotionStore.isInferenceRunning st = false \/
  InferenceService.isInferenceReady svc = false \/
  (Z.of_nat (length (EmotionStore.audioBuffer st))
   < INFERENCE_WINDOW_SAMPLES)%Z ->
  EmotionStore.processAudio outcome inferenceTime now finished svc st
  = (svc, st).
Proof.
  intros Hguard. unfold EmotionStore.processAudio.
  destruct (EmotionStore.isInferenceRunning st); cbn [negb orb];
    [|reflexivity].
  destruct (InferenceService.isInferenceReady svc); cbn [negb];
    [|reflexivity].
  unfold InferenceService.getWindowSize.
  destruct (Z.ltb_spec (Z.of_nat (length (EmotionStore.audioBuffer st)))
              INFERENCE_WINDOW_SAMPLES) as [_ | Hge]; [reflexivity|].
  destruct Hguard as [H | [H | H]]; [discriminate | discriminate | lia].
Qed.

Lemma addAudioSamples_running (st : EmotionStore.t) (samples : list R) :
  EmotionStore.isInferenceRunning st = true ->
  let all := EmotionStore.audioBuffer st ++ samples in
  EmotionStore.audioBuffer (EmotionStore.addAudioSamples st samples)
  = drop (Z.to_nat (Z.of_nat (length all) - 9504)) all.
Proof.
  intros Hrun all. unfold EmotionStore.addAudioSamples. rewrite Hrun.
  cbn [negb]. cbv zeta. fold all.
  change (InferenceService.getWindowSize * 4)%Z with 9504%Z.
  cbn [EmotionStore.audioBuffer].
  destruct (Z.gtb_spec (Z.of_nat (length all)) 9504) as [Hgt | Hle].
  - reflexivity.
  - replace (Z.to_nat (Z.of_nat (length all) - 9504)) with 0%nat by lia.
    reflexivity.
Qed.

Lemma latest_window_of_latest {A : Type} (all : list A) :
  slice_from (drop (Z.to_nat (Z.of_nat (length all) - 9504)) all)
    (- INFERENCE_WINDOW_SAMPLES)
  = slice_from all (- INFERENCE_WINDOW_SAMPLES).
Proof.
  unfold slice_from. change (- INFERENCE_WINDOW_SAMPLES <? 0)%Z with true.
  cbv iota. change (Z.to_nat (- - INFERENCE_WINDOW_SAMPLES)) with 2376%nat.
  rewrite length_drop, drop_drop. f_equal. lia.
Qed.


(** C4, as amended.  When the model call of a hop fails, the hop
    delivers no prediction (the worker posts an error message, the store
    handles nothing) and leaves the rolling buffer as it was: the worker's
    loop goes to sleep with the same [sampleBuffer], the store keeps the
    same [audioBuffer].  The buffer advances, by
    [min(hop size, buffer length)] samples, when the call resolves and
    when the window is below the noise gate: in the worker after the
    resolved call and on the [continue] of a silent turn, in the store
    whenever [runInference] returns a result; a turn or a hop that finds
    less than a window, like a store that is not running or not ready,
    leaves it alone too.  The hop after a failed one
    works on the most recent window, with the samples that have arrived
    in between: the worker's next turn appends the unread samples of the
    ring buffer to the kept [sampleBuffer], keeps the latest [2 * 2376]
    and, on a voiced window, calls the model again with that buffer; in
    the store [addAudioSamples] appends to the kept [audioBuffer],
    keeping the latest 9504, and the window of the next hop is the last
    2376 samples of the old buffer followed by the new samples. *)
Theorem failed_hop_keeps_buffer
    (message : string) (logits : list R) (inferenceTime : R)
    (now finished : Z) (w : Worker.t) (sampleBuffer : list R)
    (svc : InferenceService.t) (st : EmotionStore.t) :
  (let '(w', task) :=
     Worker.resume_run (Rejected message) inferenceTime now w sampleBuffer in
   task = Worker.AwaitSleep sampleBuffer /\
   Worker.predictions (Worker.posted w') = Worker.predictions (Worker.posted w) /\
   Worker.posted w' =
     Worker.posted w ++ [Worker.MsgError ("Inference error: " +:+ message)]) /\
  (~ calculateRMS
       (slice_from (EmotionStore.audioBuffer st) (- INFERENCE_WINDOW_SAMPLES))
     < NOISE_GATE_THRESHOLD ->
   snd (EmotionStore.processAudio (Rejected message) inferenceTime now
          finished svc st) = st) /\
  (snd (Worker.resume_run (Resolved logits) inferenceTime now w sampleBuffer)
   = Worker.AwaitSleep (Worker.advance sampleBuffer) /\
   Z.of_nat (length (Worker.advance sampleBuffer)) =
     (Z.of_nat (length sampleBuffer)
      - Z.min HOP_SIZE_SAMPLES (Z.of_nat (length sampleBuffer)))%Z) /\
  (forall (fuel : nat) (b b1 : SharedBuffer R) (sampleBuffer1 : list R),
     Worker.isRunning w = true ->
     Worker.drain NaN w b sampleBuffer = (sampleBuffer1, b1) ->
     (INFERENCE_WINDOW_SAMPLES <= Z.of_nat (length sampleBuffer1))%Z ->
     calculateRMS (slice_from sampleBuffer1 (- INFERENCE_WINDOW_SAMPLES))
     < NOISE_GATE_THRESHOLD ->
     let silence :=
       buildSilencePayload (Worker.probabilitySmoother w)
         (Worker.lastVoicedTimestamp w) now in
     Worker.loop_run NaN (S fuel) now w b sampleBuffer
     = Worker.loop_run NaN fuel now
         (Worker.postMessage
            (Worker.set_probabilitySmoother w (snd silence))
            (Worker.MsgPrediction (fst silence)))
         b1 (Worker.advance sampleBuffer1) /\
     isSilence (fst silence) = true) /\
  (forall outcome : run_outcome,
     EmotionStore.isInferenceRunning st = true ->
     InferenceService.isInferenceReady svc = true ->
     (INFERENCE_WINDOW_SAMPLES
      <= Z.of_nat (length (EmotionStore.audioBuffer st)))%Z ->
     calculateRMS
       (slice_from (EmotionStore.audioBuffer st) (- INFERENCE_WINDOW_SAMPLES))
     < NOISE_GATE_THRESHOLD \/
     (exists logits', outcome = Resolved logits') ->
     exists result,
       snd (EmotionStore.processAudio outcome inferenceTime now finished
              svc st)
       = EmotionStore.mk true
           (slice_from (EmotionStore.audioBuffer st)
              (Z.min HOP_SIZE_SAMPLES
                 (Z.of_nat (length (EmotionStore.audioBuffer st)))))
           (EmotionStore.handled st ++ [result])) /\
  (forall (fuel : nat) (b b1 : SharedBuffer R) (sampleBuffer1 : list R),
     Worker.isRunning w = true ->
     Worker.drain NaN w b sampleBuffer = (sampleBuffer1, b1) ->
     (Z.of_nat (length sampleBuffer1) < INFERENCE_WINDOW_SAMPLES)%Z ->
     Worker.loop_run NaN (S fuel) now w b sampleBuffer
     = Some (w, b1, Some (Worker.AwaitSleep sampleBuffer1))) /\
  (forall outcome : run_outcome,
     EmotionStore.isInferenceRunning st = false \/
     InferenceService.isInferenceReady svc = false \/
     (Z.of_nat (length (EmotionStore.audioBuffer st))
      < INFERENCE_WINDOW_SAMPLES)%Z ->
     EmotionStore.processAudio outcome inferenceTime now finished svc st
     = (svc, st)) /\
  (forall (fuel : nat) (now' : Z) (b : SharedBuffer R),
     Worker.controlBuffer w = Some SharedView ->
     Worker.dataBuffer w = Some SharedView ->
     wf (Worker.capacity w) b ->
     Worker.isRunning w = true ->
     Worker.session w = Some LoadedSession ->
     (Z.of_nat (length sampleBuffer) <= INFERENCE_WINDOW_SAMPLES * 2)%Z ->
     let w' :=
       fst (Worker.resume_run (Rejected message) inferenceTime now w
              sampleBuffer) in
     let all := sampleBuffer ++ contents NaN (Worker.capacity w) b in
     let sampleBuffer1 :=
       if (Z.of_nat (length all) >? INFERENCE_WINDOW_SAMPLES * 2)%Z
       then slice_from all (- INFERENCE_WINDOW_SAMPLES * 2)
       else all in
     (INFERENCE_WINDOW_SAMPLES <= Z.of_nat (length sampleBuffer1))%Z ->
     ~ calculateRMS (slice_from sampleBuffer1 (- INFERENCE_WINDOW_SAMPLES))
       < NOISE_GATE_THRESHOLD ->
     exists b1,
       Worker.loop_run NaN (S fuel) now' w' b sampleBuffer
       = Some (Worker.set_lastVoicedTimestamp w' now', b1,
               Some (Worker.AwaitRun sampleBuffer1)) /\
       availableRead (Worker.capacity w) b1 = 0%Z) /\
  (forall samples : list R,
     EmotionStore.isInferenceRunning st = true ->
     ~ calculateRMS
         (slice_from (EmotionStore.audioBuffer st)
            (- INFERENCE_WINDOW_SAMPLES))
       < NOISE_GATE_THRESHOLD ->
     let st1 :=
       EmotionStore.addAudioSamples
         (snd (EmotionStore.processAudio (Rejected message) inferenceTime
                 now finished svc st)) samples in
     let all := EmotionStore.audioBuffer st ++ samples in
     EmotionStore.audioBuffer st1
     = drop (Z.to_nat (Z.of_nat (length all) - 9504)) all /\
     slice_from (EmotionStore.audioBuffer st1) (- INFERENCE_WINDOW_SAMPLES)
     = slice_from all (- INFERENCE_WINDOW_SAMPLES)).
Proof.
  split; [|split; [|split; [|split; [|split; [|split; [|split; [|split]]]]]]].
  - cbn [Worker.resume_run]. split; [reflexivity|]. split; [|reflexivity].
    unfold Worker.postMessage. cbn [Worker.posted].
    rewrite predictions_app. cbn. apply app_nil_r.
  - apply processAudio_rejected_voiced.
  - split; [|apply advance_length].
    cbn [Worker.resume_run].
    destruct (finish_inference _ _ _ _). reflexivity.
  - intros fuel b b1 sb1 Hrun Hdrain Hlen Hsilent silence.
    split; [|apply buildSilenceResult_isSilence].
    exact (loop_run_silent fuel now w b b1 sampleBuffer sb1 Hrun Hdrain Hlen
             Hsilent).
  - intros outcome. apply processAudio_result_advances.
  - intros fuel b b1 sb1 Hrun Hdrain Hlen.
    exact (loop_run_short NaN fuel now w b b1 sampleBuffer sb1 Hrun Hdrain
             Hlen).
  - intros outcome. apply processAudio_guarded.
  - intros fuel now' b Hc Hd Hwf Hrun Hs Hsb w' all sb1 Hlen Hvoiced.
    destruct (drain_spec NaN w b sampleBuffer Hc Hd Hwf)
      as (b1 & Hdrain & _ & Hav & _).
    fold all in Hdrain.
    assert (Hsb1 :
      (if (availableRead (Worker.capacity w) b >? 0)%Z
       then if (Z.of_nat (length all) >? INFERENCE_WINDOW_SAMPLES * 2)%Z
            then slice_from all (- INFERENCE_WINDOW_SAMPLES * 2)
            else all
       else sampleBuffer) = sb1).
    { unfold sb1. destruct (Z.gtb_spec (availableRead (Worker.capacity w) b) 0)
        as [_ | Hz]; [reflexivity|].
      pose proof (availableRead_bounds (Worker.capacity w) b Hwf) as Hbd.
      assert (Hempty : contents NaN (Worker.capacity w) b = []).
      { apply contents_empty. lia. }
      unfold all. rewrite Hempty, app_nil_r.
      destruct (Z.gtb_spec (Z.of_nat (length sampleBuffer))
                  (INFERENCE_WINDOW_SAMPLES * 2)); [lia | reflexivity]. }
    rewrite Hsb1 in Hdrain.
    exists b1. split; [|exact Hav].
    apply (loop_run_voiced NaN fuel now' w' b b1 sampleBuffer sb1);
      try assumption.
  - intros samples Hrun Hvoiced st1 all.
    unfold st1.
    rewrite (processAudio_rejected_voiced message inferenceTime now finished
               svc st Hvoiced).
    rewrite (addAudioSamples_running st samples Hrun). fold all.
    split; [reflexivity | apply latest_window_of_latest].
Qed.

End FailedHop.

(** ** Instances and counterexamples *)

Section Instances.
Import RingBuffer.

(** a buffer of capacity 4 that holds one unread sample, 10 *)
Example one_unread_wf :
  wf 4 (snd (write 4 (createRingBuffer 0 4) [10])).
Proof. vm_compute. repeat split; congruence. Qed.

Lemma write_read_fifo_witness :
  let b := snd (write 4 (createRingBuffer 0 4) [10]) in
  exists b1 b2,
    write 4 b [20; 30] = (2, b1) /\
    availableRead 4 b1 = availableRead 4 b + 2 /\
    read (-1) 4 b1 [0; 0] = (2, take 2 (contents (-1) 4 b ++ [20; 30]), b2) /\
    availableRead 4 b2 = availableRead 4 b /\
    (availableRead 4 b = 0 ->
     take 2 (contents (-1) 4 b ++ [20; 30]) = [20; 30]).
Proof.
  intros b.
  apply (write_read_fifo_accounting (-1) 4 b [20; 30] [0; 0]).
  - exact one_unread_wf.
  - vm_compute. congruence.
  - reflexivity.
Defined.

(** C1 as stated fails: with one older sample unread, the read that
    follows the write of [20] returns the older sample, 10. *)
Lemma read_after_write_returns_oldest :
  let b := snd (write 4 (createRingBuffer 0 4) [10]) in
  wf 4 b /\
  1 <= availableWrite 4 b /\
  fst (write 4 b [20]) = 1 /\
  read (-1) 4 (snd (write 4 b [20])) [0]
    = (1, [10], mkShared 2 1 [10; 20; 0; 0]) /\
  [10] <> [20].
Proof.
  split; [exact one_unread_wf|]. vm_compute.
  repeat split; congruence.
Qed.

Lemma one_slot_always_reserved_witness :
  let b := run_ops (-1) 8 (createRingBuffer 0 8)
             [Write [1; 2; 3]; Read [0; 0; 0]] in
  let chunks := [[1; 2; 3; 4; 5]; [6; 7; 8; 9; 10]] in
  availableWrite 8 b <= 7 /\
  exists b',
    push_chunks 8 b chunks = (7, 3, b') /\
    availableRead 8 b' = 7 /\
    availableWrite 8 b' = 0 /\
    isFull 8 b' = true.
Proof.
  intros b chunks.
  destruct (one_slot_always_reserved (-1) 8 0
              [Write [1; 2; 3]; Read [0; 0; 0]] chunks ltac:(lia))
    as [Hle Hfull].
  split; [exact Hle|].
  apply Hfull.
  - reflexivity.
  - vm_compute. congruence.
Defined.

Lemma reset_postcondition_witness :
  let b := snd (write 4 (createRingBuffer 0 4) [5; 6]) in
  (writePtr (writer_reset b) = 0 /\ readPtr (writer_reset b) = 0 /\
   availableRead 4 (writer_reset b) = 0 /\
   availableWrite 4 (writer_reset b) = 4 - 1) /\
  (writePtr (reader_reset b) = writePtr b /\
   readPtr (reader_reset b) = writePtr b /\
   availableRead 4 (reader_reset b) = 0 /\
   availableWrite 4 (reader_reset b) = 4 - 1).
Proof.
  intros b. apply (reset_postcondition 4 b).
  vm_compute. repeat split; congruence.
Defined.

(** C9 as stated fails for the consumer-side reset: after two samples
    were written, it leaves both cursors at 2. *)
Lemma reader_reset_keeps_write_cursor :
  let b := snd (write 4 (createRingBuffer 0 4) [5; 6]) in
  wf 4 b /\
  writePtr (reader_reset b) = 2 /\
  readPtr (reader_reset b) = 2 /\
  readPtr (reader_reset b) <> 0.
Proof. vm_compute. repeat split; congruence. Qed.

End Instances.

Section SmootherInstances.
Local Open Scope R_scope.

Lemma neutral_in_labels : In "neutral"%string EMOTION_LABELS.
Proof. cbn. tauto. Qed.

Lemma ema_update_witness :
  let sm := EmaSmoother.mk EMA_ALPHA (Some NEUTRAL_VECTOR) in
  let raw := probabilitiesToMap [0; 0; 0; 1; 0; 0; 0; 0] in
  get_prop (fst (EmaSmoother.update sm raw)) "neutral" =
    Some (EMA_ALPHA * prop_or_zero raw "neutral"
          + (1 - EMA_ALPHA) * prop_or_zero NEUTRAL_VECTOR "neutral") /\
  fst (EmaSmoother.update (EmaSmoother.mk EMA_ALPHA None) raw) = raw.
Proof.
  intros sm raw.
  destruct (ema_update_correct sm raw) as (Hwith & _).
  destruct (ema_update_correct (EmaSmoother.mk EMA_ALPHA None) raw)
    as (_ & Hwithout & _).
  specialize (Hwith NEUTRAL_VECTOR eq_refl).
  specialize (Hwithout eq_refl).
  destruct (EmaSmoother.update sm raw) as [smoothed sm'].
  destruct Hwith as (_ & Hformula & _).
  split.
  - exact (Hformula "neutral"%string neutral_in_labels).
  - rewrite Hwithout. reflexivity.
Defined.

(** the vector that a first voiced hop leaves when the model is sure of
    "happy" *)
Lemma distance_of_happy :
  distance_to_neutral (probabilitiesToMap [0; 0; 0; 1; 0; 0; 0; 0]) = 2.
Proof.
  unfold distance_to_neutral, sum_list. cbn. unfold prop_or_zero. cbn.
  rewrite !Rminus_diag, Rminus_0_r, Rabs_R0, Rabs_R1.
  replace (0 - 1) with (- (1)) by lra.
  rewrite Rabs_Ropp, Rabs_R1. lra.
Qed.

Lemma silence_gate_witness :
  let happy := probabilitiesToMap [0; 0; 0; 1; 0; 0; 0; 0] in
  let sm := EmaSmoother.mk EMA_ALPHA (Some happy) in
  emotions (fst (buildSilenceResult sm 1000 1500)) = happy /\
  emotions (fst (buildSilenceResult sm 1000 1700)) = happy /\
  distance_to_neutral (emotions (fst (buildSilenceResult sm 1000 1800)))
    = (1 - EMA_ALPHA) * distance_to_neutral happy /\
  distance_to_neutral (emotions (fst (buildSilenceResult sm 1000 1800)))
    < distance_to_neutral happy.
Proof.
  intros happy sm.
  destruct (silence_gate_hold_then_decay sm 1000 1500) as (_ & Hhold & _).
  destruct (silence_gate_hold_then_decay sm 1000 1800) as (_ & _ & Hdecay).
  specialize (Hhold ltac:(lia) ltac:(unfold VOICE_HOLD_MS; lia)).
  specialize (Hdecay ltac:(unfold VOICE_HOLD_MS; lia)).
  destruct (buildSilenceResult sm 1000 1500) as [r1 sm1].
  destruct Hhold as (-> & _ & Hr1 & Hagain).
  specialize (Hagain 1700%Z ltac:(unfold VOICE_HOLD_MS; lia)).
  destruct (buildSilenceResult sm 1000 1800) as [r2 sm2].
  destruct Hdecay as (_ & _ & _ & Hblend).
  destruct (Hblend happy eq_refl) as (_ & Hdist).
  destruct (Hdist ltac:(unfold sm, EMA_ALPHA; cbn; lra)) as (Heq & Hlt).
  cbn [fst]. split; [exact Hr1|]. split; [rewrite Hagain; exact Hr1|].
  split; [exact Heq|].
  apply Hlt. unfold happy. rewrite distance_of_happy. lra.
Defined.

(** C5 as stated fails: from a fresh smoother the first silence hop
    emits the neutral vector, and the second one, blended toward neutral,
    is no closer to it. *)
Lemma silence_decay_not_strict_at_neutral :
  let sm0 := EmaSmoother.constructor EMA_ALPHA in
  let '(r1, sm1) := buildSilenceResult sm0 0 1000 in
  let '(r2, sm2) := buildSilenceResult sm1 0 1150 in
  emotions r1 = NEUTRAL_VECTOR /\
  EmaSmoother.state sm1 = Some NEUTRAL_VECTOR /\
  ~ distance_to_neutral (emotions r2) < distance_to_neutral (emotions r1).
Proof.
  cbv zeta.
  rewrite (silence_decay (EmaSmoother.constructor EMA_ALPHA) 0 1000)
    by (unfold VOICE_HOLD_MS; lia).
  change (EmaSmoother.update (EmaSmoother.constructor EMA_ALPHA) NEUTRAL_VECTOR)
    with (NEUTRAL_VECTOR, EmaSmoother.mk EMA_ALPHA (Some NEUTRAL_VECTOR)).
  cbn [fst snd].
  rewrite (silence_decay (EmaSmoother.mk EMA_ALPHA (Some NEUTRAL_VECTOR)) 0 1150)
    by (unfold VOICE_HOLD_MS; lia).
  rewrite (update_with_state
             (EmaSmoother.mk EMA_ALPHA (Some NEUTRAL_VECTOR))
             NEUTRAL_VECTOR NEUTRAL_VECTOR eq_refl).
  cbn [fst snd emotions EmaSmoother.state EmaSmoother.alpha].
  split; [reflexivity|]. split; [reflexivity|].
  rewrite blend_toward_neutral_distance by (unfold EMA_ALPHA; lra).
  rewrite distance_to_neutral_self. lra.
Qed.

End SmootherInstances.

Section HopInstances.
Local Open Scope R_scope.

Lemma ones_window_voiced :
  ~ calculateRMS
      (slice_from (replicate 2376 1) (- INFERENCE_WINDOW_SAMPLES))
    < NOISE_GATE_THRESHOLD.
Proof.
  rewrite slice_from_whole.
  - apply ones_are_voiced. lia.
  - reflexivity.
  - rewrite length_replicate. reflexivity.
Qed.

Lemma advance_ones_length :
  length (Worker.advance (replicate 2376 1)) = 1%nat.
Proof.
  apply Nat2Z.inj. rewrite advance_length, length_replicate. reflexivity.
Qed.

Lemma failed_hop_keeps_buffer_witness :
  let st := EmotionStore.mk true (replicate 2376 1) [] in
  let svc := InferenceService.mk (Some LoadedSession) true 0
               (EmaSmoother.constructor EMA_ALPHA) in
  let w := Worker.mk (Some LoadedSession) true (Some SharedView)
             (Some SharedView) (Some SharedView) 4096 1000
             (EmaSmoother.constructor EMA_ALPHA)
             [Worker.MsgBufferInitialized; Worker.MsgStarted] in
  snd (Worker.resume_run (Rejected "model failed") 0 1010 w
         (replicate 2376 1))
    = Worker.AwaitSleep (replicate 2376 1) /\
  snd (EmotionStore.processAudio (Rejected "model failed") 0 1000 1010
         svc st) = st /\
  (exists result,
     snd (EmotionStore.processAudio (Resolved [0; 0; 0; 2; 0; 0; 0; 0]) 0
            1000 1010 svc st)
     = EmotionStore.mk true
         (slice_from (replicate 2376 1)
            (Z.min HOP_SIZE_SAMPLES (Z.of_nat (length (replicate 2376 1)))))
         [result]) /\
  slice_from
    (EmotionStore.audioBuffer
       (EmotionStore.addAudioSamples
          (snd (EmotionStore.processAudio (Rejected "model failed") 0 1000
                  1010 svc st)) [0; 0; 0]))
    (- INFERENCE_WINDOW_SAMPLES)
  = slice_from (replicate 2376 1 ++ [0; 0; 0]) (- INFERENCE_WINDOW_SAMPLES).
Proof.
  intros st svc w.
  destruct (failed_hop_keeps_buffer 0 "model failed" [] 0 1010%Z 1010%Z w
              (replicate 2376 1) svc st) as (Hworker & _).
  destruct (failed_hop_keeps_buffer 0 "model failed" [] 0 1000%Z 1010%Z w
              (replicate 2376 1) svc st)
    as (_ & Hstore & _ & _ & Hadvance & _ & _ & _ & Hnext).
  split; [|split; [|split]].
  - destruct (Worker.resume_run (Rejected "model failed") 0 1010 w
                (replicate 2376 1)) as [w' task].
    destruct Hworker as (-> & _). reflexivity.
  - apply Hstore. exact ones_window_voiced.
  - apply (Hadvance (Resolved [0; 0; 0; 2; 0; 0; 0; 0])).
    + reflexivity.
    + reflexivity.
    + cbn [EmotionStore.audioBuffer st]. rewrite length_replicate.
      reflexivity.
    + right. eexists. reflexivity.
  - apply (Hnext [0; 0; 0]); [reflexivity | exact ones_window_voiced].
Defined.

(** C4 as stated fails: the worker reads a voiced window of 2376
    samples and calls the model, the call fails, and the loop goes to
    sleep with all 2376 samples still in its buffer, where an advance by
    the hop would have left one; nothing is posted but the error.  The
    store, on the same window, keeps its buffer too. *)
Lemma failed_hop_does_not_advance :
  let xs := replicate 2376 1 in
  let s0 := Worker.mkWorld (Worker.initial (Some LoadedSession))
              (RingBuffer.createRingBuffer 0 4096) [] in
  let st := EmotionStore.mk true xs [] in
  let svc := InferenceService.mk (Some LoadedSession) true 0
               (EmaSmoother.constructor EMA_ALPHA) in
  (exists s,
     Worker.run 0 s0
       ([Worker.Message (Worker.InitBuffer 4096) 0;
         Worker.Produce xs;
         Worker.Message Worker.Start 1000]
        ++ [Worker.RunSettled 0 (Rejected "model failed") 0 1010]) = Some s /\
     Worker.loops s = [Worker.AwaitSleep xs] /\
     Worker.predictions (Worker.posted (Worker.worker s)) = []) /\
  length xs = 2376%nat /\
  length (Worker.advance xs) = 1%nat /\
  EmotionStore.audioBuffer
    (snd (EmotionStore.processAudio (Rejected "model failed") 0 1000 1010
            svc st)) = xs.
Proof.
  intros xs s0 st svc.
  destruct (start_on_voiced_window 0 4096 xs 1000) as (b & Hrun & _).
  { lia. }
  { unfold xs. rewrite length_replicate. reflexivity. }
  { reflexivity. }
  { apply ones_are_voiced. lia. }
  fold s0 in Hrun.
  split; [|split; [|split]].
  - eexists. rewrite run_app, Hrun. cbn [Worker.run Worker.step Worker.loops].
    cbn [lookup list_lookup Worker.resume_run Worker.worker Worker.shared].
    split; [reflexivity|]. split; reflexivity.
  - apply length_replicate.
  - exact advance_ones_length.
  - rewrite processAudio_rejected_voiced; [reflexivity|].
    exact ones_window_voiced.
Qed.

End HopInstances.

(** * Further properties of the code *)

(** ** The ring buffer as a queue *)

Section RingBufferQueue.
Import RingBuffer RingBufferFacts.
Context {A : Type}.
Variable NaN : A.
Variable capacity : Z.

(** X1.  RingBufferWriter.write places what fits and nothing else: it returns
    [min(samples.length, availableWrite())], appends exactly that many
    samples, the first ones, behind the unread samples, which it leaves in
    place, and lowers [availableWrite()] by the count.  A full buffer
    takes nothing and is not modified. *)
Theorem write_places_what_fits (b : SharedBuffer A) (samples : list A) :
  wf capacity b ->
  let n := Z.min (Z.of_nat (length samples)) (availableWrite capacity b) in
  let '(written, b') := write capacity b samples in
  written = n /\
  0 <= n <= Z.of_nat (length samples) /\
  wf capacity b' /\
  readPtr b' = readPtr b /\
  contents NaN capacity b' = contents NaN capacity b ++ take (Z.to_nat n) samples /\
  availableWrite capacity b' = availableWrite capacity b - n /\
  (availableWrite capacity b = 0 -> b' = b).
Proof.
  intros Hwf n.
  pose proof (available_sum capacity b Hwf) as Hsum.
  pose proof (availableRead_bounds capacity b Hwf) as Hbd.
  destruct (write_spec NaN capacity b samples Hwf)
    as (b' & Hw & Hwf' & Hr' & Hw' & Hc').
  fold n in Hw, Hr', Hw', Hc'.
  assert (Hrp : readPtr (snd (write capacity b samples)) = readPtr b).
  { unfold write. destruct (_ =? 0); [reflexivity|].
    destruct (write_loop _ _ _ _). reflexivity. }
  assert (Hfull : availableWrite capacity b = 0 ->
                  snd (write capacity b samples) = b).
  { intros H0. unfold write. fold (availableWrite capacity b).
    rewrite H0. replace (Z.of_nat (length samples) `min` 0) with 0 by lia.
    reflexivity. }
  rewrite Hw in Hrp, Hfull |- *. cbn [snd] in Hrp, Hfull.
  repeat (split; [first [reflexivity|assumption|lia]|]). exact Hfull.
Qed.

(** X2.  RingBufferReader.read delivers the oldest samples: it returns
    [min(destination.length, availableRead())], overwrites that many
    leading cells of the destination with the oldest unread samples in
    write order, leaves the rest of the destination and the write cursor
    alone, and removes exactly the delivered samples from the buffer.  An
    empty buffer gives 0 and changes nothing. *)
Theorem read_delivers_oldest (b : SharedBuffer A) (destination : list A) :
  wf capacity b ->
  let n := Z.min (Z.of_nat (length destination)) (availableRead capacity b) in
  let '(count, destination', b') := read NaN capacity b destination in
  count = n /\
  destination' =
    take (Z.to_nat n) (contents NaN capacity b) ++ drop (Z.to_nat n) destination /\
  length destination' = length destination /\
  wf capacity b' /\
  writePtr b' = writePtr b /\
  contents NaN capacity b' = drop (Z.to_nat n) (contents NaN capacity b) /\
  (availableRead capacity b = 0 -> b' = b /\ destination' = destination).
Proof.
  intros Hwf n.
  pose proof (availableRead_bounds capacity b Hwf) as Hbd.
  destruct (read_spec NaN capacity b destination Hwf)
    as (b' & Hrd & Hwf' & Hwp & Ha' & Hc').
  fold n in Hrd, Ha', Hc'.
  assert (Hempty : availableRead capacity b = 0 ->
                   read NaN capacity b destination = (0, destination, b)).
  { intros H0. unfold read. rewrite H0.
    replace (Z.of_nat (length destination) `min` 0) with 0 by lia.
    reflexivity. }
  rewrite Hrd. split; [reflexivity|]. split; [reflexivity|].
  split.
  { rewrite length_app, length_take, length_drop, contents_length. lia. }
  split; [exact Hwf'|]. split; [exact Hwp|]. split; [exact Hc'|].
  intros H0. rewrite (Hempty H0) in Hrd. injection Hrd as _ Hd Hb.
  split; congruence.
Qed.

(** X3.  RingBufferReader.peek returns the count and the data that [read]
    would return, for every state of the buffer, and has no access to the
    cursors: a [read] after any number of peeks is the [read] without
    them. *)
Theorem peek_is_read_without_advance (b : SharedBuffer A) (destination : list A) :
  peek NaN capacity b destination = fst (read NaN capacity b destination).
Proof.
  unfold peek, read.
  destruct (_ =? 0); [reflexivity|].
  destruct (read_loop _ _ _ _ _ _ _). reflexivity.
Qed.

Lemma run_logged_invariant (os : list (op (A:=A))) :
  forall (b : SharedBuffer A) (accepted delivered : list A),
    wf capacity b ->
    forallb (fun o => negb (is_reset o)) os = true ->
    accepted = delivered ++ contents NaN capacity b ->
    let '(b', accepted', delivered') :=
      run_logged NaN capacity b os accepted delivered in
    wf capacity b' /\
    b' = run_ops NaN capacity b os /\
    accepted' = delivered' ++ contents NaN capacity b'.
Proof.
  induction os as [|o os IH]; intros b accepted delivered Hwf Hno Hinv.
  - cbn. auto.
  - cbn [forallb] in Hno. apply andb_true_iff in Hno as [Ho Hno].
    destruct o as [samples | destination | destination | |];
      try discriminate Ho; cbn [run_logged].
    + destruct (write_spec NaN capacity b samples Hwf)
        as (b1 & Hw & Hwf1 & _ & _ & Hc1).
      rewrite Hw.
      specialize (IH b1 (accepted ++ take (Z.to_nat (Z.of_nat (length samples)
                                             `min` availableWrite capacity b))
                                        samples) delivered Hwf1 Hno).
      destruct (run_logged _ _ _ _ _ _) as [[b' acc'] del'].
      destruct IH as (Hwf' & Hb' & Hacc').
      { rewrite Hc1, Hinv, app_assoc. reflexivity. }
      split; [exact Hwf'|]. split; [|exact Hacc'].
      rewrite Hb'. unfold run_ops. cbn [foldl run_op]. rewrite Hw.
      reflexivity.
    + destruct (read_spec NaN capacity b destination Hwf)
        as (b1 & Hr & Hwf1 & _ & _ & Hc1).
      pose proof (availableRead_bounds capacity b Hwf) as Hbd.
      set (n := Z.of_nat (length destination) `min` availableRead capacity b)
        in *.
      rewrite Hr.
      assert (Htake :
        take (Z.to_nat n)
          (take (Z.to_nat n) (contents NaN capacity b)
           ++ drop (Z.to_nat n) destination)
        = take (Z.to_nat n) (contents NaN capacity b)).
      { rewrite take_app_le, take_take.
        - f_equal. lia.
        - rewrite length_take, contents_length. lia. }
      rewrite Htake.
      specialize (IH b1 accepted
                    (delivered ++ take (Z.to_nat n) (contents NaN capacity b))
                    Hwf1 Hno).
      destruct (run_logged _ _ _ _ _ _) as [[b' acc'] del'].
      destruct IH as (Hwf' & Hb' & Hacc').
      { rewrite Hc1, Hinv, <- app_assoc, take_drop. reflexivity. }
      split; [exact Hwf'|]. split; [|exact Hacc'].
      rewrite Hb'. unfold run_ops. cbn [foldl run_op]. rewrite Hr.
      reflexivity.
    + specialize (IH b accepted delivered Hwf Hno Hinv).
      cbn [run_op].
      destruct (run_logged _ _ _ _ _ _) as [[b' acc'] del'].
      exact IH.
Qed.

(** X4.  First in, first out, nothing lost and nothing invented.  On a buffer
    made by createRingBuffer, after any sequence of [write], [read] and
    [peek] calls, the samples accepted by the writes, in order, are the
    samples delivered by the reads, in order, followed by the samples
    still unread: what the consumer has received is a prefix of what the
    producer has placed. *)
Theorem fifo_stream_order (zero : A) (os : list (op (A:=A))) :
  0 < capacity < 2 ^ 31 ->
  forallb (fun o => negb (is_reset o)) os = true ->
  let '(b, accepted, delivered) :=
    run_logged NaN capacity (createRingBuffer zero capacity) os [] [] in
  b = run_ops NaN capacity (createRingBuffer zero capacity) os /\
  accepted = delivered ++ contents NaN capacity b /\
  Z.of_nat (length accepted) - Z.of_nat (length delivered)
    = availableRead capacity b.
Proof.
  intros Hc Hno.
  pose proof (run_logged_invariant os (createRingBuffer zero capacity) [] []
                (createRingBuffer_wf capacity zero Hc) Hno eq_refl) as H.
  destruct (run_logged _ _ _ _ _ _) as [[b acc] del].
  destruct H as (Hwf & Hb & Hacc).
  split; [exact Hb|]. split; [exact Hacc|].
  pose proof (availableRead_bounds capacity b Hwf).
  rewrite Hacc, length_app, contents_length. lia.
Qed.

(** X5.  The cursors stay inside the data area and the two counts always add
    up: on a buffer made by createRingBuffer, after any sequence of
    calls, resets included, both cursors are in [0, capacity), the data
    area still has [capacity] cells, and
    [availableRead() + availableWrite() = capacity - 1]. *)
Theorem cursors_stay_in_range (zero : A) (os : list (op (A:=A))) :
  0 < capacity < 2 ^ 31 ->
  let b := run_ops NaN capacity (createRingBuffer zero capacity) os in
  0 <= writePtr b < capacity /\
  0 <= readPtr b < capacity /\
  Z.of_nat (length (sharedData b)) = capacity /\
  0 <= availableRead capacity b /\
  0 <= availableWrite capacity b /\
  availableRead capacity b + availableWrite capacity b = capacity - 1 /\
  (isEmpty capacity b = true <-> writePtr b = readPtr b) /\
  (isFull capacity b = true <-> availableRead capacity b = capacity - 1).
Proof.
  intros Hc b.
  assert (Hwf : wf capacity b)
    by (apply run_ops_wf, createRingBuffer_wf, Hc).
  pose proof (available_sum capacity b Hwf) as Hsum.
  pose proof (availableRead_bounds capacity b Hwf) as Hbd.
  destruct Hwf as (_ & Hw & Hr & Hl).
  repeat (split; [first [assumption|lia]|]).
  split.
  - unfold isEmpty. rewrite Z.eqb_eq. unfold availableRead.
    destruct (Z.geb_spec (writePtr b) (readPtr b)); lia.
  - unfold isFull. rewrite Z.eqb_eq. lia.
Qed.

End RingBufferQueue.

Section RingBufferQueueInstances.
Import RingBuffer.

Lemma write_places_what_fits_witness :
  let b := snd (write 4 (createRingBuffer 0 4) [10; 20]) in
  let '(written, b') := write 4 b [30; 40; 50] in
  written = 1 /\
  contents (-1) 4 b' = [10; 20; 30] /\
  availableWrite 4 b' = 0.
Proof.
  intros b.
  pose proof (write_places_what_fits (-1) 4 b [30; 40; 50]) as H.
  destruct (write 4 b [30; 40; 50]) as [written b'].
  destruct H as (Hn & _ & _ & _ & Hc & Hw & _).
  { vm_compute. repeat split; congruence. }
  split; [exact Hn|]. split; [exact Hc | exact Hw].
Defined.

Lemma read_delivers_oldest_witness :
  let b := snd (write 4 (createRingBuffer 0 4) [10; 20]) in
  let '(count, destination', b') := read (-1) 4 b [7; 7; 7] in
  count = 2 /\ destination' = [10; 20; 7] /\ contents (-1) 4 b' = [].
Proof.
  intros b.
  pose proof (read_delivers_oldest (-1) 4 b [7; 7; 7]) as H.
  destruct (read (-1) 4 b [7; 7; 7]) as [[count destination'] b'].
  destruct H as (Hn & Hd & _ & _ & _ & Hc & _).
  { vm_compute. repeat split; congruence. }
  split; [exact Hn|]. split; [exact Hd | exact Hc].
Defined.

Lemma fifo_stream_order_witness :
  let os := [Write [1; 2; 3]; Read [0; 0]; Write [4; 5; 6]; Peek [0];
             Read [0; 0; 0; 0]] in
  let '(b, accepted, delivered) :=
    run_logged (-1) 4 (createRingBuffer 0 4) os [] [] in
  accepted = delivered ++ contents (-1) 4 b /\
  Z.of_nat (length accepted) - Z.of_nat (length delivered)
    = availableRead 4 b.
Proof.
  intros os.
  pose proof (fifo_stream_order (-1) 4 0 os ltac:(lia) eq_refl) as H.
  destruct (run_logged (-1) 4 (createRingBuffer 0 4) os [] [])
    as [[b accepted] delivered].
  destruct H as (_ & Hacc & Hlen). split; assumption.
Defined.

Lemma cursors_stay_in_range_witness :
  let b := run_ops (-1) 4 (createRingBuffer 0 4)
             [Write [1; 2; 3; 4; 5]; ReaderReset; Write [6]; WriterReset] in
  availableRead 4 b + availableWrite 4 b = 4 - 1.
Proof.
  intros b.
  apply (cursors_stay_in_range (-1) 4 0
           [Write [1; 2; 3; 4; 5]; ReaderReset; Write [6]; WriterReset]).
  lia.
Defined.

End RingBufferQueueInstances.

(** ** From the worklet to the worker's accumulation buffer *)

Section Transport.
Import RingBuffer RingBufferFacts.
Variable NaN : R.

Lemma writeToBuffer_is_write {A : Type} (p : AudioProcessor.t)
    (b : SharedBuffer A) (samples : list A) :
  AudioProcessor.isInitialized p = true ->
  AudioProcessor.controlBuffer p = Some SharedView ->
  AudioProcessor.dataBuffer p = Some SharedView ->
  AudioProcessor.writeToBuffer p b samples
  = write (AudioProcessor.capacity p) b samples.
Proof.
  intros Hi Hc Hd. unfold AudioProcessor.writeToBuffer. rewrite Hi, Hc, Hd.
  reflexivity.
Qed.

Lemma slice_from_length {A : Type} (l : list A) (n : Z) :
  0 < n -> n < Z.of_nat (length l) ->
  Z.of_nat (length (slice_from l (- n))) = n.
Proof.
  intros Hn Hlen. unfold slice_from.
  destruct (Z.ltb_spec (- n) 0) as [_ | Hge]; [|lia].
  rewrite length_drop, Z.opp_involutive. lia.
Qed.

(** X6.  Transport.  When the worklet and the worker hold views of one
    buffer with the same capacity, a block handed to [writeToBuffer] and
    then drained by the worker's loop reaches the loop's [sampleBuffer]
    intact and in order, behind the samples that were already waiting:
    [sampleBuffer] becomes its former content, then the unread samples,
    then the [written] first samples of the block, cut to its latest
    [2 * 2376] samples when longer.  The ring buffer is empty
    afterwards. *)
Theorem worklet_to_worker_transport
    (p : AudioProcessor.t) (w : Worker.t) (b : SharedBuffer R)
    (samples sampleBuffer : list R) :
  AudioProcessor.isInitialized p = true ->
  AudioProcessor.controlBuffer p = Some SharedView ->
  AudioProcessor.dataBuffer p = Some SharedView ->
  Worker.controlBuffer w = Some SharedView ->
  Worker.dataBuffer w = Some SharedView ->
  AudioProcessor.capacity p = Worker.capacity w ->
  wf (Worker.capacity w) b ->
  Z.of_nat (length sampleBuffer) <= INFERENCE_WINDOW_SAMPLES * 2 ->
  let '(written, b1) := AudioProcessor.writeToBuffer p b samples in
  let '(sampleBuffer', b2) := Worker.drain NaN w b1 sampleBuffer in
  let all :=
    sampleBuffer ++ contents NaN (Worker.capacity w) b
    ++ take (Z.to_nat written) samples in
  written = Z.min (Z.of_nat (length samples))
              (availableWrite (Worker.capacity w) b) /\
  sampleBuffer' =
    (if Z.of_nat (length all) >? INFERENCE_WINDOW_SAMPLES * 2
     then slice_from all (- INFERENCE_WINDOW_SAMPLES * 2)
     else all) /\
  Z.of_nat (length sampleBuffer') <= INFERENCE_WINDOW_SAMPLES * 2 /\
  availableRead (Worker.capacity w) b2 = 0.
Proof.
  intros Hi Hpc Hpd Hc Hd Hcap Hwf Hsb.
  rewrite writeToBuffer_is_write by assumption. rewrite Hcap.
  destruct (write_spec NaN (Worker.capacity w) b samples Hwf)
    as (b1 & Hw & Hwf1 & Hr1 & _ & Hc1).
  rewrite Hw.
  destruct (drain_spec NaN w b1 sampleBuffer Hc Hd Hwf1)
    as (b2 & Hdr & Hwf2 & Hr2 & _).
  rewrite Hdr, Hc1.
  set (n := Z.of_nat (length samples)
            `min` availableWrite (Worker.capacity w) b) in *.
  set (all := sampleBuffer ++ contents NaN (Worker.capacity w) b
              ++ take (Z.to_nat n) samples).
  assert (HW : INFERENCE_WINDOW_SAMPLES * 2 = 4752) by reflexivity.
  assert (Hres :
    (if availableRead (Worker.capacity w) b1 >? 0
     then if Z.of_nat (length all) >? INFERENCE_WINDOW_SAMPLES * 2
          then slice_from all (- INFERENCE_WINDOW_SAMPLES * 2)
          else all
     else sampleBuffer)
    = (if Z.of_nat (length all) >? INFERENCE_WINDOW_SAMPLES * 2
       then slice_from all (- INFERENCE_WINDOW_SAMPLES * 2)
       else all)).
  { destruct (Z.gtb_spec (availableRead (Worker.capacity w) b1) 0)
      as [_ | Hz]; [reflexivity|].
    pose proof (availableRead_bounds _ b1 Hwf1) as Hb1.
    assert (Hnil : contents NaN (Worker.capacity w) b
                   ++ take (Z.to_nat n) samples = []).
    { rewrite <- Hc1. apply contents_empty. lia. }
    unfold all. rewrite Hnil, app_nil_r.
    destruct (Z.gtb_spec (Z.of_nat (length sampleBuffer))
                (INFERENCE_WINDOW_SAMPLES * 2)); [lia|reflexivity]. }
  rewrite Hres.
  split; [reflexivity|]. split; [reflexivity|]. split; [|exact Hr2].
  destruct (Z.gtb_spec (Z.of_nat (length all)) (INFERENCE_WINDOW_SAMPLES * 2))
    as [Hgt | Hle]; [|lia].
  replace (- INFERENCE_WINDOW_SAMPLES * 2)
    with (- (INFERENCE_WINDOW_SAMPLES * 2)) by lia.
  rewrite slice_from_length; lia.
Qed.

End Transport.

Lemma worklet_to_worker_transport_witness :
  let p := AudioProcessor.initializeBuffer (AudioProcessor.constructor 16000) 8 in
  let w := Worker.initializeBuffer (Worker.initial (Some LoadedSession)) 8 in
  let b := RingBuffer.createRingBuffer 0%R 8 in
  let '(written, b1) := AudioProcessor.writeToBuffer p b [1; 2; 3]%R in
  let '(sampleBuffer', b2) := Worker.drain 0%R w b1 [9]%R in
  written = 3 /\ RingBuffer.availableRead 8 b2 = 0.
Proof.
  intros p w b.
  pose proof (worklet_to_worker_transport 0%R p w b [1; 2; 3]%R [9]%R
                eq_refl eq_refl eq_refl eq_refl eq_refl eq_refl) as H.
  destruct (AudioProcessor.writeToBuffer p b [1; 2; 3]%R) as [written b1].
  destruct (Worker.drain 0%R w b1 [9]%R) as [sampleBuffer' b2].
  destruct H as (Hw & _ & _ & Hr).
  - apply (RingBufferFacts.createRingBuffer_wf 8 0%R). lia.
  - unfold INFERENCE_WINDOW_SAMPLES. cbn. lia.
  - split; [|exact Hr]. rewrite Hw. reflexivity.
Defined.

(** ** One synchronous run of the worker's loop *)

Section LoopRun.
Import RingBuffer RingBufferFacts.
Variable NaN : R.

Lemma silent_extension_refl (w : Worker.t) : Worker.silent_extension w w.
Proof.
  unfold Worker.silent_extension. repeat (split; [reflexivity|]).
  exists []. split; [symmetry; apply app_nil_r | constructor].
Qed.

Lemma silent_extension_trans (w1 w2 w3 : Worker.t) :
  Worker.silent_extension w1 w2 -> Worker.silent_extension w2 w3 -> Worker.silent_extension w1 w3.
Proof.
  intros (Ha & Hb & Hc & Hd & He & Hf & ps & Hp & Hs)
         (Ha' & Hb' & Hc' & Hd' & He' & Hf' & ps' & Hp' & Hs').
  unfold Worker.silent_extension.
  repeat (split; [congruence|]).
  exists (ps ++ ps'). split.
  - rewrite Hp', Hp, map_app, app_assoc. reflexivity.
  - apply Forall_app. split; assumption.
Qed.

Lemma loop_run_spec (now : Z) (fuel : nat) :
  forall (w : Worker.t) (b : SharedBuffer R) (sampleBuffer : list R),
    Worker.controlBuffer w = Some SharedView ->
    Worker.dataBuffer w = Some SharedView ->
    wf (Worker.capacity w) b ->
    Z.of_nat (length sampleBuffer) <= INFERENCE_WINDOW_SAMPLES * 2 ->
    (length sampleBuffer
     + Z.to_nat (availableRead (Worker.capacity w) b) + 2 <= fuel)%nat ->
    exists w' b' t,
      Worker.loop_run NaN fuel now w b sampleBuffer = Some (w', b', t) /\
      Worker.silent_extension w w' /\
      wf (Worker.capacity w) b' /\
      writePtr b' = writePtr b /\
      match t with
      | None => Worker.isRunning w = false /\ w' = w /\ b' = b
      | Some task =>
          Worker.isRunning w = true /\
          availableRead (Worker.capacity w) b' = 0 /\
          Z.of_nat (length (Worker.task_buffer task))
            <= INFERENCE_WINDOW_SAMPLES * 2 /\
          match task with
          | Worker.AwaitRun sampleBuffer' =>
              INFERENCE_WINDOW_SAMPLES <= Z.of_nat (length sampleBuffer') /\
              Worker.lastVoicedTimestamp w' = now
          | Worker.AwaitSleep _ => True
          end
      end.
Proof.
  assert (HW : INFERENCE_WINDOW_SAMPLES = 2376) by reflexivity.
  assert (HH : HOP_SIZE_SAMPLES = 2375) by reflexivity.
  induction fuel as [|fuel IH]; intros w b sb Hc Hd Hwf Hsb Hfuel; [lia|].
  cbn [Worker.loop_run].
  destruct (Worker.isRunning w) eqn:Hrun; cbn [negb].
  2:{ exists w, b, None. split; [reflexivity|].
      split; [apply silent_extension_refl|]. split; [exact Hwf|].
      repeat split; auto. }
  destruct (drain_spec NaN w b sb Hc Hd Hwf) as (b1 & Hdr & Hwf1 & Hr1 & Hwp1).
  pose proof (availableRead_bounds _ b Hwf) as Hbd.
  rewrite Hdr.
  set (sb1 := if availableRead (Worker.capacity w) b >? 0
              then if Z.of_nat (length (sb ++ contents NaN (Worker.capacity w) b))
                      >? INFERENCE_WINDOW_SAMPLES * 2
                   then slice_from (sb ++ contents NaN (Worker.capacity w) b)
                          (- INFERENCE_WINDOW_SAMPLES * 2)
                   else sb ++ contents NaN (Worker.capacity w) b
              else sb).
  assert (Hsb1 : Z.of_nat (length sb1) <= INFERENCE_WINDOW_SAMPLES * 2 /\
                 Z.of_nat (length sb1)
                 <= Z.of_nat (length sb)
                    + availableRead (Worker.capacity w) b).
  { unfold sb1.
    destruct (Z.gtb_spec (availableRead (Worker.capacity w) b) 0); [|lia].
    destruct (Z.gtb_spec
                (Z.of_nat (length (sb ++ contents NaN (Worker.capacity w) b)))
                (INFERENCE_WINDOW_SAMPLES * 2)) as [Hgt | Hle].
    - replace (- INFERENCE_WINDOW_SAMPLES * 2)
        with (- (INFERENCE_WINDOW_SAMPLES * 2)) by lia.
      rewrite slice_from_length by lia.
      rewrite length_app, contents_length in Hgt. lia.
    - rewrite length_app, contents_length in Hle |- *. lia. }
  destruct Hsb1 as [Hcap Hgrow].
  destruct (Z.geb_spec (Z.of_nat (length sb1)) INFERENCE_WINDOW_SAMPLES)
    as [Hfull | Hshort].
  2:{ exists w, b1, (Some (Worker.AwaitSleep sb1)).
      split; [reflexivity|]. split; [apply silent_extension_refl|].
      split; [exact Hwf1|].
      cbn [Worker.task_buffer]. repeat split; auto. }
  destruct (Rlt_dec _ _) as [Hsilent | Hvoiced].
  - destruct (buildSilencePayload (Worker.probabilitySmoother w)
                (Worker.lastVoicedTimestamp w) now) as [payload sm] eqn:Hbs.
    set (w1 := Worker.postMessage (Worker.set_probabilitySmoother w sm)
                 (Worker.MsgPrediction payload)).
    assert (Hext : Worker.silent_extension w w1).
    { unfold Worker.silent_extension, w1. cbn.
      repeat (split; [reflexivity|]).
      exists [payload]. split; [reflexivity|].
      constructor; [|constructor].
      pose proof (buildSilenceResult_isSilence (Worker.probabilitySmoother w)
                    (Worker.lastVoicedTimestamp w) now) as Hs.
      unfold buildSilencePayload in Hbs. rewrite Hbs in Hs. exact Hs. }
    pose proof (advance_length sb1) as Hadv.
    destruct (IH w1 b1 (Worker.advance sb1) Hc Hd Hwf1)
      as (w' & b' & t & Hrun' & Hext' & Hwf' & Hwp' & Ht).
    + lia.
    + change (Worker.capacity w1) with (Worker.capacity w). rewrite Hr1. lia.
    + exists w', b', t. split; [exact Hrun'|].
      split; [eapply silent_extension_trans; eassumption|].
      split; [exact Hwf'|]. split; [congruence|].
      destruct t as [task|].
      * destruct Ht as (_ & Ht). split; [reflexivity|]. exact Ht.
      * destruct Ht as (Hf & _).
        change (Worker.isRunning w1) with (Worker.isRunning w) in Hf.
        congruence.
  - cbn [Worker.set_lastVoicedTimestamp Worker.session].
    assert (Hext : Worker.silent_extension w (Worker.set_lastVoicedTimestamp w now)).
    { unfold Worker.silent_extension. cbn. repeat (split; [reflexivity|]).
      exists []. split; [symmetry; apply app_nil_r | constructor]. }
    destruct (Worker.session w).
    + exists (Worker.set_lastVoicedTimestamp w now), b1,
        (Some (Worker.AwaitRun sb1)).
      split; [reflexivity|]. split; [exact Hext|]. split; [exact Hwf1|].
      cbn [Worker.task_buffer]. repeat split; auto; lia.
    + exists (Worker.set_lastVoicedTimestamp w now), b1,
        (Some (Worker.AwaitSleep sb1)).
      split; [reflexivity|]. split; [exact Hext|]. split; [exact Hwf1|].
      cbn [Worker.task_buffer]. repeat split; auto; lia.
Qed.

(** X7.  A synchronous run of [inferenceLoop] always reaches an [await] or
    the end of the loop (every [continue] follows an advance of the
    buffer).  On the way it posts nothing but silence predictions and
    changes nothing in the worker but the smoother, the voiced timestamp
    and the posted messages; it never moves the write cursor.  When
    [isRunning] is false the loop ends at once, without reading or
    posting.  Otherwise it suspends with the ring buffer drained and with
    at most [2 * 2376] samples in its accumulation buffer; when it
    suspends at [session.run], a full window is there and the voiced
    timestamp is the current time. *)
Theorem loop_run_reaches_an_await (now : Z) (w : Worker.t)
    (b : SharedBuffer R) (sampleBuffer : list R) :
  Worker.controlBuffer w = Some SharedView ->
  Worker.dataBuffer w = Some SharedView ->
  wf (Worker.capacity w) b ->
  Z.of_nat (length sampleBuffer) <= INFERENCE_WINDOW_SAMPLES * 2 ->
  exists w' b' t,
    Worker.loop_run NaN (Worker.loop_fuel w b sampleBuffer) now w b
      sampleBuffer = Some (w', b', t) /\
    Worker.silent_extension w w' /\
    wf (Worker.capacity w) b' /\
    writePtr b' = writePtr b /\
    match t with
    | None => Worker.isRunning w = false /\ w' = w /\ b' = b
    | Some task =>
        Worker.isRunning w = true /\
        availableRead (Worker.capacity w) b' = 0 /\
        Z.of_nat (length (Worker.task_buffer task))
          <= INFERENCE_WINDOW_SAMPLES * 2 /\
        match task with
        | Worker.AwaitRun sampleBuffer' =>
            INFERENCE_WINDOW_SAMPLES <= Z.of_nat (length sampleBuffer') /\
            Worker.lastVoicedTimestamp w' = now
        | Worker.AwaitSleep _ => True
        end
    end.
Proof.
  intros Hc Hd Hwf Hsb. apply loop_run_spec; try assumption.
  unfold Worker.loop_fuel.
  rewrite getAvailableSamples_is_availableRead by exact Hc. lia.
Qed.

(** *** Traces *)

Lemma loop_run_not_running (fuel : nat) (now : Z) (w : Worker.t)
    (b : SharedBuffer R) (sampleBuffer : list R) :
  Worker.isRunning w = false ->
  Worker.loop_run NaN (S fuel) now w b sampleBuffer = Some (w, b, None).
Proof. intros H. cbn [Worker.loop_run]. rewrite H. reflexivity. Qed.

Lemma predictions_snoc_other (ms : list Worker.posted_message)
    (m : Worker.posted_message) :
  (forall p, m <> Worker.MsgPrediction p) ->
  Worker.predictions (ms ++ [m]) = Worker.predictions ms.
Proof.
  intros Hm. rewrite predictions_app.
  destruct m; cbn; try apply app_nil_r.
  exfalso. eapply Hm. reflexivity.
Qed.

Lemma forallb_delete {B : Type} (f : B -> bool) (l : list B) (i : nat) :
  forallb f l = true -> forallb f (delete i l) = true.
Proof.
  revert i. induction l as [|x l IH]; intros i H; [destruct i; exact H|].
  cbn [forallb] in H. apply andb_true_iff in H as [Hx Hl].
  destruct i as [|i]; cbn; [exact Hl|].
  rewrite Hx. cbn. apply IH, Hl.
Qed.

(** what the end of an [init] handler changes: the session and, with a
    buffer in the message, the views; it posts no prediction *)
Lemma init_resume_spec (outcome : Worker.load_outcome)
    (sharedBuffer : option Z) (w : Worker.t) :
  let w' := Worker.init_resume outcome sharedBuffer w in
  Worker.isRunning w' = Worker.isRunning w /\
  Worker.predictions (Worker.posted w') = Worker.predictions (Worker.posted w) /\
  Worker.session w'
  = (match outcome with
     | Worker.Loaded => Some LoadedSession
     | Worker.LoadFailed _ => Worker.session w
     end) /\
  Worker.sharedBuffer w'
  = (match outcome, sharedBuffer with
     | Worker.Loaded, Some _ => Some SharedView
     | _, _ => Worker.sharedBuffer w
     end).
Proof.
  destruct outcome as [|message], sharedBuffer as [cap|];
    unfold Worker.init_resume, Worker.initializeBuffer, Worker.postMessage,
      Worker.set_session;
    cbn [Worker.isRunning Worker.posted Worker.session Worker.sharedBuffer
         Worker.controlBuffer Worker.dataBuffer Worker.capacity
         Worker.lastVoicedTimestamp Worker.probabilitySmoother];
    (split; [reflexivity|]); (split; [|split; reflexivity]);
    rewrite ?predictions_app; cbn; rewrite ?app_nil_r; reflexivity.
Qed.

(** X8.  What [stop] does achieve.  Once [isRunning] is false and no loop is
    waiting for [session.run], no prediction is posted until the next
    [start] message, whatever else happens (messages other than [start],
    sleeps that end, samples written by the producer): a loop that wakes
    from its sleep ends without reading the ring buffer and without
    posting, and no loop is launched. *)
Theorem stopped_worker_posts_no_prediction (es : list Worker.event) :
  forall s s' : Worker.world,
    Worker.isRunning (Worker.worker s) = false ->
    forallb Worker.is_sleeping (Worker.loops s) = true ->
    forallb (fun e => negb (Worker.is_start e)) es = true ->
    Worker.run NaN s es = Some s' ->
    Worker.predictions (Worker.posted (Worker.worker s'))
      = Worker.predictions (Worker.posted (Worker.worker s)) /\
    Worker.isRunning (Worker.worker s') = false /\
    forallb Worker.is_sleeping (Worker.loops s') = true /\
    (length (Worker.loops s') <= length (Worker.loops s))%nat /\
    readPtr (Worker.shared s') = readPtr (Worker.shared s).
Proof.
  induction es as [|e es IH]; intros s s' Hrun Hsleep Hno Hgo.
  - cbn in Hgo. injection Hgo as <-. auto.
  - cbn [forallb] in Hno. apply andb_true_iff in Hno as [He Hno].
    cbn [Worker.run] in Hgo.
    destruct (Worker.step NaN s e) as [s1|] eqn:Hstep; [|discriminate].
    assert (Hs1 :
      Worker.predictions (Worker.posted (Worker.worker s1))
        = Worker.predictions (Worker.posted (Worker.worker s)) /\
      Worker.isRunning (Worker.worker s1) = false /\
      forallb Worker.is_sleeping (Worker.loops s1) = true /\
      (length (Worker.loops s1) <= length (Worker.loops s))%nat /\
      readPtr (Worker.shared s1) = readPtr (Worker.shared s)).
    { destruct s as [w b l ld]. cbn in Hrun, Hsleep |- *.
      destruct e as [m now | i load | i outcome it now | i now | samples].
      - destruct m as [sb | cap | | | |]; cbn in Hstep, He;
          try discriminate He; injection Hstep as <-; cbn;
          rewrite ?app_nil_r; repeat split; auto;
          apply predictions_snoc_other; discriminate.
      - cbn in Hstep. destruct (ld !! i) as [sb|]; [|discriminate Hstep].
        injection Hstep as <-. cbn.
        destruct (init_resume_spec load sb w) as (Hi & Hp & _).
        cbv zeta in Hi, Hp. rewrite Hi, Hp. repeat split; auto.
      - cbn in Hstep. destruct (l !! i) as [[sb|sb]|] eqn:Hl;
          try discriminate Hstep.
        exfalso. apply list_elem_of_lookup_2 in Hl.
        rewrite forallb_forall in Hsleep.
        apply list_elem_of_In, Hsleep in Hl. discriminate Hl.
      - cbn [Worker.step Worker.worker Worker.shared Worker.loops] in Hstep.
        destruct (l !! i) as [[sb|sb]|] eqn:Hl; try discriminate Hstep.
        unfold Worker.loop_fuel in Hstep.
        rewrite loop_run_not_running in Hstep by exact Hrun.
        injection Hstep as <-. cbn.
        repeat split; auto.
        + apply forallb_delete, Hsleep.
        + rewrite length_delete by (rewrite Hl; eauto). lia.
      - cbn in Hstep. injection Hstep as <-. cbn.
        repeat split; auto.
        unfold write. destruct (_ =? 0); [reflexivity|].
        destruct (write_loop _ _ _ _). reflexivity. }
    destruct Hs1 as (Hp1 & Hr1 & Hsl1 & Hlen1 & Hrp1).
    destruct (IH s1 s' Hr1 Hsl1 Hno Hgo) as (Hp & Hr & Hsl & Hlen & Hrp).
    repeat split; auto; try congruence. lia.
Qed.

(** X9.  A worker that has no model and in which no model load succeeds,
    or that has no buffer and is given none (no [initBuffer], no [init]
    that carries a buffer, sent or still pending), does not start: each
    [start] is answered with the error message, and whatever the
    sequence of events no loop exists, [isRunning] stays false, no
    prediction is posted and the read cursor of the shared memory is
    never moved.  An [init] that carries the buffer does make the worker
    startable: once its model load has succeeded, [start] is answered
    with ["started"] and launches the loop. *)
Theorem worker_does_not_start_without_model_or_buffer
    (es : list Worker.event) :
  (forall s s' : Worker.world,
     (Worker.session (Worker.worker s) = None /\
      forallb (fun e => negb (Worker.is_loaded e)) es = true) \/
     (Worker.sharedBuffer (Worker.worker s) = None /\
      Forall (fun sharedBuffer => sharedBuffer = None) (Worker.loading s) /\
      forallb (fun e => negb (Worker.is_initBuffer e)
                        && negb (Worker.is_init_with_buffer e)) es = true) ->
     Worker.isRunning (Worker.worker s) = false ->
     Worker.loops s = [] ->
     Worker.run NaN s es = Some s' ->
     Worker.loops s' = [] /\
     Worker.isRunning (Worker.worker s') = false /\
     Worker.predictions (Worker.posted (Worker.worker s'))
       = Worker.predictions (Worker.posted (Worker.worker s)) /\
     readPtr (Worker.shared s') = readPtr (Worker.shared s) /\
     (forall now,
        Worker.onmessage NaN now Worker.Start (Worker.worker s')
          (Worker.shared s')
        = Some (Worker.postMessage (Worker.worker s')
                  (Worker.MsgError
                     "Cannot start: model or buffer not initialized"),
                Worker.shared s', None))) /\
  (forall (cap : Z) (b : SharedBuffer R) (t0 t1 : Z),
     wf cap b ->
     exists s'' ps,
       Worker.run NaN (Worker.mkWorld (Worker.initial None) b [])
         [Worker.Message (Worker.Init (Some cap)) t0;
          Worker.ModelSettled 0 Worker.Loaded;
          Worker.Message Worker.Start t1] = Some s'' /\
       Worker.isRunning (Worker.worker s'') = true /\
       Worker.session (Worker.worker s'') = Some LoadedSession /\
       Worker.posted (Worker.worker s'')
       = [Worker.MsgModelLoaded; Worker.MsgBufferInitialized;
          Worker.MsgStarted] ++ map Worker.MsgPrediction ps /\
       length (Worker.loops s'') = 1%nat).
Proof.
  split.
  - induction es as [|e es IH]; intros s s' Hcannot Hrun Hloops Hgo.
    + cbn in Hgo. injection Hgo as <-. repeat split; auto.
      intros now. cbn [Worker.onmessage].
      destruct Hcannot as [[-> _] | [-> _]]; [reflexivity|].
      destruct (Worker.session _); reflexivity.
    + cbn [Worker.run] in Hgo.
      destruct (Worker.step NaN s e) as [s1|] eqn:Hstep; [|discriminate].
      assert (Hs1 :
        ((Worker.session (Worker.worker s1) = None /\
          forallb (fun e => negb (Worker.is_loaded e)) es = true) \/
         (Worker.sharedBuffer (Worker.worker s1) = None /\
          Forall (fun sharedBuffer => sharedBuffer = None)
            (Worker.loading s1) /\
          forallb (fun e => negb (Worker.is_initBuffer e)
                            && negb (Worker.is_init_with_buffer e)) es
          = true)) /\
        Worker.isRunning (Worker.worker s1) = false /\
        Worker.loops s1 = [] /\
        Worker.predictions (Worker.posted (Worker.worker s1))
          = Worker.predictions (Worker.posted (Worker.worker s)) /\
        readPtr (Worker.shared s1) = readPtr (Worker.shared s)).
      { destruct s as [w b l ld]. cbn in Hcannot, Hrun, Hloops |- *. subst l.
        assert (Htail :
          forall w1 ld1,
            Worker.session w1 = Worker.session w ->
            Worker.sharedBuffer w1 = Worker.sharedBuffer w ->
            (Forall (fun sharedBuffer => sharedBuffer = None) ld ->
             Forall (fun sharedBuffer : option Z => sharedBuffer = None) ld1) ->
            (Worker.session w1 = None /\
             forallb (fun e => negb (Worker.is_loaded e)) es = true) \/
            (Worker.sharedBuffer w1 = None /\
             Forall (fun sharedBuffer => sharedBuffer = None) ld1 /\
             forallb (fun e => negb (Worker.is_initBuffer e)
                               && negb (Worker.is_init_with_buffer e)) es
             = true)).
        { intros w1 ld1 Hs Hb Hld.
          destruct Hcannot as [[Hc Hno] | (Hc & Hall & Hno)];
            cbn [forallb] in Hno; apply andb_true_iff in Hno as [_ Hno].
          - left. split; [congruence | exact Hno].
          - right. split; [congruence|]. split; [apply Hld, Hall | exact Hno]. }
        destruct e as [m now | i load | i outcome it now | i now | samples].
        - destruct m as [sb | cap | | | |].
          + cbn in Hstep. injection Hstep as <-. cbn.
            split; [|repeat split; auto].
            destruct Hcannot as [[Hc Hno] | (Hc & Hall & Hno)];
              cbn [forallb] in Hno; apply andb_true_iff in Hno as [He Hno].
            * left. split; [exact Hc | exact Hno].
            * right. split; [exact Hc|]. split; [|exact Hno].
              apply Forall_app. split; [exact Hall|].
              destruct sb; [discriminate He|]. repeat constructor.
          + cbn in Hstep. injection Hstep as <-. cbn. rewrite app_nil_r.
            split; [|repeat split; auto;
                     apply predictions_snoc_other; discriminate].
            destruct Hcannot as [[Hc Hno] | (Hc & Hall & Hno)];
              cbn [forallb] in Hno; apply andb_true_iff in Hno as [He Hno].
            * left. split; [exact Hc | exact Hno].
            * discriminate He.
          + cbn [Worker.step Worker.worker Worker.shared Worker.loops
                 Worker.onmessage Worker.loading Worker.load_of] in Hstep.
            assert (Herr :
              match Worker.session w, Worker.sharedBuffer w with
              | Some _, Some _ => False
              | _, _ => True
              end).
            { destruct Hcannot as [[-> _] | [-> _]]; [exact I|].
              destruct (Worker.session w); exact I. }
            destruct (Worker.session w) eqn:Hs,
                     (Worker.sharedBuffer w) eqn:Hb;
              try contradiction;
              injection Hstep as <-; cbn; rewrite app_nil_r;
              (split; [apply Htail; cbn; auto|]);
              repeat split; auto; apply predictions_snoc_other; discriminate.
          + cbn in Hstep. injection Hstep as <-. cbn. rewrite app_nil_r.
            split; [apply Htail; cbn; auto|].
            repeat split; auto. apply predictions_snoc_other; discriminate.
          + cbn in Hstep. injection Hstep as <-. cbn. rewrite app_nil_r.
            split; [apply Htail; cbn; auto|].
            repeat split; auto.
          + cbn in Hstep. injection Hstep as <-. cbn. rewrite app_nil_r.
            split; [apply Htail; cbn; auto|].
            repeat split; auto. apply predictions_snoc_other; discriminate.
        - cbn in Hstep. destruct (ld !! i) as [sb|] eqn:Hld;
            [|discriminate Hstep].
          injection Hstep as <-. cbn.
          destruct (init_resume_spec load sb w) as (Hi & Hp & Hse & Hsh).
          cbv zeta in Hi, Hp, Hse, Hsh. rewrite Hi, Hp.
          split; [|repeat split; auto].
          destruct Hcannot as [[Hc Hno] | (Hc & Hall & Hno)];
            cbn [forallb] in Hno; apply andb_true_iff in Hno as [He Hno].
          + left. split; [|exact Hno]. rewrite Hse.
            destruct load; [discriminate He | exact Hc].
          + right. split; [|split; [apply Forall_delete, Hall | exact Hno]].
            rewrite Hsh.
            assert (Hsb : sb = None).
            { rewrite Forall_forall in Hall. apply Hall.
              eapply list_elem_of_lookup_2. exact Hld. }
            rewrite Hsb. destruct load; exact Hc.
        - cbn in Hstep. discriminate Hstep.
        - cbn in Hstep. discriminate Hstep.
        - cbn in Hstep. injection Hstep as <-. cbn.
          split; [apply Htail; cbn; auto|].
          repeat split; auto.
          unfold write. destruct (_ =? 0); [reflexivity|].
          destruct (write_loop _ _ _ _). reflexivity. }
      destruct Hs1 as (Hc1 & Hr1 & Hl1 & Hp1 & Hrp1).
      destruct (IH s1 s' Hc1 Hr1 Hl1 Hgo) as (Hl & Hr & Hp & Hrp & Hst).
      repeat split; auto; congruence.
  - intros cap b t0 t1 Hwf.
    set (w1 := Worker.mk (Some LoadedSession) false (Some SharedView)
                 (Some SharedView) (Some SharedView) cap 0
                 (EmaSmoother.constructor EMA_ALPHA)
                 [Worker.MsgModelLoaded; Worker.MsgBufferInitialized]).
    set (w2 := Worker.mk (Some LoadedSession) true (Some SharedView)
                 (Some SharedView) (Some SharedView) cap 0
                 (EmaSmoother.mk EMA_ALPHA None)
                 [Worker.MsgModelLoaded; Worker.MsgBufferInitialized;
                  Worker.MsgStarted]).
    destruct (loop_run_spec t1 (Worker.loop_fuel w2 b []) w2 b [])
      as (w' & b' & t & Hloop & Hext & _ & _ & Ht);
      try reflexivity.
    { exact Hwf. }
    { unfold INFERENCE_WINDOW_SAMPLES. cbn. lia. }
    { unfold Worker.loop_fuel.
      rewrite (getAvailableSamples_is_availableRead w2 b eq_refl).
      cbn [length Worker.capacity w2]. lia. }
    destruct t as [task|]; [|destruct Ht as (Hoff & _); discriminate Hoff].
    destruct Hext as (Hse & Hru & _ & _ & _ & _ & ps & Hposted & _).
    exists (Worker.mkLoadingWorld w' b' [task] []), ps.
    split; [|split; [|split; [|split]]].
    + cbn [Worker.run].
      assert (H1 : Worker.step NaN
                     (Worker.mkWorld (Worker.initial None) b [])
                     (Worker.Message (Worker.Init (Some cap)) t0)
                   = Some (Worker.mkLoadingWorld (Worker.initial None) b []
                             [Some cap])) by reflexivity.
      assert (H2 : Worker.step NaN
                     (Worker.mkLoadingWorld (Worker.initial None) b []
                        [Some cap])
                     (Worker.ModelSettled 0 Worker.Loaded)
                   = Some (Worker.mkLoadingWorld w1 b [] [])) by reflexivity.
      assert (H3 : Worker.step NaN (Worker.mkLoadingWorld w1 b [] [])
                     (Worker.Message Worker.Start t1)
                   = Some (Worker.mkLoadingWorld w' b' [task] [])).
      { unfold Worker.step, Worker.onmessage.
        cbn [Worker.worker Worker.shared Worker.loops Worker.loading w1
             Worker.session Worker.sharedBuffer].
        change (Worker.postMessage _ Worker.MsgStarted) with w2.
        rewrite Hloop. reflexivity. }
      rewrite H1, H2, H3. reflexivity.
    + cbn [Worker.worker]. rewrite Hru. reflexivity.
    + cbn [Worker.worker]. rewrite Hse. reflexivity.
    + cbn [Worker.worker]. rewrite Hposted. reflexivity.
    + reflexivity.
Qed.

End LoopRun.

Section LoopRunInstances.
Import RingBuffer.

Lemma loop_run_reaches_an_await_witness :
  let w := Worker.set_isRunning
             (Worker.initializeBuffer (Worker.initial (Some LoadedSession)) 8)
             true in
  let b := snd (write 8 (createRingBuffer 0%R 8) [1; 1; 1]%R) in
  exists w' b' t,
    Worker.loop_run 0%R (Worker.loop_fuel w b []) 1000 w b [] = Some (w', b', t) /\
    Worker.silent_extension w w' /\
    writePtr b' = writePtr b.
Proof.
  intros w b.
  destruct (loop_run_reaches_an_await 0%R 1000 w b [] eq_refl eq_refl)
    as (w' & b' & t & Hrun & Hext & _ & Hwp & _).
  - vm_compute. repeat split; congruence.
  - vm_compute. congruence.
  - exists w', b', t.
    split; [exact Hrun|]. split; [exact Hext | exact Hwp].
Defined.

Lemma stopped_worker_posts_no_prediction_witness :
  let s := Worker.mkWorld
             (Worker.initializeBuffer (Worker.initial (Some LoadedSession)) 8)
             (createRingBuffer 0%R 8) [Worker.AwaitSleep [1; 1]%R] in
  let es := [Worker.Message Worker.Stop 5; Worker.Produce [1; 1; 1]%R;
             Worker.SleepElapsed 0 10; Worker.Message Worker.Reset 11] in
  match Worker.run 0%R s es with
  | Some s' =>
      Worker.predictions (Worker.posted (Worker.worker s')) = [] /\
      Worker.loops s' = []
  | None => False
  end.
Proof.
  intros s es.
  destruct (Worker.run 0%R s es) as [s'|] eqn:Hrun.
  - destruct (stopped_worker_posts_no_prediction 0%R es s s'
                eq_refl eq_refl eq_refl Hrun) as (Hp & _).
    split; [exact Hp|].
    vm_compute in Hrun. injection Hrun as <-. reflexivity.
  - vm_compute in Hrun. discriminate Hrun.
Defined.

Lemma worker_does_not_start_witness :
  let s := Worker.mkWorld (Worker.initial None) (createRingBuffer 0%R 8) [] in
  let es := [Worker.Message (Worker.InitBuffer 8) 1;
             Worker.Message (Worker.Init None) 2;
             Worker.Message Worker.Start 5;
             Worker.ModelSettled 0 (Worker.LoadFailed "no such file");
             Worker.Produce [1; 1; 1]%R;
             Worker.Message Worker.Start 9] in
  match Worker.run 0%R s es with
  | Some s' =>
      Worker.loops s' = [] /\
      Worker.predictions (Worker.posted (Worker.worker s')) = [] /\
      Worker.posted (Worker.worker s') =
        [Worker.MsgBufferInitialized;
         Worker.MsgError "Cannot start: model or buffer not initialized";
         Worker.MsgError "Failed to load model: no such file";
         Worker.MsgError "Cannot start: model or buffer not initialized"]
  | None => False
  end.
Proof.
  intros s es.
  destruct (Worker.run 0%R s es) as [s'|] eqn:Hrun.
  - destruct (worker_does_not_start_without_model_or_buffer 0%R es)
      as [Hnever _].
    destruct (Hnever s s' (or_introl (conj eq_refl eq_refl)) eq_refl eq_refl
                Hrun) as (Hl & _ & Hp & _).
    split; [exact Hl|]. split; [exact Hp|].
    vm_compute in Hrun. injection Hrun as <-. reflexivity.
  - vm_compute in Hrun. discriminate Hrun.
Defined.

End LoopRunInstances.

(** ** Signal preparation: RMS, peak normalisation, standardisation *)

Section SignalPreparation.
Local Open Scope R_scope.

Lemma fold_left_add_map {B : Type} (f : B -> R) (l : list B) (a : R) :
  fold_left (fun acc x => acc + f x) l a = a + sum_list (map f l).
Proof.
  revert a. induction l as [|x l IH]; intros a; cbn [fold_left map].
  - rewrite sum_list_nil. lra.
  - rewrite IH, sum_list_cons. lra.
Qed.

Lemma sum_list_replicate (n : nat) (c : R) :
  sum_list (replicate n c) = INR n * c.
Proof.
  induction n as [|n IH].
  - cbn [replicate]. rewrite sum_list_nil. cbn [INR]. lra.
  - cbn [replicate]. rewrite sum_list_cons, IH, S_INR. lra.
Qed.

Lemma map_replicate_const {B C : Type} (f : B -> C) (n : nat) (c : B) :
  map f (replicate n c) = replicate n (f c).
Proof. induction n as [|n IH]; cbn; [reflexivity|]. rewrite IH. reflexivity. Qed.

Lemma calculateRMS_as_sum (samples : list R) :
  samples <> [] ->
  calculateRMS samples
  = sqrt (sum_list (map (fun v => v * v) samples) / INR (length samples)).
Proof.
  intros Hne. unfold calculateRMS, calculateRMSInRange.
  rewrite Z.max_id, Z.min_id, Z.sub_0_r.
  destruct (Z.leb_spec (Z.of_nat (length samples)) 0) as [Hle | _].
  { destruct samples; [congruence|]. cbn [length] in Hle. lia. }
  rewrite Nat2Z.id. change (Z.to_nat 0) with 0%nat. rewrite drop_0.
  rewrite take_ge by lia.
  rewrite fold_left_add_map, Rplus_0_l, <- INR_IZR_INZ. reflexivity.
Qed.

Lemma sum_squares_nonneg (samples : list R) :
  0 <= sum_list (map (fun v => v * v) samples).
Proof.
  apply sum_list_nonneg, Forall_forall. intros y Hy%list_elem_of_In.
  apply in_map_iff in Hy as (v & <- & _). nra.
Qed.

Lemma calculateRMS_replicate (n : nat) (c : R) :
  (0 < n)%nat -> calculateRMS (replicate n c) = Rabs c.
Proof.
  intros Hn. rewrite calculateRMS_as_sum by (destruct n; [lia|discriminate]).
  rewrite length_replicate, map_replicate_const, sum_list_replicate.
  replace (INR n * (c * c) / INR n) with (Rsqr c).
  - apply sqrt_Rsqr_abs.
  - unfold Rsqr. field. apply not_0_INR. lia.
Qed.

(** X10.  calculateRMSInRange and calculateRMS.  The range is clamped to the
    array, an empty or reversed range gives 0 and never divides by zero,
    the result is never negative, and it only depends on the samples of
    the clamped range.  A constant block has the magnitude of its value as
    RMS; a block of zeros has RMS 0 and so falls below the noise gate. *)
Theorem calculateRMS_properties (samples : list R) (start end_ : Z) :
  let s := Z.max 0 start in
  let e := Z.min (Z.of_nat (length samples)) end_ in
  0 <= calculateRMSInRange samples start end_ /\
  ((e <= s)%Z -> calculateRMSInRange samples start end_ = 0) /\
  calculateRMSInRange samples start end_
    = calculateRMS (take (Z.to_nat (e - s)) (drop (Z.to_nat s) samples)) /\
  calculateRMS [] = 0 /\
  (forall (n : nat) (c : R), (0 < n)%nat ->
     calculateRMS (replicate n c) = Rabs c) /\
  (forall n : nat, calculateRMS (replicate n 0) < NOISE_GATE_THRESHOLD).
Proof.
  intros s e.
  pose proof calculateRMS_replicate as Hconst.
  split; [|split; [|split; [|split; [|split]]]].
  - unfold calculateRMSInRange. fold s e.
    destruct (e - s <=? 0)%Z; [lra|]. apply sqrt_pos.
  - intros Hle. unfold calculateRMSInRange. fold s e.
    destruct (Z.leb_spec (e - s) 0); [reflexivity|lia].
  - unfold calculateRMSInRange at 1. fold s e.
    set (sub := take (Z.to_nat (e - s)) (drop (Z.to_nat s) samples)).
    destruct (Z.leb_spec (e - s) 0) as [Hle | Hgt].
    + replace sub with (@nil R); [reflexivity|].
      unfold sub. replace (Z.to_nat (e - s)) with 0%nat by lia. reflexivity.
    + assert (Hlen : length sub = Z.to_nat (e - s)).
      { unfold sub. rewrite length_take, length_drop. lia. }
      unfold calculateRMS, calculateRMSInRange.
      rewrite Z.max_id, Z.min_id, Z.sub_0_r, Hlen, Z2Nat.id by lia.
      destruct (Z.leb_spec (e - s) 0) as [Hle' | _]; [lia|].
      change (Z.to_nat 0) with 0%nat. rewrite drop_0.
      rewrite (take_ge sub) by lia. reflexivity.
  - reflexivity.
  - exact Hconst.
  - intros [|n].
    + change (calculateRMS (replicate 0 0)) with 0.
      unfold NOISE_GATE_THRESHOLD. lra.
    + rewrite Hconst by lia. rewrite Rabs_R0. unfold NOISE_GATE_THRESHOLD. lra.
Qed.

Lemma calculateRMS_properties_witness :
  calculateRMSInRange [3; 4; 4; 9] (-2) 3 = calculateRMS [3; 4; 4] /\
  calculateRMSInRange [3; 4; 4; 9] 3 1 = 0.
Proof.
  destruct (calculateRMS_properties [3; 4; 4; 9] (-2) 3) as (_ & _ & Hsub & _).
  destruct (calculateRMS_properties [3; 4; 4; 9] 3 1) as (_ & Hrev & _).
  split; [exact Hsub|]. apply Hrev. cbn. lia.
Defined.

(** *** normalizeAudio *)

Lemma maxAbs_spec (l : list R) (a : R) :
  let M := fold_left
             (fun maxAbs x =>
                let value := Rabs x in
                if Rlt_dec maxAbs value then value else maxAbs) l a in
  a <= M /\
  (forall x, In x l -> Rabs x <= M) /\
  (M = a \/ exists x, In x l /\ Rabs x = M).
Proof.
  revert a. induction l as [|y l IH]; intros a; cbn [fold_left].
  - cbn. split; [lra|]. split; [intros x []|]. left. reflexivity.
  - cbv zeta in IH |- *.
    destruct (Rlt_dec a (Rabs y)) as [Hlt | Hge].
    + destruct (IH (Rabs y)) as (H1 & H2 & H3).
      split; [lra|]. split.
      * intros x [<- | Hin]; [exact H1 | apply H2, Hin].
      * right. destruct H3 as [-> | (x & Hin & Hx)].
        -- exists y. split; [left; reflexivity | reflexivity].
        -- exists x. split; [right; exact Hin | exact Hx].
    + destruct (IH a) as (H1 & H2 & H3).
      split; [exact H1|]. split.
      * intros x [<- | Hin]; [lra | apply H2, Hin].
      * destruct H3 as [-> | (x & Hin & Hx)]; [left; reflexivity|].
        right. exists x. split; [right; exact Hin | exact Hx].
Qed.

(** X11.  normalizeAudio scales to unit peak.  The output has the length of
    the input; every output sample has magnitude at most 1 whenever the
    input has a non-zero sample, and then some output sample has
    magnitude exactly 1 and the output is the input multiplied by one
    positive factor; an input of zeros (or an empty one) is returned
    unchanged, with no division by zero. *)
Theorem normalizeAudio_unit_peak (samples : list R) :
  length (normalizeAudio samples) = length samples /\
  ((exists x, In x samples /\ x <> 0) ->
   (forall y, In y (normalizeAudio samples) -> Rabs y <= 1) /\
   (exists y, In y (normalizeAudio samples) /\ Rabs y = 1) /\
   (exists c, 0 < c /\ normalizeAudio samples = map (fun x => x * c) samples)) /\
  ((forall x, In x samples -> x = 0) -> normalizeAudio samples = samples).
Proof.
  unfold normalizeAudio.
  pose proof (maxAbs_spec samples 0) as HM. cbv zeta in HM.
  set (M := fold_left _ samples 0) in *.
  destruct HM as (H0 & Hall & Hmax).
  split; [|split].
  - destruct (Req_dec_T M 0); [reflexivity | apply length_map].
  - intros (x & Hin & Hx).
    assert (HMpos : 0 < M).
    { pose proof (Hall x Hin). pose proof (Rabs_pos_lt x Hx). lra. }
    destruct (Req_dec_T M 0) as [Hz | _]; [lra|].
    assert (Hinv : 0 < 1 / M) by (apply Rdiv_lt_0_compat; lra).
    split; [|split].
    + intros y Hy. apply in_map_iff in Hy as (x' & <- & Hx').
      rewrite Rabs_mult, (Rabs_pos_eq (1 / M)) by lra.
      pose proof (Hall x' Hx').
      apply (Rmult_le_reg_r M); [exact HMpos|].
      unfold Rdiv. rewrite Rmult_assoc, Rmult_assoc, Rinv_l by lra. lra.
    + destruct Hmax as [Heq | (x' & Hx' & Hm)]; [lra|].
      exists (x' * (1 / M)). split.
      * apply in_map_iff. exists x'. split; [reflexivity | exact Hx'].
      * rewrite Rabs_mult, (Rabs_pos_eq (1 / M)), Hm by lra. field. lra.
    + exists (1 / M). split; [exact Hinv | reflexivity].
  - intros Hzero.
    destruct (Req_dec_T M 0) as [_ | Hnz]; [reflexivity|].
    exfalso. destruct Hmax as [Heq | (x' & Hx' & Hm)]; [lra|].
    rewrite (Hzero x' Hx'), Rabs_R0 in Hm. lra.
Qed.

Lemma normalizeAudio_unit_peak_witness :
  (exists y, In y (normalizeAudio [1; -4; 2]) /\ Rabs y = 1) /\
  normalizeAudio [0; 0; 0] = [0; 0; 0].
Proof.
  destruct (normalizeAudio_unit_peak [1; -4; 2]) as (_ & Hpeak & _).
  destruct (normalizeAudio_unit_peak [0; 0; 0]) as (_ & _ & Hzero).
  split.
  - apply Hpeak. exists 1. split; [left; reflexivity | lra].
  - apply Hzero. intros x [<- | [<- | [<- | []]]]; reflexivity.
Defined.

End SignalPreparation.

Section Standardisation.
Local Open Scope R_scope.

Lemma standardizeAudio_nonempty (samples : list R) :
  samples <> [] ->
  standardizeAudio samples
  = let n := INR (length samples) in
    let mean := sum_list samples / n in
    let variance :=
      sum_list (map (fun x => (x - mean) * (x - mean)) samples) / n in
    map (fun x => (x - mean) / sqrt (variance + 1 / 10000000)) samples.
Proof.
  intros Hne. destruct samples as [|x0 rest]; [congruence|].
  unfold standardizeAudio. cbv zeta.
  rewrite fold_left_add_map, Rplus_0_l. reflexivity.
Qed.

Lemma sum_list_centered (l : list R) (m d : R) :
  sum_list (map (fun x => (x - m) / d) l)
  = (sum_list l - INR (length l) * m) / d.
Proof.
  induction l as [|x l IH].
  - cbn [map length INR]. rewrite sum_list_nil. unfold Rdiv. ring.
  - cbn [map]. rewrite !sum_list_cons, IH.
    change (length (x :: l)) with (S (length l)). rewrite S_INR.
    unfold Rdiv. ring.
Qed.

Lemma sum_list_centered_squares (l : list R) (m d : R) :
  d <> 0 ->
  sum_list (map (fun y => y * y) (map (fun x => (x - m) / d) l))
  = sum_list (map (fun x => (x - m) * (x - m)) l) / (d * d).
Proof.
  intros Hd. induction l as [|x l IH].
  - cbn [map]. rewrite sum_list_nil. unfold Rdiv. ring.
  - cbn [map]. rewrite !sum_list_cons, IH. field. exact Hd.
Qed.

(** X12.  standardizeAudio centres and scales a window.  The output has the
    length of the input and its samples sum to zero; for a non-empty
    window with (population) variance V the mean square of the output is
    V / (V + 1e-7), so strictly below 1; a constant window, whose variance
    is zero, comes out as all zeros instead of dividing by zero; an empty
    window stays empty. *)
Theorem standardizeAudio_centres_and_scales (samples : list R) :
  length (standardizeAudio samples) = length samples /\
  sum_list (standardizeAudio samples) = 0 /\
  (samples <> [] ->
   let n := INR (length samples) in
   let mean := sum_list samples / n in
   let V := sum_list (map (fun x => (x - mean) * (x - mean)) samples) / n in
   0 <= V /\
   sum_list (map (fun y => y * y) (standardizeAudio samples)) / n
   = V / (V + 1 / 10000000)) /\
  (forall (k : nat) (c : R),
     standardizeAudio (replicate k c) = replicate k 0).
Proof.
  split; [|split; [|split]].
  - destruct samples as [|x0 rest]; [reflexivity|].
    unfold standardizeAudio. cbv zeta. apply length_map.
  - destruct samples as [|x0 rest]; [reflexivity|].
    set (l := x0 :: rest).
    assert (Hne : l <> []) by discriminate.
    rewrite (standardizeAudio_nonempty l Hne). cbv zeta.
    rewrite sum_list_centered.
    assert (Hn : INR (length l) <> 0) by (apply not_0_INR; discriminate).
    replace (sum_list l - INR (length l) * (sum_list l / INR (length l)))
      with 0 by (field; exact Hn).
    unfold Rdiv. ring.
  - intros Hne n mean V.
    assert (Hn : 0 < n).
    { apply lt_0_INR. destruct samples; [congruence | cbn; lia]. }
    assert (HV : 0 <= V).
    { unfold V. apply Rmult_le_pos.
      - apply sum_list_nonneg, Forall_forall. intros y Hy%list_elem_of_In.
        apply in_map_iff in Hy as (v & <- & _).
        exact (Rle_0_sqr (v - mean)).
      - left. apply Rinv_0_lt_compat. exact Hn. }
    split; [exact HV|].
    rewrite (standardizeAudio_nonempty samples Hne). cbv zeta.
    fold n. fold mean. fold V.
    assert (Hd : 0 < sqrt (V + 1 / 10000000)) by (apply sqrt_lt_R0; lra).
    rewrite sum_list_centered_squares by lra.
    rewrite sqrt_sqrt by lra.
    set (S := sum_list (map (fun x => (x - mean) * (x - mean)) samples)) in *.
    assert (HS : S = V * n) by (unfold V; field; lra).
    rewrite HS. clearbody V. clear HS. field. split; lra.
  - intros [|k] c; [reflexivity|].
    rewrite standardizeAudio_nonempty by discriminate. cbv zeta.
    rewrite map_replicate_const. f_equal.
    rewrite sum_list_replicate, length_replicate.
    assert (Hn : INR (S k) <> 0) by (apply not_0_INR; discriminate).
    replace (INR (S k) * c / INR (S k)) with c by (field; exact Hn).
    unfold Rdiv. ring.
Qed.

Lemma standardizeAudio_centres_and_scales_witness :
  let samples := [1; 3] in
  let n := INR (length samples) in
  let mean := sum_list samples / n in
  let V := sum_list (map (fun x => (x - mean) * (x - mean)) samples) / n in
  0 <= V /\
  sum_list (map (fun y => y * y) (standardizeAudio samples)) / n
  = V / (V + 1 / 10000000).
Proof.
  destruct (standardizeAudio_centres_and_scales [1; 3]) as (_ & _ & H & _).
  apply H. discriminate.
Defined.

End Standardisation.

(** ** Predictions: dominant label, probability vectors *)

Section Predictions.
Local Open Scope R_scope.

Lemma labels_nodup : NoDup EMOTION_LABELS.
Proof. apply (bool_decide_unpack _). exact I. Qed.

Lemma getDominant_fold (v : EmotionVector) (d0 : string) (c0 : R) :
  let r :=
    fold_left
      (fun '(dominant, confidence) '(label, value) =>
         if Rlt_dec confidence value then (label, value)
         else (dominant, confidence))
      v (d0, c0) in
  c0 <= snd r /\
  (forall l x, In (l, x) v -> x <= snd r) /\
  (r = (d0, c0) \/
   exists pre post,
     v = pre ++ r :: post /\ c0 < snd r /\
     forall l x, In (l, x) pre -> x < snd r).
Proof.
  revert d0 c0. induction v as [|[l x] v IH]; intros d0 c0; cbn [fold_left].
  - cbn. split; [lra|]. split; [intros ? ? []|]. left. reflexivity.
  - cbv zeta in IH |- *. destruct (Rlt_dec c0 x) as [Hlt | Hge].
    + destruct (IH l x) as (H1 & H2 & H3).
      split; [lra|]. split.
      * intros l' x' [Heq | Hin]; [injection Heq as <- <-; exact H1|].
        apply (H2 l' x' Hin).
      * right. destruct H3 as [Heq | (pre & post & Hv & Hc & Hpre)].
        -- exists [], v. rewrite Heq. cbn [snd app].
           split; [reflexivity|]. split; [exact Hlt | intros ? ? []].
        -- exists ((l, x) :: pre), post. split; [rewrite Hv at 1; reflexivity|].
           split; [lra|].
           intros l' x' [Heq | Hin]; [injection Heq as <- <-; exact Hc|].
           apply (Hpre l' x' Hin).
    + destruct (IH d0 c0) as (H1 & H2 & H3).
      split; [exact H1|]. split.
      * intros l' x' [Heq | Hin]; [injection Heq as <- <-; lra|].
        apply (H2 l' x' Hin).
      * destruct H3 as [Heq | (pre & post & Hv & Hc & Hpre)];
          [left; exact Heq|].
        right. exists ((l, x) :: pre), post.
        split; [rewrite Hv at 1; reflexivity|]. split; [exact Hc|].
        intros l' x' [Heq | Hin]; [injection Heq as <- <-; lra|].
        apply (Hpre l' x' Hin).
Qed.

(** X13.  getDominant returns the first entry, in insertion order, that holds
    the greatest value: no entry exceeds the confidence, and every entry
    before the chosen one is strictly smaller.  When no value is positive
    (an empty object included) it answers ("neutral", 0), whatever the
    labels of the object are. *)
Theorem getDominant_first_maximum (v : EmotionVector) :
  0 <= snd (getDominant v) /\
  (forall l x, In (l, x) v -> x <= snd (getDominant v)) /\
  ((forall l x, In (l, x) v -> x <= 0) ->
   getDominant v = ("neutral"%string, 0)) /\
  ((exists l x, In (l, x) v /\ 0 < x) ->
   exists pre post,
     v = pre ++ getDominant v :: post /\
     forall l x, In (l, x) pre -> x < snd (getDominant v)).
Proof.
  pose proof (getDominant_fold v "neutral"%string 0) as H. cbv zeta in H.
  fold (getDominant v) in H. destruct H as (H0 & Hall & Hcase).
  split; [exact H0|]. split; [exact Hall|]. split.
  - intros Hneg. destruct Hcase as [Heq | (pre & post & Hv & Hc & _)];
      [exact Heq|].
    exfalso. destruct (getDominant v) as [d c]. cbn [snd] in *.
    assert (Hin : In (d, c) v).
    { rewrite Hv. apply in_or_app. right. left. reflexivity. }
    specialize (Hneg d c Hin). lra.
  - intros (l & x & Hin & Hx).
    destruct Hcase as [Heq | (pre & post & Hv & _ & Hpre)].
    + exfalso. specialize (Hall l x Hin). rewrite Heq in Hall.
      cbn [snd] in Hall. lra.
    + exists pre, post. split; assumption.
Qed.

Lemma getDominant_first_maximum_witness :
  (exists pre post,
     [("sad"%string, 1); ("happy"%string, 3); ("calm"%string, 3)]
     = pre ++ getDominant
                [("sad"%string, 1); ("happy"%string, 3); ("calm"%string, 3)]
              :: post /\
     forall l x, In (l, x) pre ->
       x < snd (getDominant
                  [("sad"%string, 1); ("happy"%string, 3); ("calm"%string, 3)])) /\
  getDominant [("sad"%string, 0); ("happy"%string, -1)] = ("neutral"%string, 0).
Proof.
  split.
  - apply (getDominant_first_maximum
             [("sad"%string, 1); ("happy"%string, 3); ("calm"%string, 3)]).
    exists "sad"%string, 1. split; [left; reflexivity | lra].
  - apply (getDominant_first_maximum
             [("sad"%string, 0); ("happy"%string, -1)]).
    intros l x [Heq | [Heq | []]]; injection Heq as _ <-; lra.
Defined.

(** *** Probability vectors *)

Lemma prop_or_zero_entry (v : EmotionVector) (label : string) :
  In label (map fst v) -> In (label, prop_or_zero v label) v.
Proof.
  unfold prop_or_zero. induction v as [|[k x] v IH]; intros Hin; [destruct Hin|].
  cbn [get_prop]. destruct (String.eqb_spec k label) as [-> | Hne].
  - left. reflexivity.
  - destruct Hin as [Heq | Hin]; [cbn in Heq; contradiction|].
    right. apply IH, Hin.
Qed.

Lemma prop_or_zero_of_entry (v : EmotionVector) (label : string) (x : R) :
  NoDup (map fst v) -> In (label, x) v -> prop_or_zero v label = x.
Proof.
  unfold prop_or_zero. induction v as [|[k y] v IH]; intros Hnd Hin;
    [destruct Hin|].
  cbn [map fst] in Hnd. apply NoDup_cons in Hnd as [Hk Hnd].
  cbn [get_prop]. destruct Hin as [Heq | Hin].
  - injection Heq as -> ->. rewrite String.eqb_refl. reflexivity.
  - destruct (String.eqb_spec k label) as [-> | Hne]; [|apply IH; assumption].
    exfalso. apply Hk. apply list_elem_of_In, in_map_iff.
    exists (label, x). split; [reflexivity | exact Hin].
Qed.

Lemma sum_list_linear {B : Type} (a b : R) (f g : B -> R) (l : list B) :
  sum_list (map (fun x => a * f x + b * g x) l)
  = a * sum_list (map f l) + b * sum_list (map g l).
Proof.
  induction l as [|x l IH]; cbn [map].
  - rewrite sum_list_nil. lra.
  - rewrite !sum_list_cons, IH. lra.
Qed.

Lemma sum_list_le_const {B : Type} (f : B -> R) (c : R) (l : list B) :
  (forall x, In x l -> f x <= c) ->
  sum_list (map f l) <= INR (length l) * c.
Proof.
  induction l as [|x l IH]; intros Hle.
  - cbn [map length INR]. rewrite sum_list_nil. lra.
  - cbn [map]. rewrite sum_list_cons.
    change (length (x :: l)) with (S (length l)). rewrite S_INR.
    pose proof (Hle x (or_introl eq_refl)).
    assert (sum_list (map f l) <= INR (length l) * c).
    { apply IH. intros y Hy. apply Hle. right. exact Hy. }
    lra.
Qed.

Lemma NEUTRAL_VECTOR_is_distribution : is_distribution NEUTRAL_VECTOR.
Proof.
  split; [reflexivity|]. split.
  - intros label Hin. unfold NEUTRAL_VECTOR.
    rewrite (prop_or_zero_map
               (fun l => if String.eqb l "neutral" then 1 else 0)) by exact Hin.
    destruct (String.eqb label "neutral"); lra.
  - unfold sum_list, prop_or_zero. cbn. lra.
Qed.

Lemma blend_is_distribution (alpha : R) (raw prev : EmotionVector) :
  0 <= alpha <= 1 -> is_distribution raw -> is_distribution prev ->
  is_distribution
    (map (fun label =>
            (label,
             alpha * prop_or_zero raw label
             + (1 - alpha) * prop_or_zero prev label))
       EMOTION_LABELS).
Proof.
  intros Ha (_ & Hr & Hrs) (_ & Hp & Hps). split; [|split].
  - rewrite map_map. cbn [fst]. apply map_id.
  - intros label Hin.
    rewrite (prop_or_zero_map
               (fun l => alpha * prop_or_zero raw l
                         + (1 - alpha) * prop_or_zero prev l)) by exact Hin.
    pose proof (Hr label Hin). pose proof (Hp label Hin). nra.
  - rewrite (map_ext_in _
               (fun l => alpha * prop_or_zero raw l
                         + (1 - alpha) * prop_or_zero prev l)).
    + rewrite sum_list_linear, Hrs, Hps. lra.
    + intros label Hin. apply prop_or_zero_map. exact Hin.
Qed.

Lemma update_keeps_distribution (sm : EmaSmoother.t) (raw : EmotionVector) :
  smoother_ok sm -> is_distribution raw ->
  is_distribution (fst (EmaSmoother.update sm raw)) /\
  smoother_ok (snd (EmaSmoother.update sm raw)) /\
  EmaSmoother.state (snd (EmaSmoother.update sm raw))
  = Some (fst (EmaSmoother.update sm raw)) /\
  EmaSmoother.alpha (snd (EmaSmoother.update sm raw)) = EmaSmoother.alpha sm.
Proof.
  intros [Ha Hst] Hraw. unfold EmaSmoother.update.
  destruct (EmaSmoother.state sm) as [prev|]; cbn [fst snd EmaSmoother.state
                                                   EmaSmoother.alpha].
  - pose proof (blend_is_distribution _ raw prev Ha Hraw Hst) as Hb.
    split; [exact Hb|]. split; [|split; reflexivity].
    split; [exact Ha | exact Hb].
  - split; [exact Hraw|]. split; [|split; reflexivity].
    split; [exact Ha | exact Hraw].
Qed.

Lemma dominant_of_distribution (v : EmotionVector) :
  is_distribution v ->
  In (fst (getDominant v)) EMOTION_LABELS /\
  prop_or_zero v (fst (getDominant v)) = snd (getDominant v) /\
  (forall label, In label EMOTION_LABELS ->
     prop_or_zero v label <= snd (getDominant v)) /\
  1 / 8 <= snd (getDominant v) <= 1.
Proof.
  intros (Hkeys & Hrange & Hsum).
  pose proof (getDominant_fold v "neutral"%string 0) as H. cbv zeta in H.
  fold (getDominant v) in H. destruct H as (_ & Hall & Hcase).
  assert (Hle : forall label, In label EMOTION_LABELS ->
                  prop_or_zero v label <= snd (getDominant v)).
  { intros label Hin. apply (Hall label). apply prop_or_zero_entry.
    rewrite Hkeys. exact Hin. }
  assert (Hlow : 1 / 8 <= snd (getDominant v)).
  { pose proof (sum_list_le_const (prop_or_zero v) _ EMOTION_LABELS Hle) as Hs.
    rewrite Hsum in Hs. change (INR (length EMOTION_LABELS)) with (INR 8) in Hs.
    replace (INR 8) with 8 in Hs by (cbn; lra). lra. }
  destruct Hcase as [Heq | (pre & post & Hv & _ & _)].
  { rewrite Heq in Hlow. cbn [snd] in Hlow. lra. }
  assert (Hin : In (getDominant v) v).
  { rewrite Hv at 2. apply in_or_app. right. left. reflexivity. }
  assert (Hd : In (fst (getDominant v)) EMOTION_LABELS).
  { rewrite <- Hkeys. apply in_map. exact Hin. }
  assert (Hval : prop_or_zero v (fst (getDominant v)) = snd (getDominant v)).
  { apply prop_or_zero_of_entry.
    - rewrite Hkeys. exact labels_nodup.
    - destruct (getDominant v). exact Hin. }
  split; [exact Hd|]. split; [exact Hval|]. split; [exact Hle|].
  split; [exact Hlow|]. rewrite <- Hval. apply Hrange, Hd.
Qed.

Lemma softmax_range_sum (x : list R) :
  x <> [] ->
  length (softmax x) = length x /\
  Forall (fun p => 0 <= p <= 1) (softmax x) /\
  sum_list (softmax x) = 1.
Proof.
  intros Hne.
  set (e := map (fun xi => exp (xi - Math_max x)) x).
  assert (Hsm : softmax x = map (fun v => v / sum_list e) e) by reflexivity.
  assert (He : Forall (fun v => 0 < v) e) by apply exp_scores_positive.
  assert (Hene : e <> []).
  { unfold e. destruct x; [congruence|]. discriminate. }
  assert (Hs : 0 < sum_list e) by (apply sum_list_positive; assumption).
  split; [|split].
  - rewrite Hsm. unfold e. rewrite !length_map. reflexivity.
  - apply Forall_forall. intros p Hp%list_elem_of_In. rewrite Hsm in Hp.
    apply in_map_iff in Hp as (v & <- & Hv).
    assert (0 < v).
    { rewrite Forall_forall in He. apply He, list_elem_of_In, Hv. }
    assert (v <= sum_list e).
    { apply sum_list_ge_member; [|exact Hv].
      eapply Forall_impl; [exact He|]. cbn. intros; lra. }
    split.
    + apply Rlt_le, Rdiv_lt_0_compat; assumption.
    + apply (Rmult_le_reg_r (sum_list e)); [exact Hs|].
      unfold Rdiv. rewrite Rmult_assoc, Rinv_l by lra. lra.
  - rewrite Hsm, sum_list_div. unfold Rdiv. apply Rinv_r. lra.
Qed.

Ltac split_range H :=
  repeat match type of H with
         | Forall _ (_ :: _) =>
             let H1 := fresh "Hp" in
             apply Forall_cons_1 in H; destruct H as [H1 H]
         end.

Lemma probabilitiesToMap_distribution (probabilities : list R) :
  (length probabilities <= 8)%nat ->
  Forall (fun p => 0 <= p <= 1) probabilities ->
  sum_list probabilities = 1 ->
  is_distribution (probabilitiesToMap probabilities).
Proof.
  intros Hlen Hrange Hsum.
  do 9 (try destruct probabilities as [|? probabilities]);
    try (cbn [length] in Hlen; lia);
    split_range Hrange; unfold sum_list in Hsum; cbn [fold_left] in Hsum;
    (split; [reflexivity|]); (split;
      [ intros label Hin; cbn in Hin;
        repeat (destruct Hin as [<- | Hin]; [unfold prop_or_zero; cbn; lra|]);
        destruct Hin
      | unfold sum_list, prop_or_zero; cbn; lra ]).
Qed.

(** X14.  A resolved model run keeps every vector a probability distribution.
    For one to eight logits and a smoother in a sound state (weight in
    [0, 1], no state or a distribution), runInference's raw vector and
    smoothed vector both have exactly the eight labels with values in
    [0, 1] summing to 1; the smoothed vector becomes the smoother's state;
    the dominant label is one of the eight, the confidence is its value
    in the smoothed vector, no label has a greater value, and the
    confidence lies between 1/8 and 1. *)
Theorem finish_inference_keeps_distribution
    (sm : EmaSmoother.t) (logits : list R) (inferenceTime : R) (timestamp : Z) :
  smoother_ok sm -> logits <> [] -> (length logits <= 8)%nat ->
  let p := fst (finish_inference sm logits inferenceTime timestamp) in
  let sm' := snd (finish_inference sm logits inferenceTime timestamp) in
  is_distribution (rawEmotions p) /\
  is_distribution (emotions p) /\
  smoother_ok sm' /\
  EmaSmoother.state sm' = Some (emotions p) /\
  isSilence p = false /\
  In (dominant p) EMOTION_LABELS /\
  prop_or_zero (emotions p) (dominant p) = confidence p /\
  (forall label, In label EMOTION_LABELS ->
     prop_or_zero (emotions p) label <= confidence p) /\
  1 / 8 <= confidence p <= 1.
Proof.
  intros Hok Hne Hlen.
  destruct (softmax_range_sum logits Hne) as (Hl & Hr & Hs).
  assert (Hraw : is_distribution (probabilitiesToMap (softmax logits))).
  { apply probabilitiesToMap_distribution; [lia | exact Hr | exact Hs]. }
  destruct (update_keeps_distribution sm _ Hok Hraw) as (Hd & Hok' & Hst & _).
  unfold finish_inference. cbv zeta.
  destruct (EmaSmoother.update sm (probabilitiesToMap (softmax logits)))
    as [emo sm'] eqn:Hupd.
  cbn [fst snd] in Hd, Hok', Hst.
  pose proof (dominant_of_distribution emo Hd) as Hdom.
  destruct (getDominant emo) as [d c]. cbn [fst snd] in Hdom |- *.
  cbn [rawEmotions emotions dominant confidence isSilence].
  destruct Hdom as (H1 & H2 & H3 & H4).
  split; [exact Hraw|]. split; [exact Hd|]. split; [exact Hok'|].
  split; [exact Hst|]. split; [reflexivity|]. split; [exact H1|].
  split; [exact H2|]. split; [exact H3 | exact H4].
Qed.

Lemma getDominant_neutral : getDominant NEUTRAL_VECTOR = ("neutral"%string, 1).
Proof.
  unfold getDominant. cbn.
  repeat (destruct (Rlt_dec _ _); try lra). reflexivity.
Qed.

(** X15.  A silence result keeps the smoother and the emitted vector
    probability distributions, inside the hold time and outside it: the
    emitted vector has the eight labels with values in [0, 1] summing to
    1, the raw copy is the same vector, the dominant label is one of the
    eight with a confidence between 1/8 and 1, and the smoother stays
    sound.  From a smoother without state (a fresh or reset one) the
    result is the neutral vector with dominant "neutral" and
    confidence 1. *)
Theorem silence_result_keeps_distribution
    (sm : EmaSmoother.t) (lastVoiced now : Z) :
  smoother_ok sm ->
  let p := fst (buildSilenceResult sm lastVoiced now) in
  let sm' := snd (buildSilenceResult sm lastVoiced now) in
  is_distribution (emotions p) /\
  rawEmotions p = emotions p /\
  isSilence p = true /\
  smoother_ok sm' /\
  In (dominant p) EMOTION_LABELS /\
  prop_or_zero (emotions p) (dominant p) = confidence p /\
  1 / 8 <= confidence p <= 1 /\
  (EmaSmoother.state sm = None ->
   emotions p = NEUTRAL_VECTOR /\ dominant p = "neutral"%string /\
   confidence p = 1).
Proof.
  intros Hok.
  assert (Hcase :
    exists v sm1,
      buildSilenceResult sm lastVoiced now
      = (mkPrediction v v (fst (getDominant v)) (snd (getDominant v)) 0 now
           true, sm1) /\
      is_distribution v /\ smoother_ok sm1 /\
      (EmaSmoother.state sm = None -> v = NEUTRAL_VECTOR)).
  { destruct (Z_lt_dec 0 lastVoiced) as [Hv | Hv];
      [destruct (Z_lt_dec (now - lastVoiced) VOICE_HOLD_MS) as [Hh | Hh]|].
    - eexists _, _. split; [apply silence_hold; assumption|].
      split; [|split; [exact Hok|]].
      + destruct Hok as [_ Hst].
        destruct (EmaSmoother.state sm); [exact Hst|].
        exact NEUTRAL_VECTOR_is_distribution.
      + intros ->. reflexivity.
    - destruct (update_keeps_distribution sm NEUTRAL_VECTOR Hok
                  NEUTRAL_VECTOR_is_distribution) as (Hd & Hok' & _).
      eexists _, _. split; [apply silence_decay; lia|].
      split; [exact Hd|]. split; [exact Hok'|].
      intros Hnone. unfold EmaSmoother.update. rewrite Hnone. reflexivity.
    - destruct (update_keeps_distribution sm NEUTRAL_VECTOR Hok
                  NEUTRAL_VECTOR_is_distribution) as (Hd & Hok' & _).
      eexists _, _. split; [apply silence_decay; lia|].
      split; [exact Hd|]. split; [exact Hok'|].
      intros Hnone. unfold EmaSmoother.update. rewrite Hnone. reflexivity. }
  destruct Hcase as (v & sm1 & -> & Hd & Hok1 & Hnone).
  cbn [fst snd emotions rawEmotions dominant confidence isSilence].
  destruct (dominant_of_distribution v Hd) as (H1 & H2 & _ & H4).
  split; [exact Hd|]. split; [reflexivity|]. split; [reflexivity|].
  split; [exact Hok1|]. split; [exact H1|]. split; [exact H2|].
  split; [exact H4|].
  intros Hst. rewrite (Hnone Hst), getDominant_neutral.
  split; [reflexivity|]. split; reflexivity.
Qed.

End Predictions.

Section PredictionInstances.
Local Open Scope R_scope.

Lemma fresh_smoother_ok : smoother_ok (EmaSmoother.constructor EMA_ALPHA).
Proof. split; [unfold EMA_ALPHA; cbn; lra | exact I]. Qed.

Lemma finish_inference_keeps_distribution_witness :
  let p := fst (finish_inference (EmaSmoother.constructor EMA_ALPHA)
                  [0; 1; 0; 3; 0; 0; 2; 0] 5 1000) in
  is_distribution (emotions p) /\ 1 / 8 <= confidence p <= 1.
Proof.
  destruct (finish_inference_keeps_distribution
              (EmaSmoother.constructor EMA_ALPHA)
              [0; 1; 0; 3; 0; 0; 2; 0] 5 1000)
    as (_ & Hd & _ & _ & _ & _ & _ & _ & Hc).
  - exact fresh_smoother_ok.
  - discriminate.
  - cbn. lia.
  - split; [exact Hd | exact Hc].
Defined.

Lemma silence_result_keeps_distribution_witness :
  let p := fst (buildSilenceResult (EmaSmoother.constructor EMA_ALPHA) 0 1000) in
  emotions p = NEUTRAL_VECTOR /\ dominant p = "neutral"%string /\
  confidence p = 1.
Proof.
  destruct (silence_result_keeps_distribution
              (EmaSmoother.constructor EMA_ALPHA) 0 1000 fresh_smoother_ok)
    as (_ & _ & _ & _ & _ & _ & _ & Hn).
  apply Hn. reflexivity.
Defined.

End PredictionInstances.

Section SilenceDecay.
Local Open Scope R_scope.

(** X16.  Silence decays geometrically.  Over consecutive silence hops that
    all fall outside the hold time, starting from a smoother with state
    [prev], the vector emitted by hop number k (counting from 0) is at
    distance [(1 - alpha)^(k+1)] times the distance of [prev] from the
    neutral vector: each hop multiplies the distance by [1 - alpha]. *)
Theorem silence_decays_geometrically
    (sm : EmaSmoother.t) (prev : EmotionVector) (lastVoiced : Z)
    (timestamps : list Z) (k : nat) (p : PredictionResult) :
  0 <= EmaSmoother.alpha sm <= 1 ->
  EmaSmoother.state sm = Some prev ->
  Forall (fun now => ~ (0 < lastVoiced /\ now - lastVoiced < VOICE_HOLD_MS)%Z)
    timestamps ->
  fst (silence_hops sm lastVoiced timestamps) !! k = Some p ->
  isSilence p = true /\
  distance_to_neutral (emotions p)
  = (1 - EmaSmoother.alpha sm) ^ (S k) * distance_to_neutral prev.
Proof.
  intros Ha Hst Hout. revert sm prev k Ha Hst.
  induction Hout as [|now rest Hnow Hrest IH]; intros sm prev k Ha Hst Hk.
  - cbn in Hk. discriminate.
  - cbn [silence_hops] in Hk.
    rewrite (silence_decay sm lastVoiced now Hnow) in Hk.
    rewrite (update_with_state sm prev NEUTRAL_VECTOR Hst) in Hk.
    cbn [fst snd] in Hk.
    pose proof (blend_toward_neutral_distance (EmaSmoother.alpha sm) prev Ha)
      as Hv.
    set (v := map _ EMOTION_LABELS) in Hk, Hv. clearbody v.
    set (sm1 := EmaSmoother.mk (EmaSmoother.alpha sm) (Some v)) in Hk.
    destruct (silence_hops sm1 lastVoiced rest) as [results sm2] eqn:Hrun.
    cbn [fst] in Hk. destruct k as [|k].
    + cbn in Hk. injection Hk as <-. cbn [isSilence emotions].
      split; [reflexivity|]. rewrite Hv. cbn [pow]. lra.
    + cbn in Hk.
      destruct (IH sm1 v k Ha eq_refl) as [Hs Hd].
      { rewrite Hrun. exact Hk. }
      split; [exact Hs|]. rewrite Hd, Hv.
      change (EmaSmoother.alpha sm1) with (EmaSmoother.alpha sm).
      cbn [pow]. lra.
Qed.

End SilenceDecay.

Section SilenceDecayInstances.
Local Open Scope R_scope.

Lemma silence_decays_geometrically_witness :
  let sm := EmaSmoother.mk EMA_ALPHA
              (Some (probabilitiesToMap [0; 0; 0; 1; 0; 0; 0; 0])) in
  exists p,
    fst (silence_hops sm 0 [1000; 1500; 2000]%Z) !! 2%nat = Some p /\
    distance_to_neutral (emotions p)
    = (1 - EMA_ALPHA) ^ 3
      * distance_to_neutral (probabilitiesToMap [0; 0; 0; 1; 0; 0; 0; 0]).
Proof.
  intros sm.
  destruct (fst (silence_hops sm 0 [1000; 1500; 2000]%Z) !! 2%nat)
    as [p|] eqn:Hp.
  - exists p. split; [reflexivity|].
    apply (silence_decays_geometrically sm _ 0%Z [1000; 1500; 2000]%Z 2 p).
    + unfold sm, EMA_ALPHA. cbn. lra.
    + reflexivity.
    + repeat constructor; lia.
    + exact Hp.
  - exfalso. cbn [silence_hops] in Hp.
    repeat (destruct (buildSilenceResult _ _ _) in Hp).
    cbn in Hp. discriminate.
Defined.

End SilenceDecayInstances.

(** ** The store's rolling buffer and hop cycle *)

Section StoreFacts.
Local Open Scope R_scope.

Lemma finish_inference_isSilence (sm : EmaSmoother.t) (logits : list R)
    (it : R) (t : Z) :
  isSilence (fst (finish_inference sm logits it t)) = false.
Proof.
  unfold finish_inference. cbv zeta.
  destruct (EmaSmoother.update _ _); destruct (getDominant _); reflexivity.
Qed.

(** X17.  addAudioSamples keeps the rolling buffer bounded.  While inference
    runs, the new buffer is the old one followed by the new samples, cut
    from the front to the last 4 * 2376 = 9504 samples, so its length is
    the smaller of the total and 9504, and a batch of at most 9504
    samples is always kept whole at the end; while inference is not
    running the samples are dropped and the store is unchanged. *)
Theorem addAudioSamples_keeps_latest (st : EmotionStore.t) (samples : list R) :
  let st' := EmotionStore.addAudioSamples st samples in
  let all := EmotionStore.audioBuffer st ++ samples in
  (EmotionStore.isInferenceRunning st = false -> st' = st) /\
  (EmotionStore.isInferenceRunning st = true ->
   EmotionStore.audioBuffer st'
   = drop (Z.to_nat (Z.of_nat (length all) - 9504)) all /\
   Z.of_nat (length (EmotionStore.audioBuffer st'))
   = Z.min (Z.of_nat (length all)) 9504 /\
   ((Z.of_nat (length samples) <= 9504)%Z ->
    exists older, EmotionStore.audioBuffer st' = older ++ samples)) /\
  EmotionStore.isInferenceRunning st' = EmotionStore.isInferenceRunning st /\
  EmotionStore.handled st' = EmotionStore.handled st.
Proof.
  intros st' all. unfold st', EmotionStore.addAudioSamples.
  destruct (EmotionStore.isInferenceRunning st) eqn:Hrun; cbn [negb].
  2:{ split; [reflexivity|]. split; [discriminate|]. split; [exact Hrun|].
      reflexivity. }
  split; [discriminate|].
  assert (Hmax : (InferenceService.getWindowSize * 4 = 9504)%Z) by reflexivity.
  rewrite Hmax. cbv zeta. fold all.
  assert (Hbuf :
    (if (Z.of_nat (length all) >? 9504)%Z
     then drop (Z.to_nat (Z.of_nat (length all) - 9504)) all
     else all) = drop (Z.to_nat (Z.of_nat (length all) - 9504)) all).
  { destruct (Z.gtb_spec (Z.of_nat (length all)) 9504) as [Hgt | Hle].
    - reflexivity.
    - replace (Z.to_nat (Z.of_nat (length all) - 9504)) with 0%nat by lia.
      reflexivity. }
  rewrite Hbuf. cbn [EmotionStore.audioBuffer EmotionStore.isInferenceRunning
                     EmotionStore.handled].
  split; [|split; reflexivity].
  intros _. split; [reflexivity|]. split.
  - rewrite length_drop. lia.
  - intros Hlen.
    exists (drop (Z.to_nat (Z.of_nat (length all) - 9504))
              (EmotionStore.audioBuffer st)).
    unfold all. rewrite drop_app_le; [reflexivity|].
    rewrite length_app. lia.
Qed.

Lemma addAudioSamples_keeps_latest_witness :
  let st := EmotionStore.mk true (replicate (Z.to_nat 9500) 0) [] in
  Z.of_nat (length (EmotionStore.audioBuffer
                      (EmotionStore.addAudioSamples st [1; 2; 3; 4; 5; 6])))
  = Z.min (Z.of_nat (length (replicate (Z.to_nat 9500) 0
                             ++ [1; 2; 3; 4; 5; 6]))) 9504 /\
  exists older,
    EmotionStore.audioBuffer
      (EmotionStore.addAudioSamples st [1; 2; 3; 4; 5; 6])
    = older ++ [1; 2; 3; 4; 5; 6].
Proof.
  intros st.
  destruct (addAudioSamples_keeps_latest st [1; 2; 3; 4; 5; 6])
    as (_ & Hrun & _).
  destruct (Hrun eq_refl) as (_ & Hlen & Hsuffix).
  split; [exact Hlen|]. apply Hsuffix. cbn. lia.
Defined.

(** X18.  A hop of the store that yields a result.  With inference running,
    the model ready and at least a window of 2376 samples buffered,
    whenever the window is below the noise gate or the model call
    resolves, processAudio hands exactly one result to handlePrediction
    (a silence result exactly when the window was below the gate) and
    drops the first 2375 samples, the hop, from the rolling buffer; the
    window it analysed is the last 2376 samples.  Without a running
    inference, a ready model or a full window it changes nothing. *)
Theorem processAudio_success_advances
    (outcome : run_outcome) (inferenceTime : R) (now finished : Z)
    (svc : InferenceService.t) (st : EmotionStore.t) :
  let buffer := EmotionStore.audioBuffer st in
  let window := slice_from buffer (- INFERENCE_WINDOW_SAMPLES) in
  let st' := snd (EmotionStore.processAudio outcome inferenceTime now finished
                    svc st) in
  (EmotionStore.isInferenceRunning st = false \/
   InferenceService.isInferenceReady svc = false \/
   (length buffer < 2376)%nat ->
   EmotionStore.processAudio outcome inferenceTime now finished svc st
   = (svc, st)) /\
  (EmotionStore.isInferenceRunning st = true ->
   InferenceService.isInferenceReady svc = true ->
   (2376 <= length buffer)%nat ->
   calculateRMS window < NOISE_GATE_THRESHOLD \/
   (exists logits, outcome = Resolved logits) ->
   window = drop (length buffer - 2376) buffer /\
   (exists result,
      EmotionStore.handled st' = EmotionStore.handled st ++ [result] /\
      (isSilence result = true <->
       calculateRMS window < NOISE_GATE_THRESHOLD)) /\
   EmotionStore.audioBuffer st' = drop 2375 buffer /\
   EmotionStore.isInferenceRunning st' = true).
Proof.
  intros buffer window st'.
  assert (HW : INFERENCE_WINDOW_SAMPLES = 2376%Z) by reflexivity.
  assert (HH : HOP_SIZE_SAMPLES = 2375%Z) by reflexivity.
  split.
  - intros Hguard. unfold EmotionStore.processAudio.
    destruct (EmotionStore.isInferenceRunning st); cbn [negb orb];
      [|reflexivity].
    destruct (InferenceService.isInferenceReady svc); cbn [negb];
      [|reflexivity].
    unfold InferenceService.getWindowSize. rewrite HW. fold buffer.
    destruct (Z.ltb_spec (Z.of_nat (length buffer)) 2376) as [_ | Hge];
      [reflexivity|].
    destruct Hguard as [H | [H | H]]; [discriminate | discriminate | lia].
  - intros Hrun Hready Hlen Hresult.
    assert (Hwin : window = drop (length buffer - 2376) buffer).
    { unfold window, slice_from. rewrite HW. reflexivity. }
    split; [exact Hwin|].
    unfold st', EmotionStore.processAudio. rewrite Hrun, Hready.
    cbn [negb orb]. unfold InferenceService.getWindowSize,
      InferenceService.getHopSize. fold buffer. fold window.
    destruct (Z.ltb_spec (Z.of_nat (length buffer)) INFERENCE_WINDOW_SAMPLES)
      as [Hlt | _]; [rewrite HW in Hlt; lia|].
    rewrite HH.
    replace (slice_from buffer (Z.min 2375 (Z.of_nat (length buffer))))
      with (drop 2375 buffer).
    2:{ unfold slice_from. rewrite Z.min_l by lia. reflexivity. }
    unfold InferenceService.runInference.
    unfold InferenceService.isInferenceReady in Hready.
    destruct (InferenceService.session svc) as [sess|].
    2:{ rewrite andb_comm in Hready. cbn in Hready. discriminate. }
    destruct (Rlt_dec (calculateRMS window) NOISE_GATE_THRESHOLD)
      as [Hsilent | Hvoiced].
    + pose proof (buildSilenceResult_isSilence
                    (InferenceService.probabilitySmoother svc)
                    (InferenceService.lastVoicedTimestamp svc) now) as Hs.
      destruct (buildSilenceResult _ _ _) as [result sm]. cbn [fst] in Hs.
      cbn [snd EmotionStore.handled EmotionStore.audioBuffer
           EmotionStore.isInferenceRunning].
      split; [|split; reflexivity].
      exists result. split; [reflexivity|]. tauto.
    + destruct Hresult as [Hsilent | (logits & ->)]; [contradiction|].
      cbn [InferenceService.probabilitySmoother InferenceService.session
           InferenceService.isInitialized
           InferenceService.lastVoicedTimestamp].
      pose proof (finish_inference_isSilence
                    (InferenceService.probabilitySmoother svc) logits
                    inferenceTime finished) as Hs.
      destruct (finish_inference _ _ _ _) as [result sm]. cbn [fst] in Hs.
      cbn [snd EmotionStore.handled EmotionStore.audioBuffer
           EmotionStore.isInferenceRunning].
      split; [|split; reflexivity].
      exists result. split; [reflexivity|].
      rewrite Hs. split; [discriminate | contradiction].
Qed.

End StoreFacts.

Section StoreInstances.
Local Open Scope R_scope.

Lemma processAudio_success_advances_witness :
  let svc := InferenceService.mk (Some LoadedSession) true 0
               (EmaSmoother.constructor EMA_ALPHA) in
  let st := EmotionStore.mk true (replicate 2376 0) [] in
  EmotionStore.audioBuffer
    (snd (EmotionStore.processAudio (Rejected "unused") 0 1000 1001 svc st))
  = drop 2375 (replicate 2376 0).
Proof.
  intros svc st.
  destruct (processAudio_success_advances (Rejected "unused") 0 1000 1001
              svc st) as (_ & Hhop).
  destruct Hhop as (_ & _ & Hbuf & _).
  - reflexivity.
  - reflexivity.
  - cbn [EmotionStore.audioBuffer st]. rewrite length_replicate. lia.
  - left. cbn [EmotionStore.audioBuffer st].
    rewrite slice_from_whole.
    + rewrite calculateRMS_replicate by lia.
      rewrite Rabs_R0. unfold NOISE_GATE_THRESHOLD. lra.
    + reflexivity.
    + rewrite length_replicate. reflexivity.
  - exact Hbuf.
Defined.

End StoreInstances.

(** ** The tensor handed to the model *)

Section ModelInput.
Local Open Scope R_scope.

Lemma normalizeAudio_length (samples : list R) :
  length (normalizeAudio samples) = length samples.
Proof.
  unfold normalizeAudio. destruct (Req_dec_T _ 0); [reflexivity|].
  apply length_map.
Qed.

Lemma standardizeAudio_length (samples : list R) :
  length (standardizeAudio samples) = length samples.
Proof.
  destruct samples as [|x0 rest]; [reflexivity|].
  unfold standardizeAudio. cbv zeta. apply length_map.
Qed.

Lemma standardizeAudio_sum (samples : list R) :
  sum_list (standardizeAudio samples) = 0.
Proof.
  destruct samples as [|x0 rest]; [reflexivity|].
  set (l := x0 :: rest).
  rewrite (standardizeAudio_nonempty l) by discriminate. cbv zeta.
  rewrite sum_list_centered.
  assert (Hn : INR (length l) <> 0) by (apply not_0_INR; discriminate).
  replace (sum_list l - INR (length l) * (sum_list l / INR (length l)))
    with 0 by (field; exact Hn).
  unfold Rdiv. ring.
Qed.

(** X19.  What runInference hands to the model always has exactly
    INFERENCE_WINDOW_SAMPLES = 2376 samples, whatever the length of the
    audio it was given, and these samples sum to zero.  A longer input
    counts only through its last 2376 samples; a shorter one is analysed
    as if it had been followed by zeros up to 2376 samples. *)
Theorem model_input_has_window_length (samples : list R) :
  Z.of_nat (length (InferenceService.prepare samples))
  = INFERENCE_WINDOW_SAMPLES /\
  sum_list (InferenceService.prepare samples) = 0 /\
  (forall older window,
     Z.of_nat (length window) = INFERENCE_WINDOW_SAMPLES ->
     InferenceService.prepare (older ++ window)
     = InferenceService.prepare window) /\
  ((length samples <= 2376)%nat ->
   InferenceService.prepare samples
   = InferenceService.prepare
       (samples ++ replicate (2376 - length samples) 0)).
Proof.
  assert (HW : INFERENCE_WINDOW_SAMPLES = 2376%Z) by reflexivity.
  assert (Hexact : forall w, Z.of_nat (length w) = 2376%Z ->
            InferenceService.prepare w
            = standardizeAudio (normalizeAudio w)).
  { intros w Hw. unfold InferenceService.prepare. rewrite HW.
    destruct (Z.ltb_spec (Z.of_nat (length w)) 2376); [lia|].
    destruct (Z.gtb_spec (Z.of_nat (length w)) 2376); [lia|]. reflexivity. }
  split; [|split; [|split]].
  - unfold InferenceService.prepare.
    rewrite standardizeAudio_length, normalizeAudio_length, HW.
    destruct (Z.ltb_spec (Z.of_nat (length samples)) 2376) as [Hlt | Hge].
    + rewrite length_app, length_replicate. lia.
    + destruct (Z.gtb_spec (Z.of_nat (length samples)) 2376) as [Hgt | Hle];
        [|lia].
      apply slice_from_length; lia.
  - unfold InferenceService.prepare. apply standardizeAudio_sum.
  - intros older window Hw. rewrite HW in Hw. rewrite (Hexact window Hw).
    destruct older as [|o older]; [apply Hexact; exact Hw|].
    unfold InferenceService.prepare. rewrite HW, length_app.
    destruct (Z.ltb_spec (Z.of_nat (length (o :: older) + length window)) 2376)
      as [Hlt | _]; [lia|].
    destruct (Z.gtb_spec (Z.of_nat (length (o :: older) + length window)) 2376)
      as [_ | Hle]; [|cbn [length] in Hle; lia].
    unfold slice_from. change (- 2376 <? 0)%Z with true. cbv iota.
    rewrite length_app, Z.opp_involutive.
    replace (length (o :: older) + length window - Z.to_nat 2376)%nat
      with (length (o :: older)) by lia.
    rewrite drop_app_length. reflexivity.
  - intros Hlen.
    rewrite (Hexact (samples ++ replicate (2376 - length samples) 0)).
    2:{ rewrite length_app, length_replicate. lia. }
    unfold InferenceService.prepare. rewrite HW.
    destruct (Z.ltb_spec (Z.of_nat (length samples)) 2376) as [Hlt | Hge].
    + change (Z.to_nat 2376) with 2376%nat. reflexivity.
    + destruct (Z.gtb_spec (Z.of_nat (length samples)) 2376) as [Hgt | _];
        [lia|].
      replace (2376 - length samples)%nat with 0%nat by lia.
      cbn [replicate]. rewrite app_nil_r. reflexivity.
Qed.

Lemma model_input_has_window_length_witness :
  InferenceService.prepare ([7; 8] ++ replicate 2376 1)
  = InferenceService.prepare (replicate 2376 1) /\
  InferenceService.prepare [1; 2]
  = InferenceService.prepare ([1; 2] ++ replicate (2376 - 2) 0).
Proof.
  destruct (model_input_has_window_length [1; 2]) as (_ & _ & Hlast & Hpad).
  split.
  - apply Hlast. rewrite length_replicate. reflexivity.
  - apply Hpad. cbn. lia.
Defined.

End ModelInput.

(** ** Resampling *)

Section Resampling.
Local Open Scope Q_scope.

Lemma Qfloor_nonneg (x : Q) : 0 <= x -> (0 <= Qfloor x)%Z.
Proof.
  intros H. change 0%Z with (Qfloor 0). apply Qfloor_resp_le. exact H.
Qed.

Lemma Qfloor_lt_bound (x : Q) (n : Z) : x < inject_Z n -> (Qfloor x < n)%Z.
Proof.
  intros H. rewrite Zlt_Qlt.
  eapply Qle_lt_trans; [apply Qfloor_le | exact H].
Qed.

Lemma ta_get_in_range {A : Type} (l : list A) (i : Z) :
  (0 <= i < Z.of_nat (length l))%Z ->
  exists x, ta_get l i = Some x /\ In x l.
Proof.
  intros Hi. unfold ta_get.
  destruct (Z.ltb_spec i 0) as [Hneg | _]; [lia|].
  destruct (l !! Z.to_nat i) as [x|] eqn:Hx.
  - exists x. split; [reflexivity|].
    apply list_elem_of_In. eapply list_elem_of_lookup_2. exact Hx.
  - apply lookup_ge_None in Hx. lia.
Qed.

Lemma resample_loop_within (buffer : list Q) (ratio lo hi : Q) (n : nat) :
  0 <= ratio ->
  (forall x, In x buffer -> lo <= x <= hi) ->
  forall phase,
    0 <= phase ->
    (n = 0%nat \/
     phase + inject_Z (Z.of_nat n - 1) * ratio
     < inject_Z (Z.of_nat (length buffer))) ->
    length (resample_loop buffer ratio n phase) = n /\
    Forall (within lo hi) (resample_loop buffer ratio n phase).
Proof.
  intros Hratio Hrange. induction n as [|n IH]; intros phase Hphase Hlast.
  - cbn. split; [reflexivity | constructor].
  - destruct Hlast as [Hz | Hlast]; [discriminate|].
    cbn [resample_loop]. cbv zeta.
    assert (Hn : 0 <= inject_Z (Z.of_nat (S n) - 1)).
    { rewrite <- (Zle_Qle 0). lia. }
    assert (Hlt : phase < inject_Z (Z.of_nat (length buffer))).
    { eapply Qle_lt_trans; [|exact Hlast].
      assert (0 <= inject_Z (Z.of_nat (S n) - 1) * ratio)
        by (apply Qmult_le_0_compat; assumption).
      Lqa.lra. }
    pose proof (Qfloor_nonneg phase Hphase) as Hf0.
    pose proof (Qfloor_lt_bound phase _ Hlt) as Hf1.
    destruct (ta_get_in_range buffer (Qfloor phase)) as (x & -> & Hx); [lia|].
    destruct (ta_get_in_range buffer
                (Z.min (Qfloor phase + 1) (Z.of_nat (length buffer) - 1)))
      as (y & -> & Hy); [lia|].
    assert (IHn : length (resample_loop buffer ratio n (phase + ratio)) = n /\
                  Forall (within lo hi)
                    (resample_loop buffer ratio n (phase + ratio))).
    { apply IH; [Lqa.lra|].
      destruct n as [|n]; [left; reflexivity | right].
      eapply Qle_lt_trans; [|exact Hlast].
      replace (Z.of_nat (S (S n)) - 1)%Z with (Z.of_nat (S n) - 1 + 1)%Z by lia.
      rewrite inject_Z_plus. change (inject_Z 1) with 1. Lqa.lra. }
    destruct IHn as [IHlen IHall].
    split; [cbn [length]; rewrite IHlen; reflexivity|].
    constructor; [|exact IHall].
    eexists. split; [reflexivity|].
    pose proof (Qfloor_le phase) as Ht0.
    pose proof (Qlt_floor phase) as Ht1. rewrite inject_Z_plus in Ht1.
    change (inject_Z 1) with 1 in Ht1.
    pose proof (Hrange x Hx). pose proof (Hrange y Hy).
    set (t := phase - inject_Z (Qfloor phase)).
    assert (Ht : 0 <= t <= 1) by (unfold t; split; Lqa.lra).
    clearbody t. split; Lqa.nra.
Qed.


Lemma Qfloor_le_int (x : Q) (n : Z) : x < inject_Z n + 1 -> (Qfloor x <= n)%Z.
Proof.
  intros H. assert (Hlt : (Qfloor x < n + 1)%Z); [|lia].
  apply Qfloor_lt_bound. rewrite inject_Z_plus. exact H.
Qed.

Lemma resampleAudio_last_phase (len ratio : Q) :
  0 < ratio -> 1 <= len ->
  inject_Z (Z.max 1 (Math_round (len / ratio)) - 1) * ratio < len.
Proof.
  intros Hratio Hlen.
  destruct (Z.max_spec 1 (Math_round (len / ratio)))
    as [[Hlt ->] | [Hle ->]].
  - pose proof (Qfloor_le (len / ratio + (1 # 2))) as Hfl.
    fold (Math_round (len / ratio)) in Hfl.
    set (r := Math_round (len / ratio)) in *.
    assert (Hk : inject_Z (r - 1) == inject_Z r - 1).
    { unfold Zminus. rewrite inject_Z_plus. reflexivity. }
    rewrite Hk.
    assert (Hd : len / ratio * ratio == len).
    { unfold Qdiv. rewrite <- Qmult_assoc, (Qmult_comm (/ ratio)).
      rewrite Qmult_inv_r by Lqa.lra. apply Qmult_1_r. }
    set (d := len / ratio) in *. set (k := inject_Z r) in *.
    clearbody d k. Lqa.nra.
  - change (inject_Z (1 - 1)) with 0. Lqa.lra.
Qed.

(** X20.  resampleAudio never leaves the range of its input.  For positive
    sample rates every output is a number (the loop never reads outside
    the input, so no NaN), lying between any two bounds that enclose
    all input samples; a non-empty input gives a non-empty output, of
    max(1, round(length * outRate / inRate)) samples when the rates
    differ; equal rates or an empty input return a copy of the input. *)
Theorem resampleAudio_stays_in_range
    (inputBuffer : list Q) (inputSampleRate outputSampleRate lo hi : Q) :
  0 < inputSampleRate -> 0 < outputSampleRate ->
  (forall x, In x inputBuffer -> lo <= x <= hi) ->
  let output := resampleAudio inputBuffer inputSampleRate outputSampleRate in
  Forall (within lo hi) output /\
  (inputBuffer <> [] -> output <> []) /\
  (inputBuffer <> [] -> ~ inputSampleRate == outputSampleRate ->
   Z.of_nat (length output)
   = Z.max 1 (Math_round (inject_Z (Z.of_nat (length inputBuffer))
                          * outputSampleRate / inputSampleRate))) /\
  (inputBuffer = [] \/ inputSampleRate == outputSampleRate ->
   output = map Some inputBuffer).
Proof.
  intros Hin Hout Hrange output.
  assert (Hcopy : Forall (within lo hi) (map Some inputBuffer)).
  { apply Forall_forall. intros o Ho%list_elem_of_In.
    apply in_map_iff in Ho as (x & <- & Hx).
    exists x. split; [reflexivity | apply Hrange, Hx]. }
  set (len := inject_Z (Z.of_nat (length inputBuffer))).
  set (ratio := inputSampleRate / outputSampleRate).
  assert (Hratio : 0 < ratio).
  { unfold ratio. apply Qlt_shift_div_l; [exact Hout|]. Lqa.lra. }
  set (n := Z.max 1 (Math_round (len / ratio))).
  assert (Hloop : inputBuffer <> [] ->
            length (resample_loop inputBuffer ratio (Z.to_nat n) 0)
            = Z.to_nat n /\
            Forall (within lo hi)
              (resample_loop inputBuffer ratio (Z.to_nat n) 0)).
  { intros Hne. apply resample_loop_within;
      [Lqa.lra | exact Hrange | Lqa.lra |].
    right. rewrite Z2Nat.id by (unfold n; lia).
    assert (Hlen : 1 <= len).
    { unfold len. rewrite <- (Zle_Qle 1).
      destruct inputBuffer; [congruence | cbn [length]; lia]. }
    pose proof (resampleAudio_last_phase len ratio Hratio Hlen) as Hlast.
    rewrite Qplus_0_l. exact Hlast. }
  unfold output, resampleAudio. fold len ratio n.
  split; [|split; [|split]].
  - destruct (length inputBuffer =? 0)%nat eqn:Hlen; cbn [orb];
      [exact Hcopy|].
    destruct (Qeq_bool inputSampleRate outputSampleRate); [exact Hcopy|].
    apply Hloop. intros ->. discriminate.
  - intros Hne.
    destruct (length inputBuffer =? 0)%nat eqn:Hlen; cbn [orb].
    { destruct inputBuffer; [congruence | discriminate]. }
    destruct (Qeq_bool inputSampleRate outputSampleRate).
    { destruct inputBuffer; [congruence | discriminate]. }
    destruct (Hloop Hne) as [Hl _]. intros Hnil. rewrite Hnil in Hl.
    cbn [length] in Hl. unfold n in Hl. lia.
  - intros Hne Hneq.
    destruct (length inputBuffer =? 0)%nat eqn:Hlen; cbn [orb].
    { destruct inputBuffer; [congruence | discriminate]. }
    destruct (Qeq_bool inputSampleRate outputSampleRate) eqn:Heq.
    { apply Qeq_bool_eq in Heq. contradiction. }
    destruct (Hloop Hne) as [Hl _]. rewrite Hl, Z2Nat.id by (unfold n; lia).
    unfold n, Math_round. f_equal. apply Qfloor_comp.
    unfold ratio. field. split; Lqa.lra.
  - intros [-> | Heq]; [reflexivity|].
    rewrite (Qeq_eq_bool _ _ Heq), orb_true_r. reflexivity.
Qed.


(** one call of the worklet's resampler *)
Lemma resample_spec (p : AudioProcessor.t) (inputSamples : list Q) (lo hi : Q) :
  0 < AudioProcessor.resampleRatio p ->
  let buffer := AudioProcessor.resampleBuffer p ++ inputSamples in
  (forall x, In x buffer -> lo <= x <= hi) ->
  let out := fst (AudioProcessor.resample p inputSamples) in
  let p' := snd (AudioProcessor.resample p inputSamples) in
  Forall (within lo hi) out /\
  Z.of_nat (length out)
  = Qfloor (inject_Z (Z.of_nat (length buffer)) / AudioProcessor.resampleRatio p) /\
  (exists consumed, buffer = consumed ++ AudioProcessor.resampleBuffer p') /\
  inject_Z (Z.of_nat (length (AudioProcessor.resampleBuffer p')))
  < AudioProcessor.resampleRatio p + 1 /\
  AudioProcessor.resampleRatio p' = AudioProcessor.resampleRatio p.
Proof.
  intros Hratio buffer Hrange out p'.
  unfold out, p', AudioProcessor.resample. fold buffer.
  set (ratio := AudioProcessor.resampleRatio p) in *.
  set (len := inject_Z (Z.of_nat (length buffer))).
  assert (Hlen0 : 0 <= len).
  { unfold len. rewrite <- (Zle_Qle 0). lia. }
  assert (Hd : len / ratio * ratio == len).
  { unfold Qdiv. rewrite <- Qmult_assoc, (Qmult_comm (/ ratio)).
    rewrite Qmult_inv_r by Lqa.lra. apply Qmult_1_r. }
  assert (Hd0 : 0 <= len / ratio).
  { apply Qle_shift_div_l; [exact Hratio | Lqa.lra]. }
  pose proof (Qfloor_le (len / ratio)) as Hfl.
  pose proof (Qlt_floor (len / ratio)) as Hfl1.
  rewrite inject_Z_plus in Hfl1. change (inject_Z 1) with 1 in Hfl1.
  pose proof (Qfloor_nonneg _ Hd0) as Hn0.
  set (n := Qfloor (len / ratio)) in *.
  destruct (Qlt_le_dec len ratio) as [Hshort | Hlong];
    cbn [fst snd AudioProcessor.resampleBuffer AudioProcessor.resampleRatio].
  - split; [constructor|]. split.
    + cbn [length]. symmetry.
      assert (Hle : (n <= 0)%Z); [|lia].
      apply Qfloor_le_int. change (inject_Z 0) with 0.
      apply Qlt_shift_div_r; [exact Hratio | Lqa.lra].
    + split; [exists []; reflexivity|]. split; [fold len; Lqa.lra | reflexivity].
  - destruct (resample_loop_within buffer ratio lo hi (Z.to_nat n))
      with (phase := 0) as [Hl Hall]; [Lqa.lra | exact Hrange | Lqa.lra | |].
    { right. rewrite Z2Nat.id by lia. fold len.
      assert (Hk : inject_Z (n - 1) == inject_Z n - 1).
      { unfold Zminus. rewrite inject_Z_plus. reflexivity. }
      rewrite Hk. set (d := len / ratio) in *. set (k := inject_Z n) in *.
      clearbody d k len ratio. Lqa.nra. }
    split; [exact Hall|]. split; [rewrite Hl; lia|].
    set (consumed := Qfloor (inject_Z n * ratio)).
    assert (Hc0 : (0 <= consumed)%Z).
    { apply Qfloor_nonneg. apply Qmult_le_0_compat; [|Lqa.lra].
      rewrite <- (Zle_Qle 0). exact Hn0. }
    pose proof (Qfloor_le (inject_Z n * ratio)) as Hcl.
    pose proof (Qlt_floor (inject_Z n * ratio)) as Hcl1.
    rewrite inject_Z_plus in Hcl1. change (inject_Z 1) with 1 in Hcl1.
    fold consumed in Hcl, Hcl1.
    assert (Hslice : slice_from buffer consumed
                     = drop (Z.to_nat consumed) buffer).
    { unfold slice_from.
      destruct (Z.ltb_spec consumed 0); [lia | reflexivity]. }
    rewrite Hslice.
    assert (Hcle : (consumed <= Z.of_nat (length buffer))%Z).
    { rewrite Zle_Qle. fold len.
      set (d := len / ratio) in *. set (k := inject_Z n) in *.
      set (c := inject_Z consumed) in *.
      clearbody d k c len ratio. Lqa.nra. }
    split; [|split; [|reflexivity]].
    + exists (take (Z.to_nat consumed) buffer). symmetry. apply take_drop.
    + rewrite length_drop.
      replace (Z.of_nat (length buffer - Z.to_nat consumed))
        with (Z.of_nat (length buffer) - consumed)%Z by lia.
      unfold Zminus. rewrite inject_Z_plus, inject_Z_opp. fold len.
      set (d := len / ratio) in *. set (k := inject_Z n) in *.
      set (c := inject_Z consumed) in *.
      clearbody d k c len ratio. Lqa.nra.
Qed.

(** X21.  The streaming resampler stays bounded.  For a positive ratio and
    any sequence of input blocks, every output of the worklet's resample
    is a number (never NaN) between any two bounds enclosing the samples
    fed so far; no input sample is lost or reordered: what the carry-over
    buffer holds afterwards is a suffix of everything fed in; and after
    each call the carry-over buffer holds fewer than ratio + 1 samples,
    so it cannot grow without bound. *)
Theorem streaming_resample_bounded
    (blocks : list (list Q)) (lo hi : Q) :
  forall p : AudioProcessor.t,
    0 < AudioProcessor.resampleRatio p ->
    let fed := AudioProcessor.resampleBuffer p ++ concat blocks in
    (forall x, In x fed -> lo <= x <= hi) ->
    let outs := fst (AudioProcessor.resample_blocks p blocks) in
    let p' := snd (AudioProcessor.resample_blocks p blocks) in
    Forall (within lo hi) outs /\
    (exists consumed, fed = consumed ++ AudioProcessor.resampleBuffer p') /\
    (blocks <> [] ->
     inject_Z (Z.of_nat (length (AudioProcessor.resampleBuffer p')))
     < AudioProcessor.resampleRatio p + 1) /\
    AudioProcessor.resampleRatio p' = AudioProcessor.resampleRatio p.
Proof.
  induction blocks as [|block rest IH]; intros p Hratio fed Hrange outs p'.
  - cbn. split; [constructor|]. split; [|split; [congruence | reflexivity]].
    exists []. unfold fed. cbn. rewrite app_nil_r. reflexivity.
  - unfold outs, p'. cbn [AudioProcessor.resample_blocks].
    assert (Hrange1 : forall x,
              In x (AudioProcessor.resampleBuffer p ++ block) ->
              lo <= x <= hi).
    { intros x Hx. apply Hrange. unfold fed. cbn [concat].
      rewrite app_assoc. apply in_or_app. left. exact Hx. }
    destruct (resample_spec p block lo hi Hratio Hrange1)
      as (Hout & _ & (consumed & Hcons) & Hcarry & Hr).
    destruct (AudioProcessor.resample p block) as [out p1].
    cbn [fst snd] in Hout, Hcons, Hcarry, Hr.
    assert (Hratio1 : 0 < AudioProcessor.resampleRatio p1)
      by (rewrite Hr; exact Hratio).
    assert (Hfed : fed = consumed
                         ++ (AudioProcessor.resampleBuffer p1 ++ concat rest)).
    { unfold fed. cbn [concat]. rewrite !app_assoc, <- Hcons. reflexivity. }
    assert (Hrange2 : forall x,
              In x (AudioProcessor.resampleBuffer p1 ++ concat rest) ->
              lo <= x <= hi).
    { intros x Hx. apply Hrange. rewrite Hfed.
      apply in_or_app. right. exact Hx. }
    specialize (IH p1 Hratio1 Hrange2). cbv zeta in IH.
    destruct (AudioProcessor.resample_blocks p1 rest) as [outs' p2] eqn:Hrun.
    cbn [fst snd] in IH |- *.
    destruct IH as (Houts & (consumed' & Hcons') & Hcarry' & Hr').
    split; [apply Forall_app; split; assumption|]. split; [|split].
    + exists (consumed ++ consumed'). rewrite Hfed, Hcons', app_assoc.
      reflexivity.
    + intros _. destruct rest as [|block' rest'].
      * cbn in Hrun. injection Hrun as _ <-. exact Hcarry.
      * rewrite <- Hr. apply Hcarry'. discriminate.
    + rewrite Hr'. exact Hr.
Qed.


Lemma Qfloor_div_Z (a k : Z) :
  (0 < k)%Z -> Qfloor (inject_Z a / inject_Z k) = (a / k)%Z.
Proof.
  intros Hk. destruct k as [|kp|kp]; [lia | | lia].
  unfold Qfloor, Qdiv, Qinv, Qmult, inject_Z. cbn.
  rewrite Z.mul_1_r. reflexivity.
Qed.

Lemma resample_loop_integer (buffer : list Q) (ratio : Q) (k : Z) (n : nat) :
  ratio == inject_Z k -> (0 <= k)%Z ->
  forall (z : Z) (phase : Q),
    phase == inject_Z z -> (0 <= z)%Z ->
    (n = 0%nat \/ z + (Z.of_nat n - 1) * k < Z.of_nat (length buffer))%Z ->
    Forall2 is_sample (resample_loop buffer ratio n phase)
      (decimate buffer k n z).
Proof.
  intros Hratio Hk. induction n as [|n IH]; intros z phase Hphase Hz Hlast.
  - constructor.
  - destruct Hlast as [Hn | Hlast]; [discriminate|].
    cbn [resample_loop decimate]. cbv zeta.
    assert (Hfloor : Qfloor phase = z).
    { rewrite (Qfloor_comp _ _ Hphase). apply Qfloor_Z. }
    rewrite Hfloor.
    assert (Hzlt : (z < Z.of_nat (length buffer))%Z) by nia.
    destruct (ta_get_in_range buffer z) as (x & Hx & _); [lia|].
    destruct (ta_get_in_range buffer
                (Z.min (z + 1) (Z.of_nat (length buffer) - 1)))
      as (y & Hy & _); [lia|].
    rewrite Hx, Hy.
    assert (Hlook : buffer !! Z.to_nat z = Some x).
    { unfold ta_get in Hx. destruct (Z.ltb_spec z 0); [lia | exact Hx]. }
    rewrite Hlook. cbn [default lerp].
    constructor.
    + eexists. split; [reflexivity|].
      assert (Ht : phase - inject_Z z == 0) by (rewrite Hphase; ring).
      rewrite Ht. change (Datatypes.id x) with x. Lqa.lra.
    + apply IH.
      * rewrite inject_Z_plus, Hphase, Hratio. reflexivity.
      * lia.
      * destruct n as [|n]; [left; reflexivity | right]. nia.
Qed.


Lemma decimate_length (l : list Q) (k : Z) (n : nat) (z : Z) :
  length (decimate l k n z) = n.
Proof.
  revert z. induction n as [|n IH]; intros z; cbn; [reflexivity|].
  rewrite IH. reflexivity.
Qed.

Lemma decimate_drop (l : list Q) (k : Z) (d n : nat) :
  (0 <= k)%Z ->
  forall z, (0 <= z)%Z ->
    decimate (drop d l) k n z = decimate l k n (z + Z.of_nat d).
Proof.
  intros Hk. induction n as [|n IH]; intros z Hz; cbn [decimate];
    [reflexivity|].
  rewrite lookup_drop.
  replace (Z.to_nat (z + Z.of_nat d)) with (d + Z.to_nat z)%nat by lia.
  rewrite IH by lia. do 2 f_equal. lia.
Qed.

Lemma decimate_app_l (l l' : list Q) (k : Z) (n : nat) :
  (0 <= k)%Z ->
  forall z, (0 <= z)%Z ->
    (n = 0%nat \/ z + (Z.of_nat n - 1) * k < Z.of_nat (length l))%Z ->
    decimate (l ++ l') k n z = decimate l k n z.
Proof.
  intros Hk. induction n as [|n IH]; intros z Hz Hlast; cbn [decimate];
    [reflexivity|].
  destruct Hlast as [Hn | Hlast]; [discriminate|].
  rewrite lookup_app_l by nia.
  rewrite IH; [reflexivity | lia |].
  destruct n as [|n]; [left; reflexivity | right; nia].
Qed.

Lemma decimate_app (l : list Q) (k : Z) (a b : nat) :
  forall z,
    decimate l k (a + b) z
    = decimate l k a z ++ decimate l k b (z + Z.of_nat a * k).
Proof.
  induction a as [|a IH]; intros z.
  - cbn. f_equal. lia.
  - cbn [Nat.add decimate app]. rewrite IH.
    replace (z + k + Z.of_nat a * k)%Z with (z + Z.of_nat (S a) * k)%Z by lia.
    reflexivity.
Qed.

Lemma decimate_one (l : list Q) (n : nat) :
  forall z, (0 <= z)%Z -> (z + Z.of_nat n = Z.of_nat (length l))%Z ->
    decimate l 1 n z = drop (Z.to_nat z) l.
Proof.
  induction n as [|n IH]; intros z Hz Hlen; cbn [decimate].
  - rewrite drop_ge by lia. reflexivity.
  - destruct (l !! Z.to_nat z) as [x|] eqn:Hx.
    + rewrite (drop_S _ _ _ Hx). cbn [default]. unfold id.
      rewrite IH by lia. do 2 f_equal. lia.
    + apply lookup_ge_None in Hx. lia.
Qed.

Lemma copy_is_sample (l : list Q) : Forall2 is_sample (map Some l) l.
Proof.
  induction l as [|x l IH]; constructor; [|exact IH].
  exists x. split; reflexivity.
Qed.

Lemma agree_on_decimation (l : list Q) (k : Z) (a : nat) :
  forall (b : nat) (z : Z) (xs ys : list (option Q)),
    Forall2 is_sample xs (decimate l k a z) ->
    Forall2 is_sample ys (decimate l k b z) ->
    agree_on_common_length xs ys = true.
Proof.
  induction a as [|a IH]; intros b z xs ys Hxs Hys.
  - cbn in Hxs. inversion Hxs. reflexivity.
  - destruct b as [|b].
    + cbn in Hys. inversion Hys. destruct xs; reflexivity.
    + cbn [decimate] in Hxs, Hys.
      inversion Hxs as [|x q xs' qs (qx & -> & Hqx) Hxs']; subst.
      inversion Hys as [|y q' ys' qs' (qy & -> & Hqy) Hys']; subst.
      cbn [agree_on_common_length same_sample].
      rewrite (IH b _ _ _ Hxs' Hys'), andb_true_r.
      apply Qeq_eq_bool. rewrite Hqx, Hqy. reflexivity.
Qed.

(** one call of the worklet's resampler at an integer ratio *)
Lemma resample_integer (p : AudioProcessor.t) (k : Z) (inputSamples : list Q) :
  (1 <= k)%Z -> AudioProcessor.resampleRatio p == inject_Z k ->
  let buffer := AudioProcessor.resampleBuffer p ++ inputSamples in
  let n := (Z.of_nat (length buffer) / k)%Z in
  Forall2 is_sample (fst (AudioProcessor.resample p inputSamples))
    (decimate buffer k (Z.to_nat n) 0) /\
  AudioProcessor.resampleBuffer (snd (AudioProcessor.resample p inputSamples))
  = drop (Z.to_nat (n * k)) buffer /\
  AudioProcessor.resampleRatio (snd (AudioProcessor.resample p inputSamples))
  = AudioProcessor.resampleRatio p.
Proof.
  intros Hk Hratio buffer n.
  unfold AudioProcessor.resample. fold buffer.
  assert (Hfloor :
    Qfloor (inject_Z (Z.of_nat (length buffer)) / AudioProcessor.resampleRatio p)
    = n).
  { rewrite (Qfloor_comp _ (inject_Z (Z.of_nat (length buffer)) / inject_Z k)).
    - apply Qfloor_div_Z. lia.
    - rewrite Hratio. reflexivity. }
  rewrite Hfloor.
  assert (Hn0 : (0 <= n)%Z) by (apply Z.div_pos; lia).
  assert (Hnk : (n * k <= Z.of_nat (length buffer))%Z).
  { unfold n. rewrite Z.mul_comm. apply Z.mul_div_le. lia. }
  destruct (Qlt_le_dec _ _) as [Hshort | Hlong];
    cbn [fst snd AudioProcessor.resampleBuffer AudioProcessor.resampleRatio].
  - assert (Hz : n = 0%Z).
    { unfold n. apply Z.div_small. split; [lia|].
      rewrite Zlt_Qlt. rewrite <- Hratio. exact Hshort. }
    rewrite Hz. cbn. split; [constructor|]. split; reflexivity.
  - split; [|split; [|reflexivity]].
    + apply resample_loop_integer; [exact Hratio | lia | reflexivity | lia |].
      right. rewrite Z2Nat.id by lia. nia.
    + assert (Hc : Qfloor (inject_Z n * AudioProcessor.resampleRatio p)
                   = (n * k)%Z).
      { rewrite (Qfloor_comp _ (inject_Z (n * k))).
        - apply Qfloor_Z.
        - rewrite inject_Z_mult, Hratio. reflexivity. }
      rewrite Hc. unfold slice_from.
      destruct (Z.ltb_spec (n * k) 0); [nia | reflexivity].
Qed.

Lemma resample_blocks_integer (k : Z) (blocks : list (list Q)) :
  (1 <= k)%Z ->
  forall (p : AudioProcessor.t) (fed : list Q),
    AudioProcessor.resampleRatio p == inject_Z k ->
    AudioProcessor.resampleBuffer p
    = drop (Z.to_nat (Z.of_nat (length fed) / k * k)) fed ->
    let full := fed ++ concat blocks in
    let m := (Z.of_nat (length fed) / k)%Z in
    let N := (Z.of_nat (length full) / k)%Z in
    Forall2 is_sample (fst (AudioProcessor.resample_blocks p blocks))
      (decimate full k (Z.to_nat (N - m)) (m * k)) /\
    AudioProcessor.resampleBuffer (snd (AudioProcessor.resample_blocks p blocks))
    = drop (Z.to_nat (N * k)) full.
Proof.
  intros Hk. induction blocks as [|block rest IH]; intros p fed Hratio Hcarry.
  - cbn [concat AudioProcessor.resample_blocks fst snd]. cbv zeta.
    rewrite app_nil_r, Z.sub_diag. split; [constructor | exact Hcarry].
  - cbv zeta. cbn [AudioProcessor.resample_blocks concat].
    set (m := (Z.of_nat (length fed) / k)%Z) in *.
    set (fed1 := fed ++ block).
    set (N1 := (Z.of_nat (length fed1) / k)%Z).
    assert (Hm0 : (0 <= m)%Z) by (apply Z.div_pos; lia).
    assert (Hmk : (m * k <= Z.of_nat (length fed))%Z).
    { unfold m. rewrite Z.mul_comm. apply Z.mul_div_le. lia. }
    assert (Hlen1 : length fed1 = (length fed + length block)%nat)
      by apply length_app.
    assert (HmN1 : (m <= N1)%Z).
    { unfold m, N1. apply Z.div_le_mono; lia. }
    assert (HN1k : (N1 * k <= Z.of_nat (length fed1))%Z).
    { unfold N1. rewrite Z.mul_comm. apply Z.mul_div_le. lia. }
    destruct (resample_integer p k block Hk Hratio) as (Hout & Hrest & Hr).
    cbv zeta in Hout, Hrest.
    assert (Hbuf : AudioProcessor.resampleBuffer p ++ block
                   = drop (Z.to_nat (m * k)) fed1).
    { rewrite Hcarry. unfold fed1. rewrite drop_app_le by lia. reflexivity. }
    rewrite Hbuf in Hout, Hrest.
    assert (Hn1 : (Z.of_nat (length (drop (Z.to_nat (m * k)) fed1)) / k
                   = N1 - m)%Z).
    { rewrite length_drop.
      replace (Z.of_nat (length fed1 - Z.to_nat (m * k)))
        with (Z.of_nat (length fed1) + (- m) * k)%Z by lia.
      rewrite Z.div_add by lia. unfold N1. lia. }
    rewrite Hn1 in Hout, Hrest.
    rewrite decimate_drop in Hout by lia.
    rewrite drop_drop in Hrest.
    replace (Z.to_nat (m * k) + Z.to_nat ((N1 - m) * k))%nat
      with (Z.to_nat (N1 * k)) in Hrest by nia.
    rewrite Z2Nat.id, Z.add_0_l in Hout by nia.
    destruct (AudioProcessor.resample p block) as [out p1].
    cbn [fst snd] in Hout, Hrest, Hr.
    assert (Hratio1 : AudioProcessor.resampleRatio p1 == inject_Z k)
      by (rewrite Hr; exact Hratio).
    destruct (IH p1 fed1 Hratio1 Hrest) as [Houts Hfinal].
    fold N1 in Houts, Hfinal.
    destruct (AudioProcessor.resample_blocks p1 rest) as [outs p2].
    cbn [fst snd] in Houts, Hfinal |- *.
    replace (fed ++ block ++ concat rest) with (fed1 ++ concat rest)
      by (unfold fed1; rewrite app_assoc; reflexivity).
    set (full := fed1 ++ concat rest) in *.
    set (N := (Z.of_nat (length full) / k)%Z) in *.
    assert (HN1N : (N1 <= N)%Z).
    { unfold N1, N, full. apply Z.div_le_mono; [lia|].
      rewrite length_app. lia. }
    split; [|exact Hfinal].
    replace (Z.to_nat (N - m))
      with (Z.to_nat (N1 - m) + Z.to_nat (N - N1))%nat by lia.
    rewrite decimate_app. apply Forall2_app.
    + unfold full. rewrite decimate_app_l; [exact Hout | lia | nia |].
      right. rewrite Z2Nat.id by lia. nia.
    + replace (m * k + Z.of_nat (Z.to_nat (N1 - m)) * k)%Z with (N1 * k)%Z
        by nia.
      exact Houts.
Qed.

(** X22.  At an input rate that is a whole multiple k of 16 kHz the streaming
    resampler is exact: over any split of a signal into blocks, the
    worklet's outputs are the samples 0, k, 2k, ... of the signal, one for
    every complete group of k samples, with the incomplete last group
    carried over; and they agree, sample by sample on the common length,
    with resampleAudio run once on the whole signal. *)
Theorem integer_ratio_streaming_is_exact
    (sampleRate : Q) (k : Z) (blocks : list (list Q)) :
  (1 <= k)%Z -> sampleRate == inject_Z (k * 16000) ->
  let p := AudioProcessor.constructor sampleRate in
  let signal := concat blocks in
  let n := (Z.of_nat (length signal) / k)%Z in
  let streamed := fst (AudioProcessor.resample_blocks p blocks) in
  Forall2 is_sample streamed (decimate signal k (Z.to_nat n) 0) /\
  AudioProcessor.resampleBuffer (snd (AudioProcessor.resample_blocks p blocks))
  = drop (Z.to_nat (n * k)) signal /\
  agree_on_common_length streamed (resampleAudio signal sampleRate 16000)
  = true.
Proof.
  intros Hk Hrate p signal n streamed.
  assert (Hratio : sampleRate / 16000 == inject_Z k).
  { rewrite Hrate, inject_Z_mult. change (inject_Z 16000) with 16000.
    field. }
  destruct (resample_blocks_integer k blocks Hk p [] Hratio eq_refl)
    as [Hstream Hcarry].
  cbn [app length] in Hstream, Hcarry.
  change (Z.of_nat 0 / k)%Z with (0 / k)%Z in Hstream.
  rewrite Z.div_0_l, Z.sub_0_r in Hstream by lia.
  fold signal in Hstream, Hcarry. fold n in Hstream, Hcarry.
  fold streamed in Hstream.
  split; [exact Hstream|]. split; [exact Hcarry|].
  assert (Hbatch : exists b,
            Forall2 is_sample (resampleAudio signal sampleRate 16000)
              (decimate signal k b 0)).
  { unfold resampleAudio.
    destruct (length signal =? 0)%nat eqn:Hlen; cbn [orb].
    { exists 0%nat. destruct signal; [constructor | discriminate]. }
    apply Nat.eqb_neq in Hlen.
    destruct (Qeq_bool sampleRate 16000) eqn:Heq.
    - apply Qeq_bool_eq in Heq.
      assert (Hk1 : k = 1%Z).
      { rewrite Heq in Hrate. unfold Qeq in Hrate. cbn in Hrate. lia. }
      exists (length signal). rewrite Hk1, decimate_one by lia.
      apply copy_is_sample.
    - eexists. apply resample_loop_integer;
        [exact Hratio | lia | reflexivity | lia |].
      right. rewrite Z2Nat.id by lia.
      assert (H16 : 0 < sampleRate / 16000).
      { rewrite Hratio. rewrite <- (Zlt_Qlt 0). lia. }
      assert (Hlen1 : 1 <= inject_Z (Z.of_nat (length signal))).
      { rewrite <- (Zle_Qle 1). lia. }
      pose proof (resampleAudio_last_phase _ _ H16 Hlen1) as Hlast.
      rewrite Hratio in Hlast at 2.
      rewrite <- inject_Z_mult, <- Zlt_Qlt in Hlast. lia. }
  destruct Hbatch as [b Hbatch].
  exact (agree_on_decimation signal k _ b 0 _ _ Hstream Hbatch).
Qed.

End Resampling.

Section ResamplingInstances.
Local Open Scope Q_scope.

Lemma small_signal_range (x : Q) :
  In x [1; 2; 3; 4; 2] -> 1 <= x <= 4.
Proof.
  intros [<- | [<- | [<- | [<- | [<- | []]]]]]; split; Lqa.lra.
Qed.

Lemma resampleAudio_stays_in_range_witness :
  Forall (within 1 4) (resampleAudio [1; 2; 3; 4; 2] 44100 16000).
Proof.
  apply (resampleAudio_stays_in_range [1; 2; 3; 4; 2] 44100 16000 1 4).
  - reflexivity.
  - reflexivity.
  - exact small_signal_range.
Defined.

Lemma streaming_resample_bounded_witness :
  Forall (within 1 4)
    (fst (AudioProcessor.resample_blocks (AudioProcessor.constructor 44100)
            [[1; 2; 3]; [4; 2]])).
Proof.
  apply (streaming_resample_bounded [[1; 2; 3]; [4; 2]] 1 4
           (AudioProcessor.constructor 44100)).
  - reflexivity.
  - exact small_signal_range.
Defined.

Lemma integer_ratio_streaming_is_exact_witness :
  agree_on_common_length
    (fst (AudioProcessor.resample_blocks (AudioProcessor.constructor 48000)
            [[1; 2; 3; 4]; [5; 6; 7]]))
    (resampleAudio [1; 2; 3; 4; 5; 6; 7] 48000 16000)
  = true.
Proof.
  apply (integer_ratio_streaming_is_exact 48000 3 [[1; 2; 3; 4]; [5; 6; 7]]).
  - lia.
  - reflexivity.
Defined.

End ResamplingInstances.

(** ** The capture worklet's callback *)

Section Downmix.
Local Open Scope Q_scope.

Lemma fold_sum_bounds {B : Type} (g : B -> Q) (lo hi : Q) (l : list B) :
  (forall ch, In ch l -> lo <= g ch <= hi) ->
  forall a,
    a + inject_Z (Z.of_nat (length l)) * lo
    <= fold_left (fun sum ch => sum + g ch) l a
    <= a + inject_Z (Z.of_nat (length l)) * hi.
Proof.
  induction l as [|ch l IH]; intros Hg a.
  - cbn [fold_left length]. change (inject_Z (Z.of_nat 0)) with 0.
    split; Lqa.lra.
  - cbn [fold_left].
    assert (Hl : forall c, In c l -> lo <= g c <= hi)
      by (intros c Hc; apply Hg; right; exact Hc).
    specialize (IH Hl (a + g ch)).
    pose proof (Hg ch (or_introl eq_refl)) as Hch.
    change (length (ch :: l)) with (S (length l)).
    rewrite Nat2Z.inj_succ. unfold Z.succ.
    rewrite inject_Z_plus. change (inject_Z 1) with 1.
    set (n := inject_Z (Z.of_nat (length l))) in *.
    set (r := fold_left _ l (a + g ch)) in *. clearbody n r.
    split; Lqa.lra.
Qed.

Lemma Forall2_map_seq (f : nat -> Q) (l : list Q) :
  forall start,
    (forall i x, l !! i = Some x -> f (start + i)%nat == x) ->
    Forall2 Qeq (map f (seq start (length l))) l.
Proof.
  induction l as [|x l IH]; intros start Hf; cbn [length seq map];
    constructor.
  - rewrite <- (Hf 0%nat x eq_refl). rewrite Nat.add_0_r. reflexivity.
  - apply IH. intros i y Hy.
    replace (S start + i)%nat with (start + S i)%nat by lia.
    apply Hf. exact Hy.
Qed.

Lemma fold_left_Qsum {B : Type} (g : B -> Q) (l : list B) :
  forall a,
    fold_left (fun sum channel => sum + g channel) l a
    == a + Qsum (map g l).
Proof.
  induction l as [|ch l IH]; intros a; cbn [fold_left map Qsum fold_right].
  - ring.
  - rewrite IH. fold (Qsum (map g l)). ring.
Qed.

(** X23.  downmixChannels averages the channels frame by frame.  The
    output has as many frames as the first channel, and frame i of the
    output is the mean over all channels of their frames i, a frame that
    a channel lacks counting as 0; a single channel is passed through as
    it is.  So the mix of identical channels is that channel again, and
    the mix stays within any bounds lo <= 0 <= hi that enclose every
    input sample.  Without any channel the call throws. *)
Theorem downmixChannels_average (first : list Q) (others : list (list Q)) :
  AudioWorklet.downmixChannels [] = None /\
  exists mono,
    AudioWorklet.downmixChannels (first :: others) = Some mono /\
    length mono = length first /\
    (forall i, (i < length first)%nat ->
       exists y, mono !! i = Some y /\ y == mean_frame (first :: others) i) /\
    (others = [] -> mono = first) /\
    ((forall channel, In channel others -> channel = first) ->
     Forall2 Qeq mono first) /\
    (forall lo hi,
       lo <= 0 <= hi ->
       (forall channel x,
          In channel (first :: others) -> In x channel -> lo <= x <= hi) ->
       forall y, In y mono -> lo <= y <= hi).
Proof.
  split; [reflexivity|].
  destruct others as [|second rest].
  { exists first. split; [reflexivity|]. split; [reflexivity|].
    split; [|split; [reflexivity|split]].
    - intros i Hi. destruct (first !! i) as [x|] eqn:Hx.
      + exists x. split; [reflexivity|].
        unfold mean_frame, frame, Qsum. cbn [map fold_right length].
        rewrite Hx. cbn [default]. change (Datatypes.id x) with x.
        change (inject_Z (Z.of_nat 1)) with 1. field.
      + apply lookup_ge_None in Hx. lia.
    - intros _. clear. induction first; constructor; [reflexivity | assumption].
    - intros lo hi _ Hrange y Hy.
      apply (Hrange first y); [left; reflexivity | exact Hy]. }
  set (channelData := first :: second :: rest).
  set (count := inject_Z (Z.of_nat (length channelData))).
  assert (Hcount : 0 < count).
  { unfold count. rewrite <- (Zlt_Qlt 0). cbn [length channelData]. lia. }
  set (mix := fun i : nat =>
                fold_left (fun sum channel => sum + default 0 (channel !! i))
                  channelData 0 / count).
  exists (map mix (seq 0 (length first))).
  split; [reflexivity|]. split; [rewrite length_map, length_seq; reflexivity|].
  split; [|split; [discriminate|split]].
  - intros i Hi. exists (mix i). split.
    + change (map mix (seq 0 (length first)))
        with (mix <$> seq 0 (length first)).
      rewrite list_lookup_fmap, lookup_seq_lt by exact Hi. reflexivity.
    + unfold mix, mean_frame. fold count.
      rewrite (fold_left_Qsum (fun channel => default 0 (channel !! i))).
      unfold frame. rewrite Qplus_0_l. reflexivity.
  - intros Hsame. apply Forall2_map_seq. intros i x Hx. cbn [Nat.add].
    assert (Hg : forall ch, In ch channelData ->
                   x <= default 0 (ch !! i) <= x).
    { intros ch [<- | Hch].
      - rewrite Hx. cbn. unfold id. split; Lqa.lra.
      - rewrite (Hsame ch Hch), Hx. cbn. unfold id. split; Lqa.lra. }
    pose proof (fold_sum_bounds _ x x channelData Hg 0) as Hsum.
    fold count in Hsum. unfold mix.
    set (total := fold_left _ channelData 0) in *. clearbody total count.
    assert (Htotal : total == count * x) by Lqa.lra.
    rewrite Htotal. field. Lqa.lra.
  - intros lo hi H0 Hrange y Hy.
    apply in_map_iff in Hy as (i & <- & _).
    assert (Hg : forall ch, In ch channelData ->
                   lo <= default 0 (ch !! i) <= hi).
    { intros ch Hch. destruct (ch !! i) as [x|] eqn:Hx.
      - cbn. unfold id. apply (Hrange ch x Hch).
        apply list_elem_of_In. eapply list_elem_of_lookup_2. exact Hx.
      - cbn. exact H0. }
    pose proof (fold_sum_bounds _ lo hi channelData Hg 0) as Hsum.
    fold count in Hsum. unfold mix.
    set (total := fold_left _ channelData 0) in *. clearbody total count.
    split.
    + apply Qle_shift_div_l; [exact Hcount | Lqa.lra].
    + apply Qle_shift_div_r; [exact Hcount | Lqa.lra].
Qed.

End Downmix.

Section ProcessCallback.
Import RingBuffer RingBufferFacts.

Lemma resample_keeps_buffer_fields (p : AudioProcessor.t) (input : list Q) :
  let p' := snd (AudioProcessor.resample p input) in
  AudioProcessor.isInitialized p' = AudioProcessor.isInitialized p /\
  AudioProcessor.controlBuffer p' = AudioProcessor.controlBuffer p /\
  AudioProcessor.dataBuffer p' = AudioProcessor.dataBuffer p /\
  AudioProcessor.capacity p' = AudioProcessor.capacity p.
Proof.
  unfold AudioProcessor.resample. destruct (Qlt_le_dec _ _); cbn; tauto.
Qed.

Lemma write_keeps_readPtr {A : Type} (capacity : Z) (b : SharedBuffer A)
    (samples : list A) :
  readPtr (snd (write capacity b samples)) = readPtr b.
Proof.
  unfold write. destruct (_ =? 0); [reflexivity|].
  destruct (write_loop _ _ _ _). reflexivity.
Qed.

(** X24.  process accounts for every sample.  On an initialised processor
    with a sound ring buffer and an input whose first channel is not
    empty, process posts the level, then the block of samples to deliver
    (the downmix, resampled unless the ratio is 1) when it is not empty,
    and writes the block to the ring buffer: the first
    min(block length, availableWrite) samples go behind the unread ones,
    the read cursor is not touched, and exactly when some samples did not
    fit a bufferOverflow message reports their number. *)
Theorem process_accounts_for_every_sample
    (p : AudioProcessor.t) (b : SharedBuffer (option Q))
    (first : list Q) (others : list (list Q)) (rest : list (list (list Q)))
    (currentTime : R) :
  AudioProcessor.isInitialized p = true ->
  AudioProcessor.controlBuffer p = Some SharedView ->
  AudioProcessor.dataBuffer p = Some SharedView ->
  wf (AudioProcessor.capacity p) b ->
  first <> [] ->
  let capacity := AudioProcessor.capacity p in
  let '(posted, p', b') :=
    AudioWorklet.process p b ((first :: others) :: rest) currentTime in
  exists monoChannel samples,
    AudioWorklet.downmixChannels (first :: others) = Some monoChannel /\
    (samples, p')
    = (if negb (Qeq_bool (AudioProcessor.resampleRatio p) 1)
       then AudioProcessor.resample p monoChannel
       else (map Some monoChannel, p)) /\
    let written :=
      Z.min (Z.of_nat (length samples)) (availableWrite capacity b) in
    posted
    = AudioWorklet.MsgRms (AudioWorklet.calculateRMS monoChannel) currentTime
        :: match samples with
           | [] => []
           | _ => [AudioWorklet.MsgSamples samples]
           end
        ++ (if written <? Z.of_nat (length samples)
            then [AudioWorklet.MsgBufferOverflow
                    (Z.of_nat (length samples) - written)]
            else []) /\
    wf capacity b' /\
    readPtr b' = readPtr b /\
    contents None capacity b'
    = contents None capacity b ++ take (Z.to_nat written) samples.
Proof.
  intros Hinit Hcb Hdb Hwf Hne capacity.
  unfold AudioWorklet.process.
  destruct first as [|x0 first']; [congruence|].
  change (length (x0 :: first') =? 0)%nat with false. cbv iota.
  set (input := (x0 :: first') :: others).
  assert (Hmono : exists mono, AudioWorklet.downmixChannels input = Some mono).
  { unfold input, AudioWorklet.downmixChannels.
    destruct others; eexists; reflexivity. }
  destruct Hmono as [mono Hmono]. rewrite Hmono.
  set (stage := if negb (Qeq_bool (AudioProcessor.resampleRatio p) 1)
                then AudioProcessor.resample p mono
                else (map Some mono, p)).
  assert (Hfields :
    AudioProcessor.isInitialized (snd stage) = true /\
    AudioProcessor.controlBuffer (snd stage) = Some SharedView /\
    AudioProcessor.dataBuffer (snd stage) = Some SharedView /\
    AudioProcessor.capacity (snd stage) = capacity).
  { unfold stage. destruct (negb _).
    - destruct (resample_keeps_buffer_fields p mono) as (H1 & H2 & H3 & H4).
      rewrite H1, H2, H3, H4. tauto.
    - cbn [snd]. tauto. }
  destruct stage as [samples p1] eqn:Hstage. cbn [snd] in Hfields.
  destruct Hfields as (Hi1 & Hc1 & Hd1 & Hcap1).
  rewrite Hi1. cbn [andb].
  pose proof (available_sum capacity b Hwf) as Hsum.
  pose proof (availableRead_bounds capacity b Hwf) as Hbd.
  destruct samples as [|s0 samples'].
  - cbn [length Nat.ltb Nat.leb]. exists mono, [].
    split; [reflexivity|]. split; [symmetry; exact Hstage|]. cbv zeta.
    cbn [length]. rewrite Z.min_l by lia. cbn.
    split; [reflexivity|]. split; [exact Hwf|]. split; [reflexivity|].
    rewrite app_nil_r. reflexivity.
  - set (samples := s0 :: samples') in *.
    change (0 <? length samples)%nat with true. cbv iota.
    rewrite (writeToBuffer_is_write p1 b samples Hi1 Hc1 Hd1), Hcap1.
    destruct (write_spec None capacity b samples Hwf)
      as (b' & Hw & Hwf' & _ & _ & Hcontents).
    pose proof (write_keeps_readPtr capacity b samples) as Hrp.
    rewrite Hw in Hrp |- *. cbn [snd] in Hrp.
    exists mono, samples. split; [reflexivity|].
    split; [symmetry; exact Hstage|]. cbv zeta. split; [reflexivity|]. split; [exact Hwf'|].
    split; [exact Hrp | exact Hcontents].
Qed.

(** X25.  A processor that is not initialised (before "init", or after
    "stop") never touches the ring buffer and never reports an overflow,
    while it still posts the level and the samples; and on a callback
    without input (no input, no channel, or an empty first channel)
    process does nothing at all. *)
Theorem process_without_buffer_or_input
    (p : AudioProcessor.t) (b : SharedBuffer (option Q))
    (inputs : list (list (list Q))) (currentTime : R) :
  let '(posted, p', b') := AudioWorklet.process p b inputs currentTime in
  (AudioProcessor.isInitialized p = false ->
   b' = b /\
   forall dropped, ~ In (AudioWorklet.MsgBufferOverflow dropped) posted) /\
  (inputs = [] \/ (exists rest, inputs = [] :: rest) \/
   (exists others rest, inputs = ([] :: others) :: rest) ->
   posted = [] /\ p' = p /\ b' = b).
Proof.
  unfold AudioWorklet.process.
  destruct inputs as [|[|[|x0 first'] others] rest].
  - cbv beta iota. split; [intros _; split; [reflexivity | intros ? []]|].
    intros _. repeat split.
  - cbv beta iota. split; [intros _; split; [reflexivity | intros ? []]|].
    intros _. repeat split.
  - change (length (@nil Q) =? 0)%nat with true. cbv beta iota.
    split; [intros _; split; [reflexivity | intros ? []]|].
    intros _. repeat split.
  - change (length (x0 :: first') =? 0)%nat with false. cbv iota.
    destruct (AudioWorklet.downmixChannels _) as [mono|].
    2:{ cbv beta iota.
        split; [intros _; split; [reflexivity | intros ? []]|].
        intros _. repeat split. }
    pose proof (resample_keeps_buffer_fields p mono) as (Hi & _).
    assert (Hno : forall (samples : list (option Q)) rms dropped,
              ~ In (AudioWorklet.MsgBufferOverflow dropped)
                  (AudioWorklet.MsgRms rms currentTime
                     :: (if (0 <? length samples)%nat
                         then [AudioWorklet.MsgSamples samples] else []))).
    { intros samples rms dropped [Hd | Hd]; [discriminate|].
      destruct (0 <? length samples)%nat; [|destruct Hd].
      destruct Hd as [Hd | []]. discriminate. }
    destruct (negb _).
    + destruct (AudioProcessor.resample p mono) as [samples p1].
      cbn [snd] in Hi.
      destruct (AudioProcessor.isInitialized p1 && (0 <? length samples)%nat)
        eqn:Hgo.
      * destruct (AudioProcessor.writeToBuffer p1 b samples) as [written b'].
        split.
        -- intros Hoff. rewrite Hi, Hoff in Hgo. discriminate.
        -- intros [H | [(r & H) | (o & r & H)]]; discriminate.
      * split.
        -- intros _. split; [reflexivity | intros dropped; apply Hno].
        -- intros [H | [(r & H) | (o & r & H)]]; discriminate.
    + destruct (AudioProcessor.isInitialized p
                && (0 <? length (map Some mono))%nat) eqn:Hgo.
      * destruct (AudioProcessor.writeToBuffer p b (map Some mono))
          as [written b'].
        split.
        -- intros Hoff. rewrite Hoff in Hgo. discriminate.
        -- intros [H | [(r & H) | (o & r & H)]]; discriminate.
      * split.
        -- intros _. split; [reflexivity | intros dropped; apply Hno].
        -- intros [H | [(r & H) | (o & r & H)]]; discriminate.
Qed.

End ProcessCallback.

Section WorkletInstances.
Import RingBuffer RingBufferFacts.
Local Open Scope Q_scope.

Lemma downmixChannels_average_witness :
  exists mono,
    AudioWorklet.downmixChannels [[1; 2]; [3]] = Some mono /\
    (exists y, mono !! 0%nat = Some y /\ y == 2) /\
    (exists y, mono !! 1%nat = Some y /\ y == 1).
Proof.
  destruct (downmixChannels_average [1; 2] [[3]])
    as (_ & mono & Hmono & _ & Hmean & _).
  exists mono. split; [exact Hmono|]. split.
  - destruct (Hmean 0%nat) as (y & Hy & Hq); [cbn; lia|].
    exists y. split; [exact Hy|]. rewrite Hq. reflexivity.
  - destruct (Hmean 1%nat) as (y & Hy & Hq); [cbn; lia|].
    exists y. split; [exact Hy|]. rewrite Hq. reflexivity.
Defined.

Lemma process_accounts_for_every_sample_witness :
  let p := AudioProcessor.initializeBuffer (AudioProcessor.constructor 16000) 4 in
  let b := createRingBuffer (Some 0) 4 in
  let '(posted, p', b') :=
    AudioWorklet.process p b [[[1; 2; 3; 4; 5]]] 0%R in
  exists monoChannel samples,
    AudioWorklet.downmixChannels [[1; 2; 3; 4; 5]] = Some monoChannel /\
    (samples, p')
    = (if negb (Qeq_bool (AudioProcessor.resampleRatio p) 1)
       then AudioProcessor.resample p monoChannel
       else (map Some monoChannel, p)) /\
    let written :=
      Z.min (Z.of_nat (length samples)) (availableWrite 4 b) in
    posted
    = AudioWorklet.MsgRms (AudioWorklet.calculateRMS monoChannel) 0%R
        :: match samples with
           | [] => []
           | _ => [AudioWorklet.MsgSamples samples]
           end
        ++ (if (written <? Z.of_nat (length samples))%Z
            then [AudioWorklet.MsgBufferOverflow
                    (Z.of_nat (length samples) - written)]
            else []) /\
    wf 4 b' /\
    readPtr b' = readPtr b /\
    contents None 4 b'
    = contents None 4 b ++ take (Z.to_nat written) samples.
Proof.
  intros p b.
  apply (process_accounts_for_every_sample p b [1; 2; 3; 4; 5] [] [] 0%R).
  - reflexivity.
  - reflexivity.
  - reflexivity.
  - apply createRingBuffer_wf. lia.
  - discriminate.
Defined.

Lemma process_without_buffer_or_input_witness :
  let p := AudioProcessor.constructor 44100 in
  let b := createRingBuffer (Some 0) 4 in
  snd (AudioWorklet.process p b [[[1; 2; 3]]] 0%R) = b.
Proof.
  intros p b.
  pose proof (process_without_buffer_or_input p b [[[1; 2; 3]]] 0%R) as H.
  destruct (AudioWorklet.process p b [[[1; 2; 3]]] 0%R) as [[posted p'] b'].
  destruct H as [H _]. apply H. reflexivity.
Defined.

End WorkletInstances.

(** ** The voice hold across calls of runInference *)

Section VoiceHold.
Local Open Scope R_scope.

Lemma finish_inference_shape (sm : EmaSmoother.t) (logits : list R)
    (it : R) (t : Z) :
  let raw := probabilitiesToMap (softmax logits) in
  let e := fst (EmaSmoother.update sm raw) in
  finish_inference sm logits it t
  = (mkPrediction e raw (fst (getDominant e)) (snd (getDominant e)) it t false,
     snd (EmaSmoother.update sm raw)) /\
  EmaSmoother.state (snd (EmaSmoother.update sm raw)) = Some e.
Proof.
  intros raw e. unfold finish_inference. fold raw. subst e.
  split.
  - destruct (EmaSmoother.update sm raw) as [e sm']. cbn [fst snd].
    destruct (getDominant e). reflexivity.
  - unfold EmaSmoother.update. destruct (EmaSmoother.state sm); reflexivity.
Qed.

(** X26.  The voice hold, through runInference.  After a voiced window at
    time t0 > 0 whose model call resolved, a window below the noise
    gate less than 800 ms later answers with the same smoothed vector,
    dominant label and confidence as the voiced result, flagged as
    silence, without running the model and without moving the smoother
    or the voiced timestamp.  After resetInference the same silent
    window answers the neutral vector with confidence 1. *)
Theorem voice_hold_through_runInference
    (s : InferenceService.t) (voiced silent : list R) (logits : list R)
    (outcome : run_outcome) (it0 it1 : R) (t0 f0 t1 f1 : Z) :
  InferenceService.session s = Some LoadedSession ->
  ~ calculateRMS voiced < NOISE_GATE_THRESHOLD ->
  calculateRMS silent < NOISE_GATE_THRESHOLD ->
  (0 < t0)%Z -> (t1 - t0 < VOICE_HOLD_MS)%Z ->
  let first := InferenceService.runInference (Resolved logits) it0 t0 f0 s voiced in
  let second := InferenceService.runInference outcome it1 t1 f1 (snd first) silent in
  let after_reset :=
    InferenceService.runInference outcome it1 t1 f1
      (InferenceService.resetInference (snd first)) silent in
  exists p1 p2 p3,
    fst first = Some p1 /\ fst second = Some p2 /\ fst after_reset = Some p3 /\
    isSilence p1 = false /\ isSilence p2 = true /\
    emotions p2 = emotions p1 /\
    dominant p2 = dominant p1 /\
    confidence p2 = confidence p1 /\
    timestamp p2 = t1 /\
    InferenceService.probabilitySmoother (snd second)
    = InferenceService.probabilitySmoother (snd first) /\
    InferenceService.lastVoicedTimestamp (snd second) = t0 /\
    emotions p3 = NEUTRAL_VECTOR /\ dominant p3 = "neutral"%string /\
    confidence p3 = 1.
Proof.
  intros Hsession Hvoiced Hsilent Ht0 Hhold.
  destruct (finish_inference_shape (InferenceService.probabilitySmoother s)
              logits it0 f0) as [Hshape Hstate].
  cbv zeta in Hshape, Hstate.
  set (raw := probabilitiesToMap (softmax logits)) in *.
  set (e := fst (EmaSmoother.update (InferenceService.probabilitySmoother s)
                   raw)) in *.
  set (sm1 := snd (EmaSmoother.update (InferenceService.probabilitySmoother s)
                     raw)) in *.
  set (p1 := mkPrediction e raw (fst (getDominant e)) (snd (getDominant e))
               it0 f0 false) in *.
  set (s1 := InferenceService.mk (Some LoadedSession)
               (InferenceService.isInitialized s) t0 sm1).
  assert (Hfirst :
    InferenceService.runInference (Resolved logits) it0 t0 f0 s voiced
    = (Some p1, s1)).
  { unfold InferenceService.runInference. rewrite Hsession.
    destruct (Rlt_dec (calculateRMS voiced) NOISE_GATE_THRESHOLD)
      as [Hs | _]; [contradiction|].
    cbn [InferenceService.probabilitySmoother InferenceService.session
         InferenceService.isInitialized InferenceService.lastVoicedTimestamp].
    rewrite Hshape. reflexivity. }
  set (p2 := mkPrediction e e (fst (getDominant e)) (snd (getDominant e))
               0 t1 true).
  assert (Hsecond :
    InferenceService.runInference outcome it1 t1 f1 s1 silent
    = (Some p2, s1)).
  { unfold InferenceService.runInference, s1.
    cbn [InferenceService.probabilitySmoother InferenceService.session
         InferenceService.isInitialized InferenceService.lastVoicedTimestamp].
    destruct (Rlt_dec (calculateRMS silent) NOISE_GATE_THRESHOLD)
      as [_ | Hn]; [|contradiction].
    rewrite (silence_hold sm1 t0 t1 Ht0 Hhold). cbv zeta.
    rewrite Hstate. reflexivity. }
  set (p3 := mkPrediction NEUTRAL_VECTOR NEUTRAL_VECTOR "neutral"%string 1
               0 t1 true).
  assert (Hreset :
    fst (InferenceService.runInference outcome it1 t1 f1
           (InferenceService.resetInference s1) silent) = Some p3).
  { unfold InferenceService.runInference, InferenceService.resetInference, s1.
    cbn [InferenceService.probabilitySmoother InferenceService.session
         InferenceService.isInitialized InferenceService.lastVoicedTimestamp].
    destruct (Rlt_dec (calculateRMS silent) NOISE_GATE_THRESHOLD)
      as [_ | Hn]; [|contradiction].
    assert (Hnohold : ~ (0 < 0 /\ t1 - 0 < VOICE_HOLD_MS)%Z) by lia.
    rewrite (silence_decay (EmaSmoother.reset sm1) 0 t1 Hnohold). cbv zeta.
    change (EmaSmoother.update (EmaSmoother.reset sm1) NEUTRAL_VECTOR)
      with (NEUTRAL_VECTOR,
            EmaSmoother.mk (EmaSmoother.alpha sm1) (Some NEUTRAL_VECTOR)).
    cbn [fst snd]. rewrite getDominant_neutral. reflexivity. }
  cbv zeta. rewrite Hfirst. cbn [fst snd]. rewrite Hsecond, Hreset.
  exists p1, p2, p3. cbn [fst snd].
  repeat (split; [reflexivity|]). reflexivity.
Qed.

End VoiceHold.

(** ** The session statistics of the store *)

Section SessionStatistics.
Local Open Scope R_scope.

Lemma sum_list_app (xs ys : list R) :
  sum_list (xs ++ ys) = sum_list xs + sum_list ys.
Proof.
  induction xs as [|x xs IH]; cbn [app].
  - rewrite sum_list_nil. lra.
  - rewrite !sum_list_cons, IH. lra.
Qed.

Lemma get_prop_in_keys (v : EmotionVector) (label : string) :
  In label (map fst v) -> get_prop v label = Some (prop_or_zero v label).
Proof.
  unfold prop_or_zero. induction v as [|[k x] v IH]; intros Hin;
    [destruct Hin|].
  cbn [get_prop]. destruct (String.eqb_spec k label) as [-> | Hne].
  - reflexivity.
  - destruct Hin as [Heq | Hin]; [cbn in Heq; contradiction|].
    apply IH, Hin.
Qed.

Lemma summary_step (m : string -> R) (n : nat) (e : EmotionVector) :
  map fst e = EMOTION_LABELS ->
  fold_left
    (fun newSummary label =>
       EmotionSession.set_prop newSummary label
         (EmotionSession.running_mean
            (EmotionSession.prop_number
               (map (fun l => (l, Some (m l))) EMOTION_LABELS) label)
            n (get_prop e label) (S n)))
    EMOTION_LABELS (map (fun l => (l, Some (m l))) EMOTION_LABELS)
  = map (fun l => (l, Some ((m l * INR n + prop_or_zero e l) / INR (S n))))
      EMOTION_LABELS.
Proof.
  intros Hkeys.
  assert (Hget : forall l, In l EMOTION_LABELS ->
            get_prop e l = Some (prop_or_zero e l)).
  { intros l Hl. apply get_prop_in_keys. rewrite Hkeys. exact Hl. }
  unfold EMOTION_LABELS in *.
  cbn [fold_left map EmotionSession.set_prop EmotionSession.prop_number
       String.eqb Ascii.eqb Bool.eqb].
  rewrite !Hget by (cbn; tauto).
  reflexivity.
Qed.

Lemma history_step {B : Type} (entry : PredictionResult -> B)
    (ps : list PredictionResult) (p : PredictionResult) :
  slice_from (map entry (drop (length ps - 60) ps) ++ [entry p]) (- 60)
  = map entry (drop (length (ps ++ [p]) - 60) (ps ++ [p])).
Proof.
  unfold slice_from. change (- 60 <? 0)%Z with true. cbv iota.
  change (Z.to_nat (- - 60)) with 60%nat.
  rewrite !length_app, length_map, length_drop. cbn [length].
  destruct (le_lt_dec 60 (length ps)) as [Hge | Hlt].
  - replace (length ps - (length ps - 60) + 1 - 60)%nat with 1%nat by lia.
    rewrite drop_app_le by (rewrite length_map, length_drop; lia).
    rewrite drop_app_le by lia.
    rewrite map_app. f_equal.
    rewrite <- skipn_map. change (@skipn) with (@drop).
    rewrite <- !skipn_map. change (@skipn) with (@drop).
    rewrite drop_drop. f_equal. lia.
  - replace (length ps - 60)%nat with 0%nat by lia.
    replace (length ps - 0 + 1 - 60)%nat with 0%nat by lia.
    replace (length ps + 1 - 60)%nat with 0%nat by lia.
    rewrite !drop_0, map_app. reflexivity.
Qed.

Lemma handlePrediction_invariant (start : EmotionSession.t)
    (ps : list PredictionResult) :
  EmotionSession.predictionCount start = 0%nat ->
  EmotionSession.sessionEmotionSummary start = EmotionSession.initialSummary ->
  EmotionSession.emotionHistory start = [] ->
  EmotionSession.maxHistoryLength start = 60%Z ->
  Forall (fun p => map fst (emotions p) = EMOTION_LABELS) ps ->
  let st := fold_left EmotionSession.handlePrediction ps start in
  EmotionSession.predictionCount st = length ps /\
  EmotionSession.maxHistoryLength st = 60%Z /\
  EmotionSession.emotionHistory st
  = map EmotionSession.history_entry (drop (length ps - 60) ps) /\
  (exists m,
     EmotionSession.sessionEmotionSummary st
     = map (fun l => (l, Some (m l))) EMOTION_LABELS /\
     forall l,
       m l * INR (length ps)
       = sum_list (map (fun p => prop_or_zero (emotions p) l) ps)) /\
  match last ps with
  | Some p =>
      EmotionSession.emotions st = emotions p /\
      EmotionSession.rawEmotions st = rawEmotions p /\
      EmotionSession.dominantEmotion st = dominant p /\
      EmotionSession.confidence st = confidence p /\
      EmotionSession.lastPredictionTime st = Some (timestamp p)
  | None => st = start
  end.
Proof.
  intros Hcount Hsummary Hhistory Hmax.
  induction ps as [|p ps IH] using rev_ind; intros Hkeys st.
  - unfold st. cbn [fold_left length drop map last].
    split; [exact Hcount|]. split; [exact Hmax|]. split; [exact Hhistory|].
    split; [|reflexivity].
    exists (fun _ => 0). split; [exact Hsummary|].
    intros l. rewrite sum_list_nil. cbn [INR]. lra.
  - apply Forall_app in Hkeys as [Hps Hp].
    apply Forall_cons_1 in Hp as [Hp _].
    specialize (IH Hps). cbv zeta in IH.
    unfold st. rewrite fold_left_app. cbn [fold_left].
    set (prev := fold_left EmotionSession.handlePrediction ps start) in *.
    destruct IH as (Hc & Hm & Hh & (m & Hs & Hmean) & _).
    rewrite last_snoc.
    unfold EmotionSession.handlePrediction.
    destruct p as [e raw d c it t sil]. cbn [emotions] in Hp.
    rewrite Hc, Hm, Hs, Hh.
    cbn [EmotionSession.predictionCount EmotionSession.maxHistoryLength
         EmotionSession.emotionHistory EmotionSession.sessionEmotionSummary
         EmotionSession.emotions EmotionSession.rawEmotions
         EmotionSession.dominantEmotion EmotionSession.confidence
         EmotionSession.lastPredictionTime
         emotions rawEmotions dominant confidence timestamp].
    split; [rewrite length_app; cbn [length]; lia|].
    split; [reflexivity|]. split.
    + exact (history_step EmotionSession.history_entry ps
               (mkPrediction e raw d c it t sil)).
    + split; [|repeat split].
      rewrite (summary_step m (length ps) e Hp).
      eexists. split; [reflexivity|].
      intros l. cbv beta. rewrite length_app, map_app, sum_list_app.
      cbn [length map emotions]. rewrite sum_list_cons, sum_list_nil.
      rewrite <- Hmean.
      replace (length ps + 1)%nat with (S (length ps)) by lia.
      field. apply not_0_INR. discriminate.
Qed.

Lemma prop_number_map (m : string -> R) (labels : list string) (label : string) :
  In label labels ->
  EmotionSession.prop_number (map (fun l => (l, Some (m l))) labels) label
  = Some (m label).
Proof.
  induction labels as [|l labels IH]; intros Hin; [destruct Hin|].
  cbn [map EmotionSession.prop_number].
  destruct (String.eqb_spec l label) as [-> | Hne]; [reflexivity|].
  destruct Hin as [Heq | Hin]; [contradiction | apply IH, Hin].
Qed.

(** X27.  The session statistics are running means.  From the initial store
    or after resetSession, once handlePrediction has taken a sequence of
    results that each carry the eight labels, predictionCount is their
    number, the session summary holds for every label the arithmetic mean
    of that label over all results, the history holds the entries of the
    last 60 results in order (so never more than 60), and the current
    emotions, dominant label and confidence are those of the last
    result. *)
Theorem session_summary_is_running_mean
    (start : EmotionSession.t) (ps : list PredictionResult) :
  start = EmotionSession.initialState \/
  (exists st, EmotionSession.maxHistoryLength st = 60%Z /\
              start = EmotionSession.resetSession st) ->
  Forall (fun p => map fst (emotions p) = EMOTION_LABELS) ps ->
  let st := fold_left EmotionSession.handlePrediction ps start in
  EmotionSession.predictionCount st = length ps /\
  (ps <> [] ->
   forall label, In label EMOTION_LABELS ->
     EmotionSession.prop_number (EmotionSession.sessionEmotionSummary st) label
     = Some (sum_list (map (fun p => prop_or_zero (emotions p) label) ps)
             / INR (length ps))) /\
  EmotionSession.emotionHistory st
  = map EmotionSession.history_entry (drop (length ps - 60) ps) /\
  (length (EmotionSession.emotionHistory st) <= 60)%nat /\
  (forall p, last ps = Some p ->
     EmotionSession.emotions st = emotions p /\
     EmotionSession.dominantEmotion st = dominant p /\
     EmotionSession.confidence st = confidence p).
Proof.
  intros Hstart Hkeys st.
  assert (Hfresh :
    EmotionSession.predictionCount start = 0%nat /\
    EmotionSession.sessionEmotionSummary start = EmotionSession.initialSummary /\
    EmotionSession.emotionHistory start = [] /\
    EmotionSession.maxHistoryLength start = 60%Z).
  { destruct Hstart as [-> | (st0 & Hmax & ->)].
    - repeat split.
    - cbn. repeat split. exact Hmax. }
  destruct Hfresh as (H1 & H2 & H3 & H4).
  destruct (handlePrediction_invariant start ps H1 H2 H3 H4 Hkeys)
    as (Hc & _ & Hh & (m & Hs & Hmean) & Hlast).
  fold st in Hc, Hh, Hs, Hlast.
  split; [exact Hc|]. split; [|split; [exact Hh|split]].
  - intros Hne label Hin. rewrite Hs, prop_number_map by exact Hin.
    f_equal. rewrite <- Hmean. field. apply not_0_INR.
    destruct ps; [congruence | discriminate].
  - rewrite Hh, length_map, length_drop. lia.
  - intros p Hp. rewrite Hp in Hlast. tauto.
Qed.

End SessionStatistics.

Section SessionInstances.
Local Open Scope R_scope.

Lemma voice_hold_through_runInference_witness :
  let s := InferenceService.mk (Some LoadedSession) true 0
             (EmaSmoother.constructor EMA_ALPHA) in
  let first :=
    InferenceService.runInference (Resolved [0; 1; 0; 3; 0; 0; 2; 0]) 5
      1000 1001 s (replicate 2376 1) in
  let second :=
    InferenceService.runInference (Rejected "unused") 0 1500 1501
      (snd first) (replicate 2376 0) in
  exists p1 p2,
    fst first = Some p1 /\ fst second = Some p2 /\
    emotions p2 = emotions p1 /\ isSilence p2 = true.
Proof.
  intros s first second.
  destruct (voice_hold_through_runInference s (replicate 2376 1)
              (replicate 2376 0) [0; 1; 0; 3; 0; 0; 2; 0] (Rejected "unused")
              5 0 1000 1001 1500 1501)
    as (p1 & p2 & _ & H1 & H2 & _ & _ & Hs & He & _).
  - reflexivity.
  - apply ones_are_voiced. lia.
  - rewrite calculateRMS_replicate by lia.
    rewrite Rabs_R0. unfold NOISE_GATE_THRESHOLD. lra.
  - lia.
  - unfold VOICE_HOLD_MS. lia.
  - exists p1, p2. split; [exact H1|]. split; [exact H2|].
    split; [exact He | exact Hs].
Defined.

Lemma session_summary_is_running_mean_witness :
  let quiet := mkPrediction NEUTRAL_VECTOR NEUTRAL_VECTOR "neutral" 1 0 0 true in
  EmotionSession.predictionCount
    (fold_left EmotionSession.handlePrediction [quiet; quiet]
       EmotionSession.initialState)
  = 2%nat.
Proof.
  intros quiet.
  apply (session_summary_is_running_mean EmotionSession.initialState
           [quiet; quiet]).
  - left. reflexivity.
  - repeat constructor.
Defined.

End SessionInstances.
